(** * The AbstractList object type of Tcl (generic/tclAbstractList.c)

    A shallow embedding of the abstract-list ("lazy sequence") value type:
    the representation header, its operation table, the element cache and
    the string projector, over an explicit model of the object heap. *)

From Stdlib Require Import ZArith Lia List String Ascii DecimalString.
From stdpp Require Import base option list gmap strings.

Local Open Scope Z_scope.

(** ** Machine integers

    [int] is 32 bits, [Tcl_WideInt] is 64 bits and [size_t] is 64 bits
    (LP64); a conversion to one of these types keeps the low bits. *)

Definition INT_MAX : Z := 2147483647.
Definition SIZE_MAX : Z := 18446744073709551615.

Definition to_int (z : Z) : Z := (z + 2 ^ 31) mod 2 ^ 32 - 2 ^ 31.
Definition to_wide (z : Z) : Z := (z + 2 ^ 63) mod 2 ^ 64 - 2 ^ 63.
Definition to_size_t (z : Z) : Z := z mod 2 ^ 64.

Definition NULL : Z := 0.
Definition TCL_OK : Z := 0.
Definition TCL_ERROR : Z := 1.

Definition NUL : ascii := "000"%char.
Definition SPACE : ascii := " "%char.

(** ** Data model *)

(** The type tags a value can carry; [tclAbstractListType] is the tag
    defined by this file, every other tag belongs to the host. *)
Inductive Tcl_ObjType : Type :=
  | tclAbstractListType
  | otherObjType (name : string).

#[global] Instance Tcl_ObjType_eq_dec : EqDecision Tcl_ObjType.
Proof. solve_decision. Defined.

(** A value handle: [bytes] is the string representation (a C buffer with
    its terminator, [None] for a NULL pointer), [objLength] the [length]
    field, [ptr1]/[ptr2] the two-pointer internal representation. *)
Record Tcl_Obj : Type := mkObj {
  refCount : Z;
  bytes : option (list ascii);
  objLength : Z;
  typePtr : option Tcl_ObjType;
  ptr1 : Z;
  ptr2 : Z
}.

Inductive Tcl_AbstractListVersion : Type := TCL_ABSTRACTLIST_VERSION_1.

(** The slot identifiers of [Tcl_AbstractListSetProc]: the enumeration
    [Tcl_AbstractListProcType] of tclAbstractList.h, in the order in which
    the switch lists its members. *)
Definition TCL_ABSL_NEW : Z := 0.
Definition TCL_ABSL_DUPREP : Z := 1.
Definition TCL_ABSL_LENGTH : Z := 2.
Definition TCL_ABSL_INDEX : Z := 3.
Definition TCL_ABSL_SLICE : Z := 4.
Definition TCL_ABSL_REVERSE : Z := 5.

(** The representation header.  Function pointers are code addresses
    ([NULL] when unset); [elements] is the address of the element cache
    ([NULL] when absent).  [abstractValue] is the payload: the bytes of the
    block from the offset of the field [abstractValue] to the end of the
    block, [None] for a byte that was never written. *)
Record AbstractList : Type := mkAbstractList {
  version : Tcl_AbstractListVersion;
  repSize : Z;
  typeName : string;
  elements : Z;
  newObjProc : Z;
  dupRepProc : Z;
  lengthProc : Z;
  indexProc : Z;
  sliceProc : Z;
  reverseProc : Z;
  abstractValue : list (option Z)
}.

Record Interp : Type := mkInterp {
  objResult : string;
  errorCode : list string
}.

(** The heap: value handles, representation blocks, element arrays and
    interpreters by address, and the number of bytes the allocator can
    still hand out. *)
Record State : Type := mkState {
  objs : gmap Z Tcl_Obj;
  reps : gmap Z AbstractList;
  arrays : gmap Z (list Z);
  interps : gmap Z Interp;
  avail : Z
}.

(** What the host and the subtypes supply: the layout of the header
    (declared in tclAbstractList.h), the content of fresh memory, and the
    code behind the function pointers of the operation table. *)
Record Host : Type := mkHost {
  sizeof_AbstractList : Z;
  offsetof_abstractValue : Z;
  sizeof_ptr : Z;
  uninit_char : ascii;
  uninit_ptr : Z;
  lengthProcAt : Z -> option (list (option Z) -> Z);
  indexProcAt : Z -> option (list (option Z) -> Z -> option (list ascii));
  dupRepProcAt :
    Z -> option (list (option Z) -> list (option Z) -> list (option Z));
  (** The named fields of the header end where its last member,
      [abstractValue], starts, and that member lies inside the structure. *)
  header_layout : 0 <= offsetof_abstractValue <= sizeof_AbstractList
}.

(** *** Field updates *)

Definition set_refCount (v : Z) (o : Tcl_Obj) : Tcl_Obj :=
  mkObj v (bytes o) (objLength o) (typePtr o) (ptr1 o) (ptr2 o).
Definition set_bytes (v : option (list ascii)) (o : Tcl_Obj) : Tcl_Obj :=
  mkObj (refCount o) v (objLength o) (typePtr o) (ptr1 o) (ptr2 o).
Definition set_objLength (v : Z) (o : Tcl_Obj) : Tcl_Obj :=
  mkObj (refCount o) (bytes o) v (typePtr o) (ptr1 o) (ptr2 o).
Definition set_typePtr (v : option Tcl_ObjType) (o : Tcl_Obj) : Tcl_Obj :=
  mkObj (refCount o) (bytes o) (objLength o) v (ptr1 o) (ptr2 o).
Definition set_ptr1 (v : Z) (o : Tcl_Obj) : Tcl_Obj :=
  mkObj (refCount o) (bytes o) (objLength o) (typePtr o) v (ptr2 o).
Definition set_ptr2 (v : Z) (o : Tcl_Obj) : Tcl_Obj :=
  mkObj (refCount o) (bytes o) (objLength o) (typePtr o) (ptr1 o) v.

Definition set_elements (v : Z) (r : AbstractList) : AbstractList :=
  mkAbstractList (version r) (repSize r) (typeName r) v (newObjProc r)
    (dupRepProc r) (lengthProc r) (indexProc r) (sliceProc r)
    (reverseProc r) (abstractValue r).
Definition set_typeName (v : string) (r : AbstractList) : AbstractList :=
  mkAbstractList (version r) (repSize r) v (elements r) (newObjProc r)
    (dupRepProc r) (lengthProc r) (indexProc r) (sliceProc r)
    (reverseProc r) (abstractValue r).
Definition set_newObjProc (v : Z) (r : AbstractList) : AbstractList :=
  mkAbstractList (version r) (repSize r) (typeName r) (elements r) v
    (dupRepProc r) (lengthProc r) (indexProc r) (sliceProc r)
    (reverseProc r) (abstractValue r).
Definition set_dupRepProc (v : Z) (r : AbstractList) : AbstractList :=
  mkAbstractList (version r) (repSize r) (typeName r) (elements r)
    (newObjProc r) v (lengthProc r) (indexProc r) (sliceProc r)
    (reverseProc r) (abstractValue r).
Definition set_lengthProc (v : Z) (r : AbstractList) : AbstractList :=
  mkAbstractList (version r) (repSize r) (typeName r) (elements r)
    (newObjProc r) (dupRepProc r) v (indexProc r) (sliceProc r)
    (reverseProc r) (abstractValue r).
Definition set_indexProc (v : Z) (r : AbstractList) : AbstractList :=
  mkAbstractList (version r) (repSize r) (typeName r) (elements r)
    (newObjProc r) (dupRepProc r) (lengthProc r) v (sliceProc r)
    (reverseProc r) (abstractValue r).
Definition set_sliceProc (v : Z) (r : AbstractList) : AbstractList :=
  mkAbstractList (version r) (repSize r) (typeName r) (elements r)
    (newObjProc r) (dupRepProc r) (lengthProc r) (indexProc r) v
    (reverseProc r) (abstractValue r).
Definition set_reverseProc (v : Z) (r : AbstractList) : AbstractList :=
  mkAbstractList (version r) (repSize r) (typeName r) (elements r)
    (newObjProc r) (dupRepProc r) (lengthProc r) (indexProc r)
    (sliceProc r) v (abstractValue r).
Definition set_abstractValue (v : list (option Z)) (r : AbstractList)
  : AbstractList :=
  mkAbstractList (version r) (repSize r) (typeName r) (elements r)
    (newObjProc r) (dupRepProc r) (lengthProc r) (indexProc r)
    (sliceProc r) (reverseProc r) v.

Definition with_objs (f : gmap Z Tcl_Obj -> gmap Z Tcl_Obj) (s : State)
  : State :=
  mkState (f (objs s)) (reps s) (arrays s) (interps s) (avail s).
Definition with_reps (f : gmap Z AbstractList -> gmap Z AbstractList)
  (s : State) : State :=
  mkState (objs s) (f (reps s)) (arrays s) (interps s) (avail s).
Definition with_arrays (f : gmap Z (list Z) -> gmap Z (list Z)) (s : State)
  : State :=
  mkState (objs s) (reps s) (f (arrays s)) (interps s) (avail s).
Definition with_interps (f : gmap Z Interp -> gmap Z Interp) (s : State)
  : State :=
  mkState (objs s) (reps s) (arrays s) (f (interps s)) (avail s).
Definition with_avail (v : Z) (s : State) : State :=
  mkState (objs s) (reps s) (arrays s) (interps s) v.

(** ** Effects

    A call either returns a value and a new heap, aborts the process
    through [Tcl_Panic], or has no defined behaviour (a NULL or dangling
    pointer is dereferenced, freed memory is freed again, a NULL function
    pointer is called). *)

Inductive Res (A : Type) : Type :=
  | Ok (a : A) (s : State)
  | Panic (msg : string)
  | Fault.

Arguments Ok {A} a s.
Arguments Panic {A} msg.
Arguments Fault {A}.

Definition M (A : Type) : Type := State -> Res A.

Definition ret {A} (a : A) : M A := fun s => Ok a s.

Definition bind {A B} (m : M A) (k : A -> M B) : M B :=
  fun s =>
    match m s with
    | Ok a s' => k a s'
    | Panic msg => Panic msg
    | Fault => Fault
    end.

Definition fault {A} : M A := fun _ => Fault.
Definition modify (f : State -> State) : M unit := fun s => Ok tt (f s).

Declare Scope tcl_scope.
Delimit Scope tcl_scope with tcl.
Notation "x <- c1 ;; c2" := (bind c1 (fun x => c2))
  (at level 100, c1 at next level, right associativity) : tcl_scope.
Notation "c1 ;;; c2" := (bind c1 (fun _ => c2))
  (at level 100, right associativity) : tcl_scope.
Local Open Scope tcl_scope.

(** [for (i = from; i < from + n; i++) body(i)] *)
Fixpoint for_loop (n : nat) (i : Z) (body : Z -> M unit) : M unit :=
  match n with
  | O => ret tt
  | S n' => body i ;;; for_loop n' (i + 1) body
  end.

(** The same loop carrying the local variables the body updates. *)
Fixpoint for_fold {A} (n : nat) (i : Z) (acc : A) (body : Z -> A -> M A)
  : M A :=
  match n with
  | O => ret acc
  | S n' => acc' <- body i acc ;; for_fold n' (i + 1) acc' body
  end.

(** *** Memory accesses *)

Definition deref_obj (p : Z) : M Tcl_Obj :=
  fun s => match objs s !! p with Some o => Ok o s | None => Fault end.

Definition update_obj (p : Z) (f : Tcl_Obj -> Tcl_Obj) : M unit :=
  o <- deref_obj p ;; modify (with_objs (insert p (f o))).

Definition deref_rep (p : Z) : M AbstractList :=
  fun s => match reps s !! p with Some r => Ok r s | None => Fault end.

Definition update_rep (p : Z) (f : AbstractList -> AbstractList) : M unit :=
  r <- deref_rep p ;; modify (with_reps (insert p (f r))).

Definition load_slot (a : Z) (i : Z) : M Z :=
  fun s =>
    match arrays s !! a with
    | Some l =>
        match l !! Z.to_nat i with
        | Some v => if 0 <=? i then Ok v s else Fault
        | None => Fault
        end
    | None => Fault
    end.

Definition store_slot (a : Z) (i : Z) (v : Z) : M unit :=
  fun s =>
    match arrays s !! a with
    | Some l =>
        if (0 <=? i) && (i <? Z.of_nat (length l))
        then Ok tt (with_arrays (insert a (<[Z.to_nat i := v]> l)) s)
        else Fault
    | None => Fault
    end.

(** A write of one character into the string buffer of a value. *)
Definition store_char (p : Z) (i : Z) (c : ascii) : M unit :=
  o <- deref_obj p ;;
  match bytes o with
  | Some b =>
      if (0 <=? i) && (i <? Z.of_nat (length b))
      then modify (with_objs (insert p (set_bytes (Some (<[Z.to_nat i := c]> b)) o)))
      else fault
  | None => fault
  end.

Section AbstractListModel.

Variable H : Host.

(** ** The host value system (external collaborators) *)

(** An address that no live handle, block, array or interpreter uses. *)
Definition fresh_addr (s : State) : Z :=
  fresh (({[NULL]} : gset Z) ∪ dom (objs s) ∪ dom (reps s)
           ∪ dom (arrays s) ∪ dom (interps s)).

(** The static empty string every new value points to. *)
Definition tclEmptyString : list ascii := [NUL].

(** Modelled from the spec: [create-empty-handle()], the macro [TclNewObj]
    of the host: a new handle with reference count zero, the empty string
    and no representation. *)
Definition TclNewObj : M Z :=
  fun s =>
    let p := fresh_addr s in
    Ok p (with_objs (insert p (mkObj 0 (Some tclEmptyString) 0 None NULL NULL)) s).

(** Modelled from the spec: the allocator [ckalloc]; it hands out a fresh
    block while the request fits the memory left, and NULL otherwise. *)
Definition ckalloc (size : Z) : M Z :=
  fun s =>
    if size <=? avail s
    then Ok (fresh_addr s) (with_avail (avail s - size) s)
    else Ok NULL s.

(** Modelled from the spec: [ckfree] of a representation block and of an
    element array; freeing what is not allocated is undefined. *)
Definition ckfree_rep (p : Z) : M unit :=
  _ <- deref_rep p ;; modify (with_reps (delete p)).

Definition ckfree_array (p : Z) : M unit :=
  fun s =>
    match arrays s !! p with
    | Some _ => Ok tt (with_arrays (delete p) s)
    | None => Fault
    end.

(** The first stores through a pointer that [ckalloc] returned: the block
    becomes a representation header, or an array of [n] pointers.  The
    stores of a header reach [extent] bytes into a block of [size] bytes;
    stores behind the end of the block are undefined. *)
Definition store_rep (p : Z) (size extent : Z) (r : AbstractList) : M unit :=
  if p =? NULL then fault
  else if extent <=? size then modify (with_reps (insert p r))
  else fault.

Definition as_array (p : Z) (n : Z) : M unit :=
  if p =? NULL then fault
  else modify (with_arrays (insert p (replicate (Z.to_nat n) (uninit_ptr H)))).

(** Modelled from the spec: [increment-reference(value)]. *)
Definition Tcl_IncrRefCount (p : Z) : M unit :=
  o <- deref_obj p ;; modify (with_objs (insert p (set_refCount (refCount o + 1) o))).

(** Modelled from the spec: [decrement-reference(value)], which triggers
    teardown at zero: [if (refCount-- <= 1) TclFreeObj(objPtr)]. *)
Definition Tcl_DecrRefCount (p : Z) : M unit :=
  o <- deref_obj p ;;
  if refCount o <=? 1
  then modify (with_objs (delete p))
  else modify (with_objs (insert p (set_refCount (refCount o - 1) o))).

(** Modelled from the spec: [get-string-form(value) -> (bytes, length)].
    A value without a string form would be rendered by its own type, which
    is outside this file. *)
Definition Tcl_GetStringFromObj (p : Z) : M (list ascii * Z) :=
  o <- deref_obj p ;;
  match bytes o with
  | Some b => ret (b, objLength o)
  | None => fault
  end.

(** Modelled from the spec: [Tcl_InitStringRep(objPtr, NULL, numBytes)]
    gives the value the empty string when [numBytes] is zero and otherwise
    a buffer of exactly [numBytes] bytes; it returns the buffer ([Some 0],
    its first byte) or NULL ([None]) when the allocation fails, leaving the
    value unmodified. *)
Definition Tcl_InitStringRep (p : Z) (numBytes : Z) : M (option Z) :=
  if numBytes =? 0
  then update_obj p (fun o => set_objLength 0 (set_bytes (Some tclEmptyString) o)) ;;;
       ret (Some 0)
  else
    b <- ckalloc numBytes ;;
    if b =? NULL then ret None
    else update_obj p (set_bytes (Some (replicate (Z.to_nat numBytes) (uninit_char H)))) ;;;
         ret (Some 0).

(** The C library's [strcpy(p, str)]: the bytes of [str] up to and including its
    terminator are written at offset [p] of the string buffer of [obj]. *)
Fixpoint strcpy_at (obj : Z) (off : Z) (str : list ascii) : M unit :=
  match str with
  | [] => fault
  | c :: rest =>
      store_char obj off c ;;;
      if Ascii.eqb c NUL then ret tt else strcpy_at obj (off + 1) rest
  end.

Definition strcpy (obj : Z) (p : option Z) (str : list ascii) : M unit :=
  match p with
  | Some off => strcpy_at obj off str
  | None => fault
  end.

(** Modelled from the spec: [invalidate-cached-string(handle)]. *)
Definition Tcl_InvalidateStringRep (p : Z) : M unit :=
  update_obj p (set_bytes None).

(** Modelled from the spec: [store-representation(handle, tag, header)]. *)
Definition Tcl_StoreInternalRep (p : Z) (ty : Tcl_ObjType) (p1 p2 : Z)
  : M unit :=
  update_obj p (fun o => set_ptr2 p2 (set_ptr1 p1 (set_typePtr (Some ty) o))).

(** Modelled from the spec: [get-tag(handle)] compared with a tag, the
    macro [TclHasInternalRep]. *)
Definition TclHasInternalRep (o : Tcl_Obj) (ty : Tcl_ObjType) : bool :=
  bool_decide (typePtr o = Some ty).

(** Modelled from the spec: the inline helper [AbstractListGetInternalRep]
    of tclAbstractList.h, which validates the tag and yields the header of
    a value, or NULL when the value carries another representation. *)
Definition AbstractListGetInternalRep (o : Tcl_Obj) : Z :=
  if TclHasInternalRep o tclAbstractListType then ptr1 o else NULL.

(** Modelled from the spec: the inline helper [Tcl_AbstractListRepPtr] of
    tclAbstractList.h, the header pointer of a value known to be an
    abstract list. *)
Definition Tcl_AbstractListRepPtr (o : Tcl_Obj) : Z := ptr1 o.

(** Modelled from the spec: [fatal-abort(message)]. *)
Definition Tcl_Panic (msg : string) : M unit := fun _ => Panic msg.

(** Modelled from the spec: the interpreter result and error code, where
    the diagnostic of a recoverable error is left. *)
Definition Tcl_SetObjResult (interp : Z) (msg : string) : M unit :=
  fun s =>
    match interps s !! interp with
    | Some i => Ok tt (with_interps (insert interp (mkInterp msg (errorCode i))) s)
    | None => Fault
    end.

Definition Tcl_SetErrorCode (interp : Z) (code : list string) : M unit :=
  fun s =>
    match interps s !! interp with
    | Some i => Ok tt (with_interps (insert interp (mkInterp (objResult i) code)) s)
    | None => Fault
    end.

(** ** Calls through the operation table

    The code behind a function pointer belongs to the subtype; a call
    through a pointer that holds no such code is undefined. *)

(** Modelled from the spec: the subtype's length function, which
    [length(handle)] delegates to; the logical sequence is immutable for
    the lifetime of a header, so the length is a function of the payload. *)
Definition call_lengthProc (fn : Z) (objPtr : Z) : M Z :=
  match lengthProcAt H fn with
  | None => fault
  | Some f =>
      o <- deref_obj objPtr ;;
      r <- deref_rep (ptr1 o) ;;
      ret (to_wide (f (abstractValue r)))
  end.

(** Modelled from the spec: the subtype's index function, which returns a
    freshly produced value for a logical position (reference count zero,
    the caller becomes responsible for it), or NULL where the subtype
    defines none. *)
Definition call_indexProc (fn : Z) (objPtr : Z) (index : Z) : M Z :=
  match indexProcAt H fn with
  | None => fault
  | Some f =>
      o <- deref_obj objPtr ;;
      r <- deref_rep (ptr1 o) ;;
      match f (abstractValue r) index with
      | None => ret NULL
      | Some str =>
          e <- TclNewObj ;;
          update_obj e (fun v => set_objLength (Z.of_nat (length str))
                                   (set_bytes (Some (str ++ [NUL])) v)) ;;;
          ret e
      end
  end.

(** Modelled from the spec: the subtype's duplicate-payload hook, which
    fixes up what the subtype owns inside the payload of the copy. *)
Definition call_dupRepProc (fn : Z) (srcPtr copyPtr : Z) : M unit :=
  match dupRepProcAt H fn with
  | None => fault
  | Some f =>
      src <- deref_obj srcPtr ;;
      srcRep <- deref_rep (ptr1 src) ;;
      copy <- deref_obj copyPtr ;;
      update_rep (ptr1 copy)
        (fun r => set_abstractValue (f (abstractValue srcRep) (abstractValue r)) r)
  end.

(** ** The functions of tclAbstractList.c *)

Definition Tcl_AbstractListObjLength (abstractListObjPtr : Z) : M Z :=
  o <- deref_obj abstractListObjPtr ;;
  r <- deref_rep (AbstractListGetInternalRep o) ;;
  call_lengthProc (lengthProc r) abstractListObjPtr.

(** A block of [size] bytes fresh from the allocator, seen as a header:
    nothing of its payload is written yet. *)
Definition fresh_payload (size : Z) : list (option Z) :=
  replicate (Z.to_nat (size - offsetof_abstractValue H)) None.

Definition Tcl_NewAbstractListObj (interp : Z) (typeName_ : string)
  (requiredSize : Z) : M Z :=
  objPtr <- TclNewObj ;;
  let repSize_ := to_size_t (sizeof_AbstractList H + requiredSize) in
  abstractListRepPtr <- ckalloc repSize_ ;;
  store_rep abstractListRepPtr repSize_ (offsetof_abstractValue H)
    {| version := TCL_ABSTRACTLIST_VERSION_1;
       repSize := repSize_;
       typeName := typeName_;
       elements := NULL;
       newObjProc := NULL;
       dupRepProc := NULL;
       lengthProc := NULL;
       indexProc := NULL;
       sliceProc := NULL;
       reverseProc := NULL;
       abstractValue := fresh_payload repSize_ |} ;;;
  Tcl_StoreInternalRep objPtr tclAbstractListType abstractListRepPtr
    (abstractListRepPtr + offsetof_abstractValue H) ;;;
  Tcl_InvalidateStringRep objPtr ;;;
  ret objPtr.

Definition Tcl_AbstractListObjIndex (abstractListObjPtr : Z) (index : Z)
  : M Z :=
  o <- deref_obj abstractListObjPtr ;;
  (if bool_decide (typePtr o <> Some tclAbstractListType)
   then Tcl_Panic "Tcl_AbstractListObjIndex called without and AbstractList Obj."
   else ret tt) ;;;
  abstractListRepPtr <- deref_rep (ptr1 o) ;;
  elementObjPtr <- call_indexProc (indexProc abstractListRepPtr)
                     abstractListObjPtr index ;;
  ret elementObjPtr.

Definition FreeAbstractListInternalRep (abstractListObjPtr : Z) : M unit :=
  o <- deref_obj abstractListObjPtr ;;
  let abstractListRepPtr := ptr1 o in
  r <- deref_rep abstractListRepPtr ;;
  (if elements r =? NULL then ret tt
   else
     llen <- call_lengthProc (lengthProc r) abstractListObjPtr ;;
     for_loop (Z.to_nat llen) 0
       (fun i =>
          e <- load_slot (elements r) i ;;
          if e =? NULL then ret tt else Tcl_DecrRefCount e) ;;;
     ckfree_array (elements r)) ;;;
  ckfree_rep abstractListRepPtr ;;;
  update_obj abstractListObjPtr (set_ptr1 NULL) ;;;
  update_obj abstractListObjPtr (set_ptr2 NULL).

(** [*copy = *src]: the structure assignment moves [sizeof(AbstractList)]
    bytes, the header up to the end of its member [abstractValue]; what
    the block holds behind the header stays as the allocator left it. *)
Definition assigned_payload (src : AbstractList) (blockSize : Z)
  : list (option Z) :=
  take (Z.to_nat (sizeof_AbstractList H - offsetof_abstractValue H))
    (abstractValue src)
  ++ replicate (Z.to_nat (blockSize - sizeof_AbstractList H)) None.

(** The assignment into a block of [blockSize] bytes; there is no such
    header when the block is smaller than the structure. *)
Definition struct_assign (src : AbstractList) (blockSize : Z)
  : option AbstractList :=
  if sizeof_AbstractList H <=? blockSize
  then Some (set_abstractValue (assigned_payload src blockSize) src)
  else None.

Definition DupAbstractListInternalRep (srcPtr copyPtr : Z) : M unit :=
  src <- deref_obj srcPtr ;;
  let srcAbstractListRepPtr := Tcl_AbstractListRepPtr src in
  srcRep <- deref_rep srcAbstractListRepPtr ;;
  let repSize_ := repSize srcRep in
  copyAbstractListRepPtr <- ckalloc repSize_ ;;
  match struct_assign srcRep repSize_ with
  | Some copyRep =>
      store_rep copyAbstractListRepPtr repSize_ (sizeof_AbstractList H) copyRep
  | None => fault
  end ;;;
  update_obj copyPtr (set_ptr1 copyAbstractListRepPtr) ;;;
  update_obj copyPtr
    (set_ptr2 (copyAbstractListRepPtr + offsetof_abstractValue H)) ;;;
  update_rep copyAbstractListRepPtr (set_typeName (typeName srcRep)) ;;;
  update_obj copyPtr (set_typePtr (Some tclAbstractListType)) ;;;
  if dupRepProc srcRep =? NULL then ret tt
  else call_dupRepProc (dupRepProc srcRep) srcPtr copyPtr.

(** The locals of [UpdateStringOfAbstractList] that its loops update:
    pass 1 accumulates [length], pass 2 advances [p]. *)
Definition padd (p : option Z) (n : Z) : option Z :=
  match p with Some off => Some (off + n) | None => None end.

Definition UpdateStringOfAbstractList (abstractListObjPtr : Z) : M unit :=
  o <- deref_obj abstractListObjPtr ;;
  let abstractListRepPtr := ptr1 o in
  r <- deref_rep abstractListRepPtr ;;
  n <- call_lengthProc (lengthProc r) abstractListObjPtr ;;
  let llen := to_int n in
  if llen <=? 0 then
    _ <- Tcl_InitStringRep abstractListObjPtr 0 ;; ret tt
  else
    length_ <- for_fold (Z.to_nat llen) 0 0
      (fun i length_ =>
         r <- deref_rep abstractListRepPtr ;;
         eleObj <- call_indexProc (indexProc r) abstractListObjPtr i ;;
         sl <- Tcl_GetStringFromObj eleObj ;;
         let slen := snd sl in
         Tcl_DecrRefCount eleObj ;;;
         ret (to_wide (length_ + to_int (slen + 1)))) ;;
    p <- Tcl_InitStringRep abstractListObjPtr length_ ;;
    _ <- for_fold (Z.to_nat llen) 0 p
      (fun i p =>
         r <- deref_rep abstractListRepPtr ;;
         eleObj <- call_indexProc (indexProc r) abstractListObjPtr i ;;
         sl <- Tcl_GetStringFromObj eleObj ;;
         let str := fst sl in
         let slen := snd sl in
         strcpy abstractListObjPtr p str ;;;
         match padd p slen with
         | Some off => store_char abstractListObjPtr off SPACE
         | None => fault
         end ;;;
         Tcl_DecrRefCount eleObj ;;;
         ret (padd p (slen + 1))) ;;
    (if 0 <? length_
     then store_char abstractListObjPtr (length_ - 1) NUL
     else ret tt) ;;;
    update_obj abstractListObjPtr (set_objLength (to_int (length_ - 1))).

Definition SetAbstractListFromAny (interp : Z) (objPtr : Z) : M Z :=
  Tcl_Panic "SetAbstractListFromAny: should never be called" ;;;
  ret TCL_ERROR.

Definition TclAbstractListObjCopy (interp : Z) (abstractListObjPtr : Z)
  : M Z :=
  o <- deref_obj abstractListObjPtr ;;
  let abstractListRepPtr := AbstractListGetInternalRep o in
  giveUp <- (if abstractListRepPtr =? NULL
             then rc <- SetAbstractListFromAny interp abstractListObjPtr ;;
                  ret (negb (rc =? TCL_OK))
             else ret false) ;;
  if (giveUp : bool) then ret NULL
  else
    copyPtr <- TclNewObj ;;
    Tcl_InvalidateStringRep copyPtr ;;;
    DupAbstractListInternalRep abstractListObjPtr copyPtr ;;;
    ret copyPtr.

(** [objc0] and [objv0] are what [*objcPtr] and [*objvPtr] hold at the
    call; the result is the return code with what they hold afterwards. *)
Definition Tcl_AbstractListObjGetElements (interp : Z) (objPtr : Z)
  (objc0 : Z) (objv0 : Z) : M (Z * Z * Z) :=
  o <- deref_obj objPtr ;;
  if TclHasInternalRep o tclAbstractListType then
    let abstractListRepPtr := AbstractListGetInternalRep o in
    r <- deref_rep abstractListRepPtr ;;
    n <- call_lengthProc (lengthProc r) objPtr ;;
    let objc := to_int n in
    if 0 <? objc then
      if negb (elements r =? NULL) then ret (TCL_OK, objc, elements r)
      else
        objv <- ckalloc (to_size_t (sizeof_ptr H * objc)) ;;
        if objv =? NULL then
          (if negb (interp =? NULL)
           then Tcl_SetObjResult interp "max length of a Tcl list exceeded" ;;;
                Tcl_SetErrorCode interp ["TCL"; "MEMORY"]%string
           else ret tt) ;;;
          ret (TCL_ERROR, objc0, objv0)
        else
          as_array objv objc ;;;
          update_rep abstractListRepPtr (set_elements objv) ;;;
          for_loop (Z.to_nat objc) 0
            (fun i =>
               r <- deref_rep abstractListRepPtr ;;
               e <- call_indexProc (indexProc r) objPtr i ;;
               store_slot objv i e ;;;
               Tcl_IncrRefCount e) ;;;
          ret (TCL_OK, objc, objv)
    else ret (TCL_OK, objc, NULL)
  else
    (if negb (interp =? NULL)
     then Tcl_SetObjResult interp "value is not an abstract list" ;;;
          Tcl_SetErrorCode interp ["TCL"; "VALUE"; "UNKNOWN"]%string
     else ret tt) ;;;
    ret (TCL_ERROR, objc0, objv0).

Definition Tcl_AbstractListSetProc (objPtr : Z) (ptype : Z) (proc : Z)
  : M Z :=
  o <- deref_obj objPtr ;;
  let al_internalRep := AbstractListGetInternalRep o in
  if al_internalRep =? NULL then ret TCL_ERROR
  else if ptype =? TCL_ABSL_NEW then
    update_rep al_internalRep (set_newObjProc proc) ;;; ret TCL_OK
  else if ptype =? TCL_ABSL_DUPREP then
    update_rep al_internalRep (set_dupRepProc proc) ;;; ret TCL_OK
  else if ptype =? TCL_ABSL_LENGTH then
    update_rep al_internalRep (set_lengthProc proc) ;;; ret TCL_OK
  else if ptype =? TCL_ABSL_INDEX then
    update_rep al_internalRep (set_indexProc proc) ;;; ret TCL_OK
  else if ptype =? TCL_ABSL_SLICE then
    update_rep al_internalRep (set_sliceProc proc) ;;; ret TCL_OK
  else if ptype =? TCL_ABSL_REVERSE then
    update_rep al_internalRep (set_reverseProc proc) ;;; ret TCL_OK
  else ret TCL_ERROR.

End AbstractListModel.

(** ** A concrete subtype: the arithmetic series

    The payload holds three 64-bit little-endian integers: the first
    element, the step and the number of elements. *)

Fixpoint le_bytes (n : nat) (z : Z) : list (option Z) :=
  match n with
  | O => []
  | S n' => Some (z mod 256) :: le_bytes n' (z / 256)
  end.

Fixpoint le_unsigned (l : list (option Z)) : option Z :=
  match l with
  | [] => Some 0
  | None :: _ => None
  | Some b :: rest =>
      match le_unsigned rest with
      | Some z => Some (b + 256 * z)
      | None => None
      end
  end.

Definition le_field (k : nat) (payload : list (option Z)) : option Z :=
  let cells := take 8 (drop (8 * k) payload) in
  if (length cells =? 8)%nat
  then match le_unsigned cells with
       | Some z => Some (to_wide z)
       | None => None
       end
  else None.

Definition decimal (z : Z) : list ascii :=
  list_ascii_of_string (DecimalString.NilZero.string_of_int (Z.to_int z)).

Definition series_length (payload : list (option Z)) : Z :=
  match le_field 2 payload with
  | Some count => count
  | None => 0
  end.

Definition series_index (payload : list (option Z)) (i : Z)
  : option (list ascii) :=
  match le_field 0 payload, le_field 1 payload, le_field 2 payload with
  | Some start, Some step, Some count =>
      if (0 <=? i) && (i <? count)
      then Some (decimal (start + i * step))
      else None
  | _, _, _ => None
  end.

(** A second subtype, a run of empty strings: its index operation yields
    the empty string at every position and checks no range. *)
Definition blanks_index (payload : list (option Z)) (i : Z)
  : option (list ascii) := Some [].

(** The duplicate hook of the series copies the whole payload. *)
Definition series_dupRep (src copy : list (option Z)) : list (option Z) := src.

Definition seriesHost : Host :=
  {| sizeof_AbstractList := 88;
     offsetof_abstractValue := 80;
     sizeof_ptr := 8;
     uninit_char := "?"%char;
     uninit_ptr := 3735928559;
     lengthProcAt := fun fn => if fn =? 4001 then Some series_length else None;
     indexProcAt := fun fn =>
       if fn =? 4002 then Some series_index
       else if fn =? 4004 then Some blanks_index
       else None;
     dupRepProcAt := fun fn => if fn =? 4003 then Some series_dupRep else None;
     header_layout := ltac:(lia) |}.

(** The constructor of the subtype, written against the public entry
    points: create, register the operations, fill the payload. *)
Definition series_new (start step count : Z) : M Z :=
  objPtr <- Tcl_NewAbstractListObj seriesHost NULL "arithseries" 24 ;;
  Tcl_AbstractListSetProc objPtr TCL_ABSL_DUPREP 4003 ;;;
  Tcl_AbstractListSetProc objPtr TCL_ABSL_LENGTH 4001 ;;;
  Tcl_AbstractListSetProc objPtr TCL_ABSL_INDEX 4002 ;;;
  o <- deref_obj objPtr ;;
  update_rep (ptr1 o)
    (fun r => set_abstractValue
       (le_bytes 8 start ++ le_bytes 8 step ++ le_bytes 8 count
          ++ drop 24 (abstractValue r)) r) ;;;
  ret objPtr.

Definition blanks_new (count : Z) : M Z :=
  objPtr <- Tcl_NewAbstractListObj seriesHost NULL "blanks" 24 ;;
  Tcl_AbstractListSetProc objPtr TCL_ABSL_DUPREP 4003 ;;;
  Tcl_AbstractListSetProc objPtr TCL_ABSL_LENGTH 4001 ;;;
  Tcl_AbstractListSetProc objPtr TCL_ABSL_INDEX 4004 ;;;
  o <- deref_obj objPtr ;;
  update_rep (ptr1 o)
    (fun r => set_abstractValue
       (le_bytes 8 0 ++ le_bytes 8 0 ++ le_bytes 8 count
          ++ drop 24 (abstractValue r)) r) ;;;
  ret objPtr.

(** A heap with one interpreter at address 900 and 1 MB to allocate. *)
Definition startState : State :=
  mkState ∅ ∅ ∅ {[ 900 := mkInterp "" [] ]} 1000000.

Definition state_after {A} (m : M A) (s : State) : State :=
  match m s with
  | Ok _ s' => s'
  | _ => s
  end.

Definition value_of {A} (m : M A) (s : State) (d : A) : A :=
  match m s with
  | Ok a _ => a
  | _ => d
  end.

(** The heap holding the series 0 2 4 6 8, and its handle. *)
Definition seriesState : State := state_after (series_new 0 2 5) startState.
Definition seriesObj : Z := value_of (series_new 0 2 5) startState NULL.

Definition obj_at (s : State) (p : Z) : Tcl_Obj :=
  default (mkObj 0 None 0 None NULL NULL) (objs s !! p).

Definition rep_at (s : State) (p : Z) : AbstractList :=
  default (mkAbstractList TCL_ABSTRACTLIST_VERSION_1 0 "" NULL NULL NULL NULL
             NULL NULL NULL [])
    (reps s !! ptr1 (obj_at s p)).

Definition seriesStrings : list (list ascii) := map decimal [0; 2; 4; 6; 8].

(** The same heap once the elements of the series are materialized. *)
Definition cachedState : State :=
  state_after (Tcl_AbstractListObjGetElements seriesHost NULL seriesObj 0 0)
    seriesState.

(** A copy of the series taken while its cache is populated, and the heap
    after the copy is destroyed again. *)
Definition copyObj : Z :=
  value_of (TclAbstractListObjCopy seriesHost NULL seriesObj) cachedState NULL.
Definition copiedState : State :=
  state_after (TclAbstractListObjCopy seriesHost NULL seriesObj) cachedState.
Definition afterFreeState : State :=
  state_after (FreeAbstractListInternalRep seriesHost copyObj) copiedState.

(** A plain value that is no abstract list. *)
Definition plainState : State := state_after TclNewObj startState.
Definition plainObj : Z := value_of TclNewObj startState NULL.

(** A series of 2^32 elements, one of -3 elements, and runs of empty
    strings of length 1 and of length 1 - 2^32. *)
Definition hugeState : State :=
  state_after (series_new 7 1 4294967296) startState.
Definition negativeState : State :=
  state_after (series_new 0 2 (-3)) startState.
Definition blankState : State := state_after (blanks_new 1) startState.
Definition wrappedState : State :=
  state_after (blanks_new (-4294967295)) startState.
Definition hugeObj : Z := value_of (series_new 7 1 4294967296) startState NULL.
Definition negativeObj : Z := value_of (series_new 0 2 (-3)) startState NULL.
Definition blankObj : Z := value_of (blanks_new 1) startState NULL.
Definition wrappedObj : Z :=
  value_of (blanks_new (-4294967295)) startState NULL.

(** ** Vocabulary of the statements *)

Definition INT_MIN : Z := -2147483648.

(** A computation that never aborts the process. *)
Definition quiet {A} (m : M A) : Prop := forall s msg, m s <> Panic msg.

(** The operation-table slot a slot identifier names. *)
Definition slot (k : Z) (r : AbstractList) : Z :=
  if k =? TCL_ABSL_NEW then newObjProc r
  else if k =? TCL_ABSL_DUPREP then dupRepProc r
  else if k =? TCL_ABSL_LENGTH then lengthProc r
  else if k =? TCL_ABSL_INDEX then indexProc r
  else if k =? TCL_ABSL_SLICE then sliceProc r
  else if k =? TCL_ABSL_REVERSE then reverseProc r
  else NULL.

Definition recognized (k : Z) : Prop :=
  k = TCL_ABSL_NEW \/ k = TCL_ABSL_DUPREP \/ k = TCL_ABSL_LENGTH
  \/ k = TCL_ABSL_INDEX \/ k = TCL_ABSL_SLICE \/ k = TCL_ABSL_REVERSE.

(** The value the index operation produces for the string [str], held
    with [rc] references. *)
Definition elem_value (str : list ascii) (rc : Z) : Tcl_Obj :=
  mkObj rc (Some (str ++ [NUL])) (Z.of_nat (length str)) None NULL NULL.

(** The strings of the elements at positions [i], [i+1], ..., [i+n-1], when
    the index operation yields a value at each of them. *)
Fixpoint index_strings (f : Z -> option (list ascii)) (n : nat) (i : Z)
  : option (list (list ascii)) :=
  match n with
  | O => Some []
  | S n' =>
      match f i, index_strings f n' (i + 1) with
      | Some str, Some rest => Some (str :: rest)
      | _, _ => None
      end
  end.

(** The array at [a] is an element cache for the strings [strs]: entry [i]
    is a live value with the string [i] and at least one reference. *)
Definition cache_holds (s : State) (a : Z) (strs : list (list ascii)) : Prop :=
  exists arr,
    arrays s !! a = Some arr
    /\ Forall2 (fun e str =>
                  exists rc, 0 < rc /\ objs s !! e = Some (elem_value str rc))
         arr strs.

(** What the rendering pass writes: the bytes of each element followed by
    one separator. *)
Fixpoint render (strs : list (list ascii)) : list ascii :=
  match strs with
  | [] => []
  | str :: rest => str ++ SPACE :: render rest
  end.

(** The total the measuring pass accumulates, with the conversions of the
    C expression [length += slen + 1]. *)
Fixpoint measure_from (acc : Z) (strs : list (list ascii)) : Z :=
  match strs with
  | [] => acc
  | str :: rest =>
      measure_from (to_wide (acc + to_int (Z.of_nat (length str) + 1))) rest
  end.

Definition measured (strs : list (list ascii)) : Z := measure_from 0 strs.

(** A string without an embedded NUL, as every Tcl string is. *)
Definition clean (str : list ascii) : bool :=
  forallb (fun c => negb (Ascii.eqb c NUL)) str.

(** The text of a value: the first [length] bytes of its buffer. *)
Definition string_of (o : Tcl_Obj) : option (list ascii) :=
  match bytes o with
  | Some b => Some (take (Z.to_nat (objLength o)) b)
  | None => None
  end.


(** The elements joined by single separators. *)
Fixpoint joined (strs : list (list ascii)) : list ascii :=
  match strs with
  | [] => []
  | str :: rest =>
      match rest with
      | [] => str
      | _ :: _ => str ++ SPACE :: joined rest
      end
  end.

(** The sum over the elements of (string length + 1). *)
Fixpoint sum_lengths (strs : list (list ascii)) : Z :=
  match strs with
  | [] => 0
  | str :: rest => Z.of_nat (length str) + 1 + sum_lengths rest
  end.

(** ** The delegating entry points and further vocabulary *)

Section Delegation.

(** Modelled from the spec: the subtype's slice and reverse functions,
    which [slice] and [reverse] fully delegate to; they may return a new
    handle or the same handle. *)
Variable sliceProcAt : Z -> option (Z -> Z -> Z -> M Z).
Variable reverseProcAt : Z -> option (Z -> M Z).

Definition Tcl_AbstractListObjRange (abstractListObjPtr : Z)
  (fromIdx toIdx : Z) : M Z :=
  o <- deref_obj abstractListObjPtr ;;
  abstractListRepPtr <- deref_rep (AbstractListGetInternalRep o) ;;
  match sliceProcAt (sliceProc abstractListRepPtr) with
  | Some slice => slice abstractListObjPtr fromIdx toIdx
  | None => fault
  end.

Definition Tcl_AbstractListObjReverse (abstractListObjPtr : Z) : M Z :=
  o <- deref_obj abstractListObjPtr ;;
  abstractListRepPtr <- deref_rep (AbstractListGetInternalRep o) ;;
  match reverseProcAt (reverseProc abstractListRepPtr) with
  | Some reverse => reverse abstractListObjPtr
  | None => fault
  end.

End Delegation.

(** The object heap [m] extended with one value per handle of [es],
    holding the strings [strs] with [rc] references each, in the order in
    which materialization creates them. *)
Fixpoint with_elems (es : list Z) (strs : list (list ascii)) (rc : Z)
  (m : gmap Z Tcl_Obj) : gmap Z Tcl_Obj :=
  match es, strs with
  | e :: es', str :: strs' => with_elems es' strs' rc (<[e := elem_value str rc]> m)
  | _, _ => m
  end.

(** The object heap after one reference is released from every non-NULL
    entry of [es], in order; [None] when an entry is no live value at its
    turn. *)
Fixpoint released (es : list Z) (m : gmap Z Tcl_Obj)
  : option (gmap Z Tcl_Obj) :=
  match es with
  | [] => Some m
  | e :: rest =>
      if e =? NULL then released rest m
      else
        match m !! e with
        | Some o =>
            released rest
              (if refCount o <=? 1 then delete e m
               else <[e := set_refCount (refCount o - 1) o]> m)
        | None => None
        end
  end.

(** The header with the function [f] stored in the slot that [k] names. *)
Definition set_slot (k : Z) (f : Z) (r : AbstractList) : AbstractList :=
  if k =? TCL_ABSL_NEW then set_newObjProc f r
  else if k =? TCL_ABSL_DUPREP then set_dupRepProc f r
  else if k =? TCL_ABSL_LENGTH then set_lengthProc f r
  else if k =? TCL_ABSL_INDEX then set_indexProc f r
  else if k =? TCL_ABSL_SLICE then set_sliceProc f r
  else if k =? TCL_ABSL_REVERSE then set_reverseProc f r
  else r.

(** What one release leaves of a value held with [refCount o] references. *)
Definition after_release (o : Tcl_Obj) : option Tcl_Obj :=
  if refCount o <=? 1 then None else Some (set_refCount (refCount o - 1) o).

(** The header of a value once its cache is destroyed and its handle
    cleared. *)
Definition cleared (o : Tcl_Obj) : Tcl_Obj := set_ptr2 NULL (set_ptr1 NULL o).

(** A series of 2^32 + 1 elements with its cache materialized, the series
    0 2 4 6 8 after its representation is destroyed, and a list right
    after its creation. *)
Definition overlongState : State :=
  state_after
    (x <- series_new 7 1 4294967297 ;;
     Tcl_AbstractListObjGetElements seriesHost NULL x 0 0) startState.
Definition overlongObj : Z :=
  value_of (series_new 7 1 4294967297) startState NULL.
Definition freedState : State :=
  state_after (FreeAbstractListInternalRep seriesHost seriesObj) cachedState.
Definition createdState : State :=
  state_after (Tcl_NewAbstractListObj seriesHost NULL "arithseries" 24)
    startState.
Definition createdObj : Z :=
  value_of (Tcl_NewAbstractListObj seriesHost NULL "arithseries" 24)
    startState NULL.

(** Slice and reverse code that hands back the list it is given, which the
    entry points allow ("the same object if not shared"). *)
Definition sameSlice : Z -> option (Z -> Z -> Z -> M Z) :=
  fun fn => if fn =? 4005 then Some (fun objPtr _ _ => ret objPtr) else None.
Definition sameReverse : Z -> option (Z -> M Z) :=
  fun fn => if fn =? 4006 then Some (fun objPtr => ret objPtr) else None.

(** The element array of the list at [p]. *)
Definition cache_at (s : State) (p : Z) : list Z :=
  default [] (arrays s !! elements (rep_at s p)).

(** The series 0 2 4 6 8 on a heap with 3 bytes left to allocate. *)
Definition starvedState : State := with_avail 3 seriesState.

(** A series whose constructor registered the length and index code and
    stored the count, but neither the first element nor the step: its
    length is [count], and its index code finds no element anywhere. *)
Definition ragged_new (count : Z) : M Z :=
  objPtr <- Tcl_NewAbstractListObj seriesHost NULL "arithseries" 24 ;;
  Tcl_AbstractListSetProc objPtr TCL_ABSL_LENGTH 4001 ;;;
  Tcl_AbstractListSetProc objPtr TCL_ABSL_INDEX 4002 ;;;
  o <- deref_obj objPtr ;;
  update_rep (ptr1 o)
    (fun r => set_abstractValue
       (take 16 (abstractValue r) ++ le_bytes 8 count
          ++ drop 24 (abstractValue r)) r) ;;;
  ret objPtr.
Definition raggedState : State := state_after (ragged_new 3) startState.
Definition raggedObj : Z := value_of (ragged_new 3) startState NULL.

(** * Proofs *)

(** ** Running the monad *)

Lemma bind_Ok {A B} (m : M A) (k : A -> M B) (s s' : State) (a : A) :
  m s = Ok a s' -> bind m k s = k a s'.
Proof. intros Hm. unfold bind. rewrite Hm. reflexivity. Qed.

Lemma bind_Fault {A B} (m : M A) (k : A -> M B) (s : State) :
  m s = Fault -> bind m k s = Fault.
Proof. intros Hm. unfold bind. rewrite Hm. reflexivity. Qed.

Lemma bind_Panic {A B} (m : M A) (k : A -> M B) (s : State) msg :
  m s = Panic msg -> bind m k s = Panic msg.
Proof. intros Hm. unfold bind. rewrite Hm. reflexivity. Qed.

Lemma deref_obj_Ok (s : State) (p : Z) (o : Tcl_Obj) :
  objs s !! p = Some o -> deref_obj p s = Ok o s.
Proof. intros Hp. unfold deref_obj. rewrite Hp. reflexivity. Qed.

Lemma deref_rep_Ok (s : State) (p : Z) (r : AbstractList) :
  reps s !! p = Some r -> deref_rep p s = Ok r s.
Proof. intros Hp. unfold deref_rep. rewrite Hp. reflexivity. Qed.

Lemma update_obj_Ok (s : State) (p : Z) (o : Tcl_Obj) f :
  objs s !! p = Some o ->
  update_obj p f s = Ok tt (with_objs (insert p (f o)) s).
Proof. intros Hp. unfold update_obj. rewrite (bind_Ok _ _ _ _ _ (deref_obj_Ok _ _ _ Hp)). reflexivity. Qed.

Lemma update_rep_Ok (s : State) (p : Z) (r : AbstractList) f :
  reps s !! p = Some r ->
  update_rep p f s = Ok tt (with_reps (insert p (f r)) s).
Proof. intros Hp. unfold update_rep. rewrite (bind_Ok _ _ _ _ _ (deref_rep_Ok _ _ _ Hp)). reflexivity. Qed.

(** ** Fresh addresses *)

Lemma fresh_addr_spec (s : State) :
  fresh_addr s <> NULL /\ objs s !! fresh_addr s = None
  /\ reps s !! fresh_addr s = None /\ arrays s !! fresh_addr s = None
  /\ interps s !! fresh_addr s = None.
Proof.
  unfold fresh_addr.
  match goal with |- context [fresh ?X] => pose proof (is_fresh X) as Hf; set (a := fresh X) in * end.
  rewrite !not_elem_of_union in Hf. destruct Hf as [[[[H0 H1] H2] H3] H4].
  apply not_elem_of_dom in H1, H2, H3, H4.
  repeat split; try assumption.
  intros E. apply H0. rewrite E. set_solver.
Qed.

(** ** Computations that never abort the process *)

Lemma quiet_ret {A} (a : A) : quiet (ret a).
Proof. intros s msg. discriminate. Qed.

Lemma quiet_fault {A} : quiet (@fault A).
Proof. intros s msg. discriminate. Qed.

Lemma quiet_modify f : quiet (modify f).
Proof. intros s msg. discriminate. Qed.

Lemma quiet_bind {A B} (m : M A) (k : A -> M B) :
  quiet m -> (forall a, quiet (k a)) -> quiet (bind m k).
Proof.
  intros Hm Hk s msg. unfold bind.
  destruct (m s) as [a s'| msg' |] eqn:E.
  - apply Hk.
  - destruct (Hm _ _ E).
  - discriminate.
Qed.

Lemma quiet_pointwise {A} (m : M A) :
  (forall s, match m s with Panic _ => False | _ => True end) -> quiet m.
Proof. intros Hm s msg E. specialize (Hm s). rewrite E in Hm. exact Hm. Qed.

Lemma quiet_for_loop n i body :
  (forall j, quiet (body j)) -> quiet (for_loop n i body).
Proof.
  intros Hb. revert i. induction n as [|n IH]; intros i; simpl.
  - apply quiet_ret.
  - apply quiet_bind; [apply Hb | intros _; apply IH].
Qed.

Lemma quiet_for_fold {A} n i (acc : A) body :
  (forall j a, quiet (body j a)) -> quiet (for_fold n i acc body).
Proof.
  intros Hb. revert i acc. induction n as [|n IH]; intros i acc; simpl.
  - apply quiet_ret.
  - apply quiet_bind; [apply Hb | intros a; apply IH].
Qed.

Lemma quiet_deref_obj p : quiet (deref_obj p).
Proof. apply quiet_pointwise. intros s. unfold deref_obj. destruct (objs s !! p); exact I. Qed.

Lemma quiet_deref_rep p : quiet (deref_rep p).
Proof. apply quiet_pointwise. intros s. unfold deref_rep. destruct (reps s !! p); exact I. Qed.

Lemma quiet_load_slot a i : quiet (load_slot a i).
Proof.
  apply quiet_pointwise. intros s. unfold load_slot.
  destruct (arrays s !! a) as [l|]; [|exact I].
  destruct (l !! Z.to_nat i); [|exact I]. destruct (0 <=? i); exact I.
Qed.

Lemma quiet_store_slot a i v : quiet (store_slot a i v).
Proof.
  apply quiet_pointwise. intros s. unfold store_slot.
  destruct (arrays s !! a) as [l|]; [|exact I].
  destruct ((0 <=? i) && (i <? Z.of_nat (length l))); exact I.
Qed.

Lemma quiet_ckalloc size : quiet (ckalloc size).
Proof. apply quiet_pointwise. intros s. unfold ckalloc. destruct (size <=? avail s); exact I. Qed.

Lemma quiet_ckfree_array p : quiet (ckfree_array p).
Proof. apply quiet_pointwise. intros s. unfold ckfree_array. destruct (arrays s !! p); exact I. Qed.

Lemma quiet_TclNewObj : quiet TclNewObj.
Proof. intros s msg. discriminate. Qed.

Lemma quiet_Tcl_SetObjResult i m : quiet (Tcl_SetObjResult i m).
Proof. apply quiet_pointwise. intros s. unfold Tcl_SetObjResult. destruct (interps s !! i); exact I. Qed.

Lemma quiet_Tcl_SetErrorCode i c : quiet (Tcl_SetErrorCode i c).
Proof. apply quiet_pointwise. intros s. unfold Tcl_SetErrorCode. destruct (interps s !! i); exact I. Qed.

Create HintDb quiet.

#[local] Hint Resolve quiet_ret quiet_fault quiet_modify quiet_deref_obj
  quiet_deref_rep quiet_load_slot quiet_store_slot quiet_ckalloc
  quiet_ckfree_array quiet_TclNewObj quiet_Tcl_SetObjResult
  quiet_Tcl_SetErrorCode : quiet.

(** Decomposes a computation built from binds, conditionals and loops. *)
Ltac quiet_steps :=
  repeat first
    [ progress (auto with quiet)
    | apply quiet_bind; [|intros]
    | apply quiet_for_loop; intros
    | apply quiet_for_fold; intros
    | match goal with
      | |- quiet (if ?b then _ else _) => destruct b
      | |- quiet (match ?x with _ => _ end) => destruct x
      end ].

Lemma quiet_update_obj p f : quiet (update_obj p f).
Proof. unfold update_obj. quiet_steps. Qed.

Lemma quiet_update_rep p f : quiet (update_rep p f).
Proof. unfold update_rep. quiet_steps. Qed.

Lemma quiet_store_rep p size extent r : quiet (store_rep p size extent r).
Proof. unfold store_rep. quiet_steps. Qed.

Lemma quiet_as_array H p n : quiet (as_array H p n).
Proof. unfold as_array. quiet_steps. Qed.

Lemma quiet_Tcl_IncrRefCount p : quiet (Tcl_IncrRefCount p).
Proof. unfold Tcl_IncrRefCount. quiet_steps. Qed.

Lemma quiet_Tcl_DecrRefCount p : quiet (Tcl_DecrRefCount p).
Proof. unfold Tcl_DecrRefCount. quiet_steps. Qed.

#[local] Hint Resolve quiet_update_obj quiet_update_rep quiet_store_rep
  quiet_as_array quiet_Tcl_IncrRefCount quiet_Tcl_DecrRefCount : quiet.

Lemma quiet_call_lengthProc H fn p : quiet (call_lengthProc H fn p).
Proof. unfold call_lengthProc. quiet_steps. Qed.

Lemma quiet_call_indexProc H fn p i : quiet (call_indexProc H fn p i).
Proof. unfold call_indexProc. quiet_steps. Qed.

#[local] Hint Resolve quiet_call_lengthProc quiet_call_indexProc : quiet.

Lemma quiet_Tcl_AbstractListObjGetElements H interp objPtr objc0 objv0 :
  quiet (Tcl_AbstractListObjGetElements H interp objPtr objc0 objv0).
Proof. unfold Tcl_AbstractListObjGetElements. quiet_steps. Qed.

Lemma quiet_Tcl_AbstractListSetProc objPtr ptype proc :
  quiet (Tcl_AbstractListSetProc objPtr ptype proc).
Proof. unfold Tcl_AbstractListSetProc. quiet_steps. Qed.


Lemma quiet_Tcl_InitStringRep H p n : quiet (Tcl_InitStringRep H p n).
Proof. unfold Tcl_InitStringRep. quiet_steps. Qed.

Lemma quiet_Tcl_GetStringFromObj p : quiet (Tcl_GetStringFromObj p).
Proof. unfold Tcl_GetStringFromObj. quiet_steps. Qed.

Lemma quiet_store_char p i c : quiet (store_char p i c).
Proof. unfold store_char. quiet_steps. Qed.

#[local] Hint Resolve quiet_Tcl_InitStringRep quiet_Tcl_GetStringFromObj
  quiet_store_char : quiet.

Lemma quiet_strcpy obj p str : quiet (strcpy obj p str).
Proof.
  destruct p as [off|]; simpl; [|auto with quiet].
  revert off. induction str as [|c rest IH]; intros off; simpl; quiet_steps.
Qed.

#[local] Hint Resolve quiet_strcpy : quiet.

Lemma quiet_UpdateStringOfAbstractList H p :
  quiet (UpdateStringOfAbstractList H p).
Proof. unfold UpdateStringOfAbstractList. quiet_steps. Qed.

Lemma quiet_FreeAbstractListInternalRep H p :
  quiet (FreeAbstractListInternalRep H p).
Proof. unfold FreeAbstractListInternalRep, ckfree_rep. quiet_steps. Qed.

Lemma quiet_DupAbstractListInternalRep H p q :
  quiet (DupAbstractListInternalRep H p q).
Proof. unfold DupAbstractListInternalRep, call_dupRepProc. quiet_steps. Qed.

Lemma quiet_Tcl_NewAbstractListObj H i name size :
  quiet (Tcl_NewAbstractListObj H i name size).
Proof.
  unfold Tcl_NewAbstractListObj, Tcl_StoreInternalRep, Tcl_InvalidateStringRep.
  quiet_steps.
Qed.

(** C7, amended.  The text-to-representation entry point never succeeds:
    every call aborts the process with its own diagnostic; it returns no
    value and no error code.  The failure is not distinct from every
    other error path: the copy entry point, given a value without
    abstract-list representation, calls the conversion and so fails in
    the very same way, and it aborts in no other case.  Every other
    error path of the file is distinct from it: the single-element
    accessor aborts with a message of its own; the length entry point,
    the bulk accessor, the registration call, the string projector,
    teardown, duplication and creation never abort; the range and reverse
    entry points abort only where the slice or reverse code of the
    subtype does. *)
Theorem SetAbstractListFromAny_always_panics (interp objPtr : Z) (s : State) :
  SetAbstractListFromAny interp objPtr s
    = Panic "SetAbstractListFromAny: should never be called"
  /\ (forall v s', SetAbstractListFromAny interp objPtr s <> Ok v s')
  /\ SetAbstractListFromAny interp objPtr s <> Fault
  /\ (forall H i p s0 o,
        objs s0 !! p = Some o ->
        AbstractListGetInternalRep o = NULL ->
        TclAbstractListObjCopy H i p s0 = SetAbstractListFromAny i p s0)
  /\ (forall H i p s0 msg,
        TclAbstractListObjCopy H i p s0 = Panic msg ->
        msg = "SetAbstractListFromAny: should never be called"%string
        /\ exists o, objs s0 !! p = Some o
                     /\ AbstractListGetInternalRep o = NULL)
  /\ (forall H p i s0 msg,
        Tcl_AbstractListObjIndex H p i s0 = Panic msg ->
        msg = "Tcl_AbstractListObjIndex called without and AbstractList Obj."%string
        /\ msg <> "SetAbstractListFromAny: should never be called"%string)
  /\ (forall sliceProcAt p fromIdx toIdx s0 msg,
        Tcl_AbstractListObjRange sliceProcAt p fromIdx toIdx s0 = Panic msg ->
        exists fn slice,
          sliceProcAt fn = Some slice
          /\ slice p fromIdx toIdx s0 = Panic msg)
  /\ (forall reverseProcAt p s0 msg,
        Tcl_AbstractListObjReverse reverseProcAt p s0 = Panic msg ->
        exists fn reverse,
          reverseProcAt fn = Some reverse /\ reverse p s0 = Panic msg)
  /\ (forall H p, quiet (Tcl_AbstractListObjLength H p))
  /\ (forall H i p c v, quiet (Tcl_AbstractListObjGetElements H i p c v))
  /\ (forall p k f, quiet (Tcl_AbstractListSetProc p k f))
  /\ (forall H p, quiet (UpdateStringOfAbstractList H p))
  /\ (forall H p, quiet (FreeAbstractListInternalRep H p))
  /\ (forall H p q, quiet (DupAbstractListInternalRep H p q))
  /\ (forall H i name size, quiet (Tcl_NewAbstractListObj H i name size)).
Proof.
  split; [reflexivity|]. split; [discriminate|]. split; [discriminate|].
  split.
  { intros H i p s0 o Ho Hnull. unfold TclAbstractListObjCopy.
    rewrite (bind_Ok _ _ _ _ _ (deref_obj_Ok _ _ _ Ho)).
    rewrite Hnull. reflexivity. }
  split.
  { intros H i p s0 msg. unfold TclAbstractListObjCopy.
    unfold bind at 1, deref_obj at 1.
    destruct (objs s0 !! p) as [o|] eqn:Ho; [|discriminate].
    destruct (Z.eqb_spec (AbstractListGetInternalRep o) NULL) as [E|E].
    - intros [= <-]. split; [reflexivity|]. exists o. auto.
    - intros Hp. exfalso. revert Hp.
      assert (Hq : quiet (giveUp <- ret false ;;
                          if (giveUp : bool) then ret NULL
                          else
                            copyPtr <- TclNewObj ;;
                            Tcl_InvalidateStringRep copyPtr ;;;
                            DupAbstractListInternalRep H p copyPtr ;;;
                            ret copyPtr)).
      { apply quiet_bind; [apply quiet_ret|]. intros [|]; [apply quiet_ret|].
        apply quiet_bind; [apply quiet_TclNewObj|]. intros c.
        apply quiet_bind; [apply quiet_update_obj|]. intros _.
        apply quiet_bind; [apply quiet_DupAbstractListInternalRep|].
        intros _. apply quiet_ret. }
      apply Hq. }
  split.
  { intros H p i s0 msg. unfold Tcl_AbstractListObjIndex, bind.
    destruct (deref_obj p s0) as [o s1| m |] eqn:E1; try discriminate.
    - destruct (bool_decide _); simpl.
      + intros [= <-]. split; [reflexivity|discriminate].
      + destruct (deref_rep _ _) as [r s2| m |] eqn:E2; try discriminate.
        * destruct (call_indexProc _ _ _ _ _) as [e s3 | m |] eqn:E3;
            try discriminate.
          destruct (quiet_call_indexProc _ _ _ _ _ _ E3).
        * destruct (quiet_deref_rep _ _ _ E2).
    - destruct (quiet_deref_obj _ _ _ E1). }
  split.
  { intros sliceProcAt p fromIdx toIdx s0 msg.
    unfold Tcl_AbstractListObjRange, bind, deref_obj, deref_rep.
    destruct (objs s0 !! p) as [o|]; [|discriminate].
    destruct (reps s0 !! AbstractListGetInternalRep o) as [r|]; [|discriminate].
    destruct (sliceProcAt (sliceProc r)) as [slice|] eqn:Es; [|discriminate].
    intros Hp. exists (sliceProc r), slice. auto. }
  split.
  { intros reverseProcAt p s0 msg.
    unfold Tcl_AbstractListObjReverse, bind, deref_obj, deref_rep.
    destruct (objs s0 !! p) as [o|]; [|discriminate].
    destruct (reps s0 !! AbstractListGetInternalRep o) as [r|]; [|discriminate].
    destruct (reverseProcAt (reverseProc r)) as [reverse|] eqn:Es;
      [|discriminate].
    intros Hp. exists (reverseProc r), reverse. auto. }
  repeat split; intros.
  - unfold Tcl_AbstractListObjLength. quiet_steps.
  - apply quiet_Tcl_AbstractListObjGetElements.
  - apply quiet_Tcl_AbstractListSetProc.
  - apply quiet_UpdateStringOfAbstractList.
  - apply quiet_FreeAbstractListInternalRep.
  - apply quiet_DupAbstractListInternalRep.
  - apply quiet_Tcl_NewAbstractListObj.
Qed.

Lemma to_int_id (z : Z) : INT_MIN <= z <= INT_MAX -> to_int z = z.
Proof.
  unfold INT_MIN, INT_MAX, to_int. intros Hz.
  rewrite Z.mod_small by lia. lia.
Qed.

Lemma to_size_t_id (z : Z) : 0 <= z <= SIZE_MAX -> to_size_t z = z.
Proof. unfold SIZE_MAX, to_size_t. intros Hz. apply Z.mod_small. lia. Qed.

Lemma index_strings_length f n i strs :
  index_strings f n i = Some strs -> length strs = n.
Proof.
  revert i strs. induction n as [|n IH]; intros i strs; simpl.
  - intros [= <-]. reflexivity.
  - destruct (f i) as [str|]; [|discriminate].
    destruct (index_strings f n (i + 1)) as [rest|] eqn:E; [|discriminate].
    intros [= <-]. simpl. f_equal. eapply IH, E.
Qed.

Lemma index_strings_lookup f n i strs (k : nat) :
  index_strings f n i = Some strs -> (k < n)%nat ->
  exists str, strs !! k = Some str /\ f (i + Z.of_nat k) = Some str.
Proof.
  revert i strs k. induction n as [|n IH]; intros i strs k; simpl.
  - lia.
  - destruct (f i) as [str|] eqn:Ef; [|discriminate].
    destruct (index_strings f n (i + 1)) as [rest|] eqn:E; [|discriminate].
    intros [= <-] Hk. destruct k as [|k].
    + exists str. split; [reflexivity|]. rewrite Z.add_0_r. exact Ef.
    + destruct (IH _ _ k E ltac:(lia)) as (str' & Hl & Hf).
      exists str'. split; [exact Hl|]. rewrite <- Hf. f_equal. lia.
Qed.

Lemma to_wide_id (z : Z) : - 2 ^ 63 <= z < 2 ^ 63 -> to_wide z = z.
Proof. unfold to_wide. intros Hz. rewrite Z.mod_small by lia. lia. Qed.

Lemma measure_from_exact (strs : list (list ascii)) (acc : Z) :
  0 <= acc ->
  acc + Z.of_nat (length (render strs)) <= INT_MAX ->
  measure_from acc strs = acc + Z.of_nat (length (render strs)).
Proof.
  revert acc. induction strs as [|str strs IH]; intros acc Hacc Hmax; simpl.
  - lia.
  - simpl in Hmax. rewrite length_app in Hmax. simpl length in Hmax.
    unfold INT_MAX in *.
    rewrite to_int_id by (unfold INT_MIN, INT_MAX; lia).
    rewrite to_wide_id by lia.
    rewrite IH by lia.
    rewrite length_app. simpl length. lia.
Qed.

Lemma render_joined (strs : list (list ascii)) :
  strs <> [] -> render strs = joined strs ++ [SPACE].
Proof.
  induction strs as [|str strs IH]; [congruence|]. intros _.
  destruct strs as [|str' strs].
  - reflexivity.
  - change (render (str :: str' :: strs))
      with (str ++ SPACE :: render (str' :: strs)).
    rewrite IH by discriminate.
    change (joined (str :: str' :: strs))
      with (str ++ SPACE :: joined (str' :: strs)).
    rewrite <- app_assoc. reflexivity.
Qed.

Lemma joined_nil (strs : list (list ascii)) :
  strs <> [] -> (joined strs = [] <-> strs = [[]]).
Proof.
  destruct strs as [|str [|str' strs]]; [congruence| |]; intros _.
  - simpl. split; [intros ->; reflexivity|intros [= ->]; reflexivity].
  - change (joined (str :: str' :: strs))
      with (str ++ SPACE :: joined (str' :: strs)).
    split; [|discriminate]. intros E. destruct str; discriminate E.
Qed.

Lemma render_length (strs : list (list ascii)) :
  Z.of_nat (length (render strs)) = sum_lengths strs.
Proof.
  induction strs as [|str strs IH]; simpl; [reflexivity|].
  rewrite length_app. simpl length. lia.
Qed.

Section Proofs.

Variable H : Host.

(** C2.  On a value whose tag is not the abstract-list tag, the
    single-element accessor aborts the process, while the bulk accessor
    returns TCL_ERROR and leaves what [objcPtr] and [objvPtr] point to as
    it was; the only effect is the wrong-type diagnostic (message and the
    error code TCL VALUE UNKNOWN) left in the interpreter, when one is
    given. *)
Theorem wrong_type_index_panics_getelements_errors
  (s : State) (objPtr : Z) (o : Tcl_Obj) (index interp objc0 objv0 : Z) :
  objs s !! objPtr = Some o ->
  typePtr o <> Some tclAbstractListType ->
  Tcl_AbstractListObjIndex H objPtr index s
    = Panic "Tcl_AbstractListObjIndex called without and AbstractList Obj."
  /\ (interp = NULL ->
      Tcl_AbstractListObjGetElements H interp objPtr objc0 objv0 s
        = Ok (TCL_ERROR, objc0, objv0) s)
  /\ (forall i, interp <> NULL -> interps s !! interp = Some i ->
      Tcl_AbstractListObjGetElements H interp objPtr objc0 objv0 s
        = Ok (TCL_ERROR, objc0, objv0)
            (with_interps
               (insert interp
                  (mkInterp "value is not an abstract list"
                     ["TCL"; "VALUE"; "UNKNOWN"]%string)) s)).
Proof.
  intros Ho Hty. split; [|split].
  - unfold Tcl_AbstractListObjIndex.
    rewrite (bind_Ok _ _ _ _ _ (deref_obj_Ok _ _ _ Ho)).
    rewrite bool_decide_true by assumption. reflexivity.
  - intros ->. unfold Tcl_AbstractListObjGetElements.
    rewrite (bind_Ok _ _ _ _ _ (deref_obj_Ok _ _ _ Ho)).
    unfold TclHasInternalRep. rewrite bool_decide_false by assumption.
    reflexivity.
  - intros i Hi Hin. unfold Tcl_AbstractListObjGetElements.
    rewrite (bind_Ok _ _ _ _ _ (deref_obj_Ok _ _ _ Ho)).
    unfold TclHasInternalRep. rewrite bool_decide_false by assumption.
    apply Z.eqb_neq in Hi. rewrite Hi. simpl negb. cbv iota.
    unfold bind, Tcl_SetObjResult, Tcl_SetErrorCode. rewrite Hin. simpl.
    rewrite lookup_insert_eq. simpl. unfold with_interps. simpl.
    rewrite insert_insert_eq. reflexivity.
Qed.

(** C9.  [Tcl_AbstractListSetProc] returns TCL_ERROR and changes nothing
    when the value has no abstract-list representation or the slot
    identifier is none of the six kinds; otherwise it returns TCL_OK, the
    requested slot holds the given function and every other slot and field
    of the header is unchanged. *)
Theorem SetProc_installs_exactly_one_slot
  (s : State) (objPtr : Z) (o : Tcl_Obj) (ptype proc : Z) :
  objs s !! objPtr = Some o ->
  ((AbstractListGetInternalRep o = NULL \/ ~ recognized ptype) ->
   Tcl_AbstractListSetProc objPtr ptype proc s = Ok TCL_ERROR s)
  /\ (forall r,
        AbstractListGetInternalRep o <> NULL ->
        reps s !! AbstractListGetInternalRep o = Some r ->
        recognized ptype ->
        exists r',
          Tcl_AbstractListSetProc objPtr ptype proc s
            = Ok TCL_OK
                (with_reps (insert (AbstractListGetInternalRep o) r') s)
          /\ slot ptype r' = proc
          /\ (forall k, k <> ptype -> slot k r' = slot k r)
          /\ version r' = version r /\ repSize r' = repSize r
          /\ typeName r' = typeName r /\ elements r' = elements r
          /\ abstractValue r' = abstractValue r).
Proof.
  intros Ho. split.
  - intros Herr. unfold Tcl_AbstractListSetProc.
    rewrite (bind_Ok _ _ _ _ _ (deref_obj_Ok _ _ _ Ho)).
    destruct (AbstractListGetInternalRep o =? NULL) eqn:En; [reflexivity|].
    destruct Herr as [E | Hk]; [apply Z.eqb_neq in En; contradiction|].
    unfold recognized in Hk.
    repeat match goal with
    | |- context [ptype =? ?c] =>
        destruct (Z.eqb_spec ptype c); [exfalso; apply Hk; tauto|]
    end.
    reflexivity.
  - intros r Hn Hr Hk. unfold Tcl_AbstractListSetProc.
    rewrite (bind_Ok _ _ _ _ _ (deref_obj_Ok _ _ _ Ho)).
    apply Z.eqb_neq in Hn. rewrite Hn.
    destruct Hk as [-> | [-> | [-> | [-> | [-> | ->]]]]]; simpl;
      rewrite (bind_Ok _ _ _ _ _ (update_rep_Ok _ _ _ _ Hr));
      (eexists; split; [reflexivity|]);
      (split; [reflexivity|]);
      (split; [|repeat split]);
      intros k Hne; unfold slot, TCL_ABSL_NEW, TCL_ABSL_DUPREP,
        TCL_ABSL_LENGTH, TCL_ABSL_INDEX, TCL_ABSL_SLICE, TCL_ABSL_REVERSE in *;
      repeat match goal with
      | |- context [k =? ?c] => destruct (Z.eqb_spec k c); try lia
      end; reflexivity.
Qed.

(** C10, amended.  When the length the subtype returns, converted to the
    [int] the accessor keeps it in, is at most 0 -- in particular for every
    n with INT_MIN <= n <= 0, which the conversion leaves unchanged -- the
    bulk accessor returns TCL_OK with [*objvPtr] NULL and [*objcPtr] that
    count, and the heap is untouched: nothing is allocated and no cache is
    installed. *)
Theorem GetElements_nonpositive_length
  (s : State) (objPtr : Z) (o : Tcl_Obj) (r : AbstractList)
  (n interp objc0 objv0 : Z) :
  objs s !! objPtr = Some o ->
  typePtr o = Some tclAbstractListType ->
  reps s !! ptr1 o = Some r ->
  call_lengthProc H (lengthProc r) objPtr s = Ok n s ->
  to_int n <= 0 ->
  Tcl_AbstractListObjGetElements H interp objPtr objc0 objv0 s
    = Ok (TCL_OK, to_int n, NULL) s
  /\ (INT_MIN <= n -> n <= 0 -> to_int n = n).
Proof.
  intros Ho Hty Hr Hlen Hn. split.
  - unfold Tcl_AbstractListObjGetElements.
    rewrite (bind_Ok _ _ _ _ _ (deref_obj_Ok _ _ _ Ho)).
    unfold AbstractListGetInternalRep, TclHasInternalRep.
    rewrite bool_decide_true by assumption.
    rewrite (bind_Ok _ _ _ _ _ (deref_rep_Ok _ _ _ Hr)).
    rewrite (bind_Ok _ _ _ _ _ Hlen).
    destruct (Z.ltb_spec 0 (to_int n)); [lia|reflexivity].
  - intros Hlo Hhi. apply to_int_id. unfold INT_MAX. lia.
Qed.

(** C8, amended.  For every payload size S with header size + S at most
    SIZE_MAX for which the allocator supplies the block, creation
    allocates one block of header size + S bytes, records that size in the
    header, leaves the six operation slots and the cache slot NULL, and
    returns a new handle with reference count zero and no string form. *)
Theorem NewAbstractListObj_creates_empty_header
  (s : State) (interp : Z) (name : string) (S : Z) :
  0 <= S ->
  0 <= sizeof_AbstractList H ->
  sizeof_AbstractList H + S <= SIZE_MAX ->
  sizeof_AbstractList H + S <= avail s ->
  exists objPtr repPtr s',
    Tcl_NewAbstractListObj H interp name S s = Ok objPtr s'
    /\ objPtr <> NULL /\ repPtr <> NULL
    /\ objs s !! objPtr = None
    /\ reps s !! repPtr = None
    /\ objs s' =
         <[objPtr := mkObj 0 None 0 (Some tclAbstractListType) repPtr
                       (repPtr + offsetof_abstractValue H)]> (objs s)
    /\ reps s' =
         <[repPtr := mkAbstractList TCL_ABSTRACTLIST_VERSION_1
                       (sizeof_AbstractList H + S) name
                       NULL NULL NULL NULL NULL NULL NULL
                       (fresh_payload H (sizeof_AbstractList H + S))]> (reps s)
    /\ arrays s' = arrays s
    /\ interps s' = interps s
    /\ avail s' = avail s - (sizeof_AbstractList H + S).
Proof.
  intros HS Hsz Hmax Hav.
  unfold Tcl_NewAbstractListObj.
  rewrite to_size_t_id by lia.
  set (size := sizeof_AbstractList H + S).
  unfold bind at 1. unfold TclNewObj at 1.
  set (p := fresh_addr s).
  set (s1 := with_objs _ s).
  destruct (fresh_addr_spec s) as (Hp0 & Hpo & _).
  destruct (fresh_addr_spec s1) as (Hq0 & _ & Hqr & _).
  set (q := fresh_addr s1) in *.
  assert (Ealloc : ckalloc size s1 = Ok q (with_avail (avail s1 - size) s1)).
  { unfold ckalloc. destruct (Z.leb_spec size (avail s1)) as [_|Hlt]; [reflexivity|].
    simpl in Hlt. lia. }
  rewrite (bind_Ok _ _ _ _ _ Ealloc).
  unfold store_rep. apply Z.eqb_neq in Hq0 as Hq0'. rewrite Hq0'.
  pose proof (header_layout H) as Hlay.
  destruct (Z.leb_spec (offsetof_abstractValue H) size); [|lia].
  unfold bind at 1. unfold modify at 1.
  unfold Tcl_StoreInternalRep.
  erewrite bind_Ok; cycle 1.
  { apply update_obj_Ok. simpl. apply lookup_insert_eq. }
  unfold Tcl_InvalidateStringRep.
  erewrite bind_Ok; cycle 1.
  { apply update_obj_Ok. simpl. apply lookup_insert_eq. }
  exists p, q. eexists. split; [reflexivity|].
  simpl. rewrite !insert_insert_eq.
  repeat split; try assumption; try reflexivity.
Qed.

Lemma call_indexProc_Some (s : State) (fn objPtr i : Z) (o : Tcl_Obj)
  (r : AbstractList) f (str : list ascii) :
  objs s !! objPtr = Some o ->
  reps s !! ptr1 o = Some r ->
  indexProcAt H fn = Some f ->
  f (abstractValue r) i = Some str ->
  call_indexProc H fn objPtr i s
    = Ok (fresh_addr s)
        (with_objs (insert (fresh_addr s) (elem_value str 0)) s).
Proof.
  intros Ho Hr Hf Hstr. unfold call_indexProc. rewrite Hf.
  rewrite (bind_Ok _ _ _ _ _ (deref_obj_Ok _ _ _ Ho)).
  rewrite (bind_Ok _ _ _ _ _ (deref_rep_Ok _ _ _ Hr)).
  rewrite Hstr. unfold bind at 1, TclNewObj at 1.
  erewrite bind_Ok; cycle 1.
  { apply update_obj_Ok. simpl. apply lookup_insert_eq. }
  unfold ret. f_equal. unfold with_objs. simpl. rewrite insert_insert_eq.
  reflexivity.
Qed.

Lemma call_indexProc_inv (s s' : State) (fn objPtr i e : Z) :
  call_indexProc H fn objPtr i s = Ok e s' ->
  (e = NULL /\ s' = s)
  \/ (e = fresh_addr s /\ exists v, s' = with_objs (insert e v) s).
Proof.
  unfold call_indexProc. destruct (indexProcAt H fn) as [f|]; [|discriminate].
  unfold bind at 1, deref_obj at 1.
  destruct (objs s !! objPtr) as [o|]; [|discriminate].
  unfold bind at 1, deref_rep at 1.
  destruct (reps s !! ptr1 o) as [r|]; [|discriminate].
  destruct (f (abstractValue r) i) as [str|].
  - unfold bind at 1, TclNewObj at 1.
    erewrite bind_Ok; cycle 1.
    { apply update_obj_Ok. simpl. apply lookup_insert_eq. }
    intros [= <- <-]. right. split; [reflexivity|]. eexists.
    unfold with_objs. simpl. rewrite insert_insert_eq. reflexivity.
  - intros [= <- <-]. left. split; reflexivity.
Qed.

Lemma Tcl_IncrRefCount_Ok (s : State) (p : Z) (o : Tcl_Obj) :
  objs s !! p = Some o ->
  Tcl_IncrRefCount p s
    = Ok tt (with_objs (insert p (set_refCount (refCount o + 1) o)) s).
Proof.
  intros Hp. unfold Tcl_IncrRefCount.
  rewrite (bind_Ok _ _ _ _ _ (deref_obj_Ok _ _ _ Hp)). reflexivity.
Qed.

Lemma store_slot_Ok (s : State) (a i v : Z) (done rest : list Z) (x : Z) :
  arrays s !! a = Some (done ++ x :: rest) ->
  i = Z.of_nat (length done) ->
  store_slot a i v s
    = Ok tt (with_arrays (insert a (done ++ v :: rest)) s).
Proof.
  intros Ha ->. unfold store_slot. rewrite Ha.
  rewrite length_app. simpl length.
  destruct (Z.leb_spec 0 (Z.of_nat (length done))); [|lia].
  destruct (Z.ltb_spec (Z.of_nat (length done))
              (Z.of_nat (length done + S (length rest)))); [|lia].
  simpl. rewrite Nat2Z.id.
  rewrite insert_app_r_alt by lia. rewrite Nat.sub_diag. reflexivity.
Qed.

Lemma fill_loop (objPtr objv : Z) (o : Tcl_Obj) (r : AbstractList) f :
  indexProcAt H (indexProc r) = Some f ->
  forall (strs : list (list ascii)) (i : Z) (s : State) (done rest : list Z),
    objs s !! objPtr = Some o ->
    reps s !! ptr1 o = Some r ->
    index_strings (f (abstractValue r)) (length strs) i = Some strs ->
    arrays s !! objv = Some (done ++ rest) ->
    i = Z.of_nat (length done) ->
    length rest = length strs ->
    exists s' new,
      for_loop (length strs) i
        (fun i =>
           r <- deref_rep (ptr1 o) ;;
           e <- call_indexProc H (indexProc r) objPtr i ;;
           store_slot objv i e ;;;
           Tcl_IncrRefCount e) s = Ok tt s'
      /\ (forall p v, objs s !! p = Some v -> objs s' !! p = Some v)
      /\ reps s' = reps s /\ interps s' = interps s /\ avail s' = avail s
      /\ arrays s' = <[objv := done ++ new]> (arrays s)
      /\ Forall2 (fun e str => objs s' !! e = Some (elem_value str 1))
           new strs.
Proof.
  intros Hf strs. induction strs as [|str strs IH];
    intros i s done rest Ho Hr Hidx Harr Hi Hlen.
  - destruct rest; [|discriminate]. exists s, []. simpl.
    split; [reflexivity|]. split; [auto|]. repeat split.
    + symmetry. apply insert_id. exact Harr.
    + constructor.
  - destruct rest as [|x rest]; [discriminate|].
    simpl in Hidx.
    destruct (f (abstractValue r) i) as [str0|] eqn:Ef; [|discriminate].
    destruct (index_strings _ _ (i + 1)) as [strs0|] eqn:Erest; [|discriminate].
    injection Hidx as -> ->.
    simpl length. simpl for_loop.
    destruct (fresh_addr_spec s) as (He0 & Heo & _).
    set (e := fresh_addr s) in *.
    set (s1 := with_objs (insert e (elem_value str 0)) s).
    set (s2 := with_arrays (insert objv (done ++ e :: rest)) s1).
    set (s3 := with_objs (insert e (set_refCount (refCount (elem_value str 0) + 1)
                                      (elem_value str 0))) s2).
    assert (Ebody :
      (r <- deref_rep (ptr1 o) ;;
       e <- call_indexProc H (indexProc r) objPtr i ;;
       store_slot objv i e ;;; Tcl_IncrRefCount e) s = Ok tt s3).
    { rewrite (bind_Ok _ _ _ _ _ (deref_rep_Ok _ _ _ Hr)).
      rewrite (bind_Ok _ _ _ _ _ (call_indexProc_Some _ _ _ _ _ _ _ _ Ho Hr Hf Ef)).
      fold e. fold s1.
      rewrite (bind_Ok _ _ _ _ _ (store_slot_Ok s1 objv i e done rest x Harr Hi)).
      fold s2. apply Tcl_IncrRefCount_Ok. simpl. apply lookup_insert_eq. }
    rewrite (bind_Ok _ _ _ _ _ Ebody).
    assert (Hne : e <> objPtr) by (intros ->; congruence).
    destruct (IH (i + 1) s3 (done ++ [e]) rest) as (s' & new & Hrun & Hkeep & Hreps & Hint & Hav & Harrs & Hall).
    + simpl. rewrite insert_insert_eq. rewrite lookup_insert_ne by exact Hne. exact Ho.
    + exact Hr.
    + exact Erest.
    + simpl. rewrite lookup_insert_eq. rewrite <- app_assoc. reflexivity.
    + rewrite length_app. simpl. lia.
    + simpl in Hlen. lia.
    + exists s', (e :: new). split; [exact Hrun|].
      split.
      { intros p v Hp. apply Hkeep. simpl. rewrite insert_insert_eq.
        rewrite lookup_insert_ne; [exact Hp|]. intros ->. congruence. }
      split; [exact Hreps|]. split; [exact Hint|]. split; [exact Hav|].
      split.
      { rewrite Harrs. simpl. rewrite insert_insert_eq.
        rewrite <- app_assoc. reflexivity. }
      constructor; [|exact Hall].
      apply Hkeep. simpl. rewrite insert_insert_eq. apply lookup_insert_eq.
Qed.

Lemma ObjIndex_value (s : State) (objPtr i : Z) (o : Tcl_Obj)
  (r : AbstractList) f (str : list ascii) :
  objs s !! objPtr = Some o ->
  typePtr o = Some tclAbstractListType ->
  reps s !! ptr1 o = Some r ->
  indexProcAt H (indexProc r) = Some f ->
  f (abstractValue r) i = Some str ->
  exists e s',
    Tcl_AbstractListObjIndex H objPtr i s = Ok e s'
    /\ objs s !! e = None
    /\ objs s' !! e = Some (elem_value str 0).
Proof.
  intros Ho Hty Hr Hf Hstr.
  destruct (fresh_addr_spec s) as (_ & Hfresh & _).
  exists (fresh_addr s). eexists. split; [|split; [exact Hfresh|]].
  - unfold Tcl_AbstractListObjIndex.
    rewrite (bind_Ok _ _ _ _ _ (deref_obj_Ok _ _ _ Ho)).
    rewrite bool_decide_false by (intros Hn; exact (Hn Hty)).
    rewrite (bind_Ok _ _ _ _ _ (eq_refl : ret tt s = Ok tt s)).
    rewrite (bind_Ok _ _ _ _ _ (deref_rep_Ok _ _ _ Hr)).
    rewrite (bind_Ok _ _ _ _ _ (call_indexProc_Some _ _ _ _ _ _ _ _ Ho Hr Hf Hstr)).
    reflexivity.
  - simpl. apply lookup_insert_eq.
Qed.

Lemma cache_holds_lookup (s : State) (a : Z) (strs : list (list ascii))
  (f : Z -> option (list ascii)) (n : nat) :
  cache_holds s a strs ->
  index_strings f n 0 = Some strs ->
  exists arr,
    arrays s !! a = Some arr /\ length arr = n
    /\ forall i, 0 <= i < Z.of_nat n ->
         exists e str rc,
           arr !! Z.to_nat i = Some e /\ f i = Some str
           /\ 0 < rc /\ objs s !! e = Some (elem_value str rc).
Proof.
  intros (arr & Ha & Hall) Hidx. exists arr. split; [exact Ha|].
  pose proof (index_strings_length _ _ _ _ Hidx) as Hlen.
  pose proof (Forall2_length _ _ _ Hall) as Hlen2.
  split; [lia|]. intros i Hi.
  destruct (index_strings_lookup _ _ _ _ (Z.to_nat i) Hidx ltac:(lia))
    as (str & Hs & Hfi).
  destruct (Forall2_lookup_r _ _ _ _ _ Hall Hs) as (e & He & rc & Hrc & Hobj).
  exists e, str, rc. rewrite Z.add_0_l, Z2Nat.id in Hfi by lia. auto.
Qed.

(** C3, amended.  For an abstract list whose length N is between 0 and
    INT_MAX, whose index operation yields a value at every position below
    N, and whose cache is either absent, with the array obtainable from the
    allocator, or present and holding the elements: the bulk accessor
    succeeds with a count of exactly N, and entry i of the array is a live
    value with the string that the index operation produces at position
    i. *)
Theorem GetElements_returns_every_element
  (s : State) (objPtr : Z) (o : Tcl_Obj) (r : AbstractList) (n : Z)
  f (strs : list (list ascii)) (interp objc0 objv0 : Z) :
  objs s !! objPtr = Some o ->
  typePtr o = Some tclAbstractListType ->
  reps s !! ptr1 o = Some r ->
  call_lengthProc H (lengthProc r) objPtr s = Ok n s ->
  0 <= n <= INT_MAX ->
  indexProcAt H (indexProc r) = Some f ->
  index_strings (f (abstractValue r)) (Z.to_nat n) 0 = Some strs ->
  (elements r <> NULL -> cache_holds s (elements r) strs) ->
  (elements r = NULL -> 0 < n -> to_size_t (sizeof_ptr H * n) <= avail s) ->
  exists objv s',
    Tcl_AbstractListObjGetElements H interp objPtr objc0 objv0 s
      = Ok (TCL_OK, n, objv) s'
    /\ (n = 0 -> objv = NULL /\ s' = s)
    /\ (0 < n ->
        exists arr,
          arrays s' !! objv = Some arr /\ Z.of_nat (length arr) = n
          /\ forall i, 0 <= i < n ->
               exists e str rc,
                 arr !! Z.to_nat i = Some e
                 /\ f (abstractValue r) i = Some str
                 /\ 0 < rc /\ objs s' !! e = Some (elem_value str rc)
                 /\ exists e' s'',
                      Tcl_AbstractListObjIndex H objPtr i s' = Ok e' s''
                      /\ objs s'' !! e' = Some (elem_value str 0)).
Proof.
  intros Ho Hty Hr Hlen Hn Hf Hidx Hcache Hmem.
  assert (Eint : to_int n = n) by (apply to_int_id; unfold INT_MIN; lia).
  assert (Hrun : forall s1 objv,
    objs s1 !! objPtr = Some o ->
    reps s1 !! ptr1 o = Some (set_elements objv r) ->
    0 < n -> cache_holds s1 objv strs ->
    exists arr,
      arrays s1 !! objv = Some arr /\ Z.of_nat (length arr) = n
      /\ forall i, 0 <= i < n ->
           exists e str rc,
             arr !! Z.to_nat i = Some e
             /\ f (abstractValue r) i = Some str
             /\ 0 < rc /\ objs s1 !! e = Some (elem_value str rc)
             /\ exists e' s'',
                  Tcl_AbstractListObjIndex H objPtr i s1 = Ok e' s''
                  /\ objs s'' !! e' = Some (elem_value str 0)).
  { intros s1 objv Ho1 Hr1 Hpos Hc.
    destruct (cache_holds_lookup _ _ _ _ _ Hc Hidx) as (arr & Ha & Hl & Hi).
    exists arr. split; [exact Ha|]. split; [lia|].
    intros i Hir. destruct (Hi i ltac:(lia)) as (e & str & rc & H1 & H2 & H3 & H4).
    exists e, str, rc. repeat (split; [assumption|]).
    destruct (ObjIndex_value s1 objPtr i o (set_elements objv r) f str Ho1 Hty Hr1 Hf H2)
      as (e' & s'' & Hrun & _ & Hv).
    exists e', s''. split; assumption. }
  unfold Tcl_AbstractListObjGetElements.
  rewrite (bind_Ok _ _ _ _ _ (deref_obj_Ok _ _ _ Ho)).
  unfold AbstractListGetInternalRep, TclHasInternalRep.
  rewrite bool_decide_true by assumption.
  rewrite (bind_Ok _ _ _ _ _ (deref_rep_Ok _ _ _ Hr)).
  rewrite (bind_Ok _ _ _ _ _ Hlen). rewrite Eint.
  destruct (Z.ltb_spec 0 n) as [Hpos|Hz].
  2:{ exists NULL, s. split; [reflexivity|]. split; [auto|]. lia. }
  destruct (Z.eqb_spec (elements r) NULL) as [Enull|Enn]; simpl (negb _); cbv iota.
  2:{ exists (elements r), s. split; [reflexivity|]. split; [lia|].
      intros _. apply Hrun; auto.
      replace (set_elements (elements r) r) with r by (destruct r; reflexivity).
      exact Hr. }
  specialize (Hmem Enull Hpos).
  destruct (fresh_addr_spec s) as (Hv0 & Hvo & Hvr & Hva & _).
  set (objv := fresh_addr s) in *.
  assert (Ealloc : ckalloc (to_size_t (sizeof_ptr H * n)) s
                   = Ok objv (with_avail (avail s - to_size_t (sizeof_ptr H * n)) s)).
  { unfold ckalloc. destruct (Z.leb_spec (to_size_t (sizeof_ptr H * n)) (avail s)); [reflexivity|lia]. }
  rewrite (bind_Ok _ _ _ _ _ Ealloc).
  apply Z.eqb_neq in Hv0 as Hv0'. rewrite Hv0'.
  unfold as_array. rewrite Hv0'. unfold bind at 1, modify at 1.
  erewrite bind_Ok; cycle 1.
  { apply update_rep_Ok. simpl. exact Hr. }
  match goal with |- context [bind (for_loop _ _ _) _ ?st] => set (s3 := st) end.
  destruct (fill_loop objPtr objv o (set_elements objv r) f Hf strs 0 s3 []
              (replicate (Z.to_nat n) (uninit_ptr H)))
    as (s' & new & Hloop & Hkeep & Hreps & Hint & Hav & Harrs & Hall).
  { exact Ho. }
  { simpl. apply lookup_insert_eq. }
  { rewrite (index_strings_length _ _ _ _ Hidx). exact Hidx. }
  { simpl. apply lookup_insert_eq. }
  { reflexivity. }
  { rewrite length_replicate. symmetry. eapply index_strings_length, Hidx. }
  rewrite (index_strings_length _ _ _ _ Hidx) in Hloop.
  rewrite (bind_Ok _ _ _ _ _ Hloop).
  exists objv, s'. split; [reflexivity|]. split; [lia|].
  intros _. apply Hrun.
  - apply Hkeep. exact Ho.
  - rewrite Hreps. simpl. apply lookup_insert_eq.
  - exact Hpos.
  - exists new. split.
    + rewrite Harrs. apply lookup_insert_eq.
    + eapply Forall2_impl; [exact Hall|]. intros e str He. exists 1. split; [lia|exact He].
Qed.

(** ** Inversion of successful runs *)

Lemma bind_inv {A B} (m : M A) (k : A -> M B) (s s' : State) (b : B) :
  bind m k s = Ok b s' ->
  exists a s1, m s = Ok a s1 /\ k a s1 = Ok b s'.
Proof.
  unfold bind. destruct (m s) as [a s1| |]; try discriminate.
  intros Hk. exists a, s1. split; [reflexivity|exact Hk].
Qed.

Lemma deref_obj_inv (p : Z) (s s' : State) (o : Tcl_Obj) :
  deref_obj p s = Ok o s' -> s' = s /\ objs s !! p = Some o.
Proof.
  unfold deref_obj. destruct (objs s !! p); [|discriminate].
  intros [= <- <-]. split; reflexivity.
Qed.

Lemma deref_rep_inv (p : Z) (s s' : State) (r : AbstractList) :
  deref_rep p s = Ok r s' -> s' = s /\ reps s !! p = Some r.
Proof.
  unfold deref_rep. destruct (reps s !! p); [|discriminate].
  intros [= <- <-]. split; reflexivity.
Qed.

Lemma store_slot_inv (a i v : Z) (s s' : State) :
  store_slot a i v s = Ok tt s' ->
  exists l, s' = with_arrays (insert a l) s.
Proof.
  unfold store_slot. destruct (arrays s !! a) as [l|]; [|discriminate].
  destruct ((0 <=? i) && (i <? Z.of_nat (length l))); [|discriminate].
  intros [= <-]. eexists. reflexivity.
Qed.

Lemma Tcl_IncrRefCount_inv (e : Z) (s s' : State) :
  Tcl_IncrRefCount e s = Ok tt s' ->
  exists v v', objs s !! e = Some v /\ s' = with_objs (insert e v') s.
Proof.
  unfold Tcl_IncrRefCount. intros Hb.
  apply bind_inv in Hb as (o & s1 & Hd & Hm).
  apply deref_obj_inv in Hd as [-> Ho].
  injection Hm as <-. eauto.
Qed.

Lemma call_lengthProc_inv (fn p n : Z) (s s' : State) :
  call_lengthProc H fn p s = Ok n s' ->
  s' = s
  /\ exists f o r,
       lengthProcAt H fn = Some f /\ objs s !! p = Some o
       /\ reps s !! ptr1 o = Some r /\ n = to_wide (f (abstractValue r)).
Proof.
  unfold call_lengthProc. destruct (lengthProcAt H fn) as [f|]; [|discriminate].
  intros Hb.
  apply bind_inv in Hb as (o & s1 & Hd & Hb).
  apply deref_obj_inv in Hd as [-> Ho].
  apply bind_inv in Hb as (r & s1 & Hd & Hb).
  apply deref_rep_inv in Hd as [-> Hr].
  injection Hb as <- <-. split; [reflexivity|]. exists f, o, r. auto.
Qed.

Lemma call_lengthProc_Ok (fn p : Z) (s : State) f (o : Tcl_Obj)
  (r : AbstractList) :
  lengthProcAt H fn = Some f ->
  objs s !! p = Some o ->
  reps s !! ptr1 o = Some r ->
  call_lengthProc H fn p s = Ok (to_wide (f (abstractValue r))) s.
Proof.
  intros Hf Ho Hr. unfold call_lengthProc. rewrite Hf.
  rewrite (bind_Ok _ _ _ _ _ (deref_obj_Ok _ _ _ Ho)).
  rewrite (bind_Ok _ _ _ _ _ (deref_rep_Ok _ _ _ Hr)). reflexivity.
Qed.

(** Whatever the index operation returns, a successful run of the
    materialization loop leaves the list value and every header as they
    were. *)
Lemma fill_loop_frame (objPtr objv repPtr : Z) (o : Tcl_Obj) :
  objPtr <> NULL ->
  forall (n : nat) (i : Z) (s s' : State),
    objs s !! objPtr = Some o ->
    for_loop n i
      (fun i =>
         r <- deref_rep repPtr ;;
         e <- call_indexProc H (indexProc r) objPtr i ;;
         store_slot objv i e ;;;
         Tcl_IncrRefCount e) s = Ok tt s' ->
    objs s' !! objPtr = Some o /\ reps s' = reps s.
Proof.
  intros Hnn n. induction n as [|n IH]; intros i s s' Ho; simpl.
  - intros [= <-]. split; [exact Ho|reflexivity].
  - intros Hb.
    apply bind_inv in Hb as ([] & s4 & Hbody & Hrest).
    apply bind_inv in Hbody as (r & s1 & Hd & Hbody).
    apply deref_rep_inv in Hd as [-> _].
    apply bind_inv in Hbody as (e & s1 & Hidx & Hbody).
    apply bind_inv in Hbody as ([] & s2 & Hst & Hinc).
    apply store_slot_inv in Hst as (l & ->).
    apply Tcl_IncrRefCount_inv in Hinc as (v & v' & Hv & ->).
    simpl in Hv.
    assert (Hs4 : objs (with_objs (insert e v') (with_arrays (insert objv l) s1))
                    !! objPtr = Some o
                  /\ reps (with_objs (insert e v') (with_arrays (insert objv l) s1))
                     = reps s).
    { apply call_indexProc_inv in Hidx as [[-> ->] | [He (w & ->)]]; simpl.
      - rewrite lookup_insert_ne by (intros E; apply Hnn; symmetry; exact E).
        split; [exact Ho|reflexivity].
      - rewrite insert_insert_eq.
        rewrite lookup_insert_ne; [split; [exact Ho|reflexivity]|].
        intros ->. destruct (fresh_addr_spec s) as (_ & Hfo & _).
        rewrite He in Ho. congruence. }
    destruct Hs4 as [Ho4 Hr4].
    destruct (IH _ _ _ Ho4 Hrest) as [Ho' Hr']. split; [exact Ho'|].
    rewrite Hr'. exact Hr4.
Qed.

(** C6.  When the bulk accessor finds a cache it returns it with the heap
    untouched: the index operation is not called and the cache is not
    written.  A second call after a successful first call returns the same
    count and the same array and changes nothing. *)
Theorem GetElements_cache_is_populated_once
  (s s1 : State) (objPtr : Z) (o : Tcl_Obj) (r : AbstractList)
  (interp objc0 objv0 objc1 objv1 objc2 objv2 : Z) :
  objPtr <> NULL ->
  objs s !! objPtr = Some o ->
  typePtr o = Some tclAbstractListType ->
  reps s !! ptr1 o = Some r ->
  (forall n,
     elements r <> NULL ->
     call_lengthProc H (lengthProc r) objPtr s = Ok n s ->
     0 < to_int n ->
     Tcl_AbstractListObjGetElements H interp objPtr objc0 objv0 s
       = Ok (TCL_OK, to_int n, elements r) s)
  /\ (Tcl_AbstractListObjGetElements H interp objPtr objc0 objv0 s
        = Ok (TCL_OK, objc1, objv1) s1 ->
      Tcl_AbstractListObjGetElements H interp objPtr objc2 objv2 s1
        = Ok (TCL_OK, objc1, objv1) s1).
Proof.
  intros Hnn Ho Hty Hr.
  assert (Hcached : forall s0 r0 n c v,
    objs s0 !! objPtr = Some o ->
    reps s0 !! ptr1 o = Some r0 ->
    elements r0 <> NULL ->
    call_lengthProc H (lengthProc r0) objPtr s0 = Ok n s0 ->
    0 < to_int n ->
    Tcl_AbstractListObjGetElements H interp objPtr c v s0
      = Ok (TCL_OK, to_int n, elements r0) s0).
  { intros s0 r0 n c v Ho0 Hr0 He Hlen Hpos.
    unfold Tcl_AbstractListObjGetElements.
    rewrite (bind_Ok _ _ _ _ _ (deref_obj_Ok _ _ _ Ho0)).
    unfold AbstractListGetInternalRep, TclHasInternalRep.
    rewrite bool_decide_true by assumption.
    rewrite (bind_Ok _ _ _ _ _ (deref_rep_Ok _ _ _ Hr0)).
    rewrite (bind_Ok _ _ _ _ _ Hlen).
    destruct (Z.ltb_spec 0 (to_int n)); [|lia].
    destruct (Z.eqb_spec (elements r0) NULL); [contradiction|]. reflexivity. }
  split.
  { intros n He Hlen Hpos. apply Hcached; assumption. }
  unfold Tcl_AbstractListObjGetElements at 1.
  rewrite (bind_Ok _ _ _ _ _ (deref_obj_Ok _ _ _ Ho)).
  unfold AbstractListGetInternalRep, TclHasInternalRep.
  rewrite bool_decide_true by assumption.
  rewrite (bind_Ok _ _ _ _ _ (deref_rep_Ok _ _ _ Hr)).
  intros Hb. apply bind_inv in Hb as (n & s' & Hlen & Hb).
  destruct (call_lengthProc_inv _ _ _ _ _ Hlen) as (-> & f & o' & r' & Hf & Ho' & Hr' & Hn).
  assert (o' = o) by congruence. subst o'.
  assert (r' = r) by congruence. subst r'.
  destruct (Z.ltb_spec 0 (to_int n)) as [Hpos|Hle].
  2:{ injection Hb as <- <- <-.
      unfold Tcl_AbstractListObjGetElements.
      rewrite (bind_Ok _ _ _ _ _ (deref_obj_Ok _ _ _ Ho)).
      unfold AbstractListGetInternalRep, TclHasInternalRep.
      rewrite bool_decide_true by assumption.
      rewrite (bind_Ok _ _ _ _ _ (deref_rep_Ok _ _ _ Hr)).
      rewrite (bind_Ok _ _ _ _ _ Hlen).
      destruct (Z.ltb_spec 0 (to_int n)); [lia|reflexivity]. }
  destruct (Z.eqb_spec (elements r) NULL) as [Enull|Enn]; simpl (negb _) in Hb;
    cbv iota in Hb.
  2:{ injection Hb as <- <- <-. apply Hcached; assumption. }
  apply bind_inv in Hb as (objv & sa & Halloc & Hb).
  unfold ckalloc in Halloc.
  destruct (to_size_t (sizeof_ptr H * to_int n) <=? avail s).
  2:{ injection Halloc as <- <-. simpl in Hb.
      apply bind_inv in Hb as (u & sb & _ & Hb). discriminate Hb. }
  injection Halloc as <- <-.
  destruct (fresh_addr_spec s) as (Hv0 & _).
  set (objv := fresh_addr s) in *.
  apply Z.eqb_neq in Hv0 as Hv0'. rewrite Hv0' in Hb.
  unfold as_array in Hb. rewrite Hv0' in Hb.
  unfold bind at 1, modify at 1 in Hb.
  erewrite bind_Ok in Hb; cycle 1.
  { apply update_rep_Ok. simpl. exact Hr. }
  apply bind_inv in Hb as ([] & s2 & Hloop & Hret).
  injection Hret as <- <- <-.
  pose proof (fun Hx => fill_loop_frame objPtr objv (ptr1 o) o Hnn _ _ _ _
                          Hx Hloop) as Hframe.
  destruct (Hframe Ho) as [Ho2 Hr2].
  simpl in Hr2.
  assert (Hrep2 : reps s2 !! ptr1 o = Some (set_elements objv r)).
  { rewrite Hr2. apply lookup_insert_eq. }
  apply (Hcached s2 (set_elements objv r) n); try assumption.
  rewrite Hn.
  apply (call_lengthProc_Ok _ _ _ f o (set_elements objv r)); assumption.
Qed.

(** ** The string projector *)

Lemma state_eta (s : State) :
  mkState (objs s) (reps s) (arrays s) (interps s) (avail s) = s.
Proof. destruct s. reflexivity. Qed.

Lemma Tcl_GetStringFromObj_elem (s : State) (e : Z) (str : list ascii)
  (rc : Z) :
  objs s !! e = Some (elem_value str rc) ->
  Tcl_GetStringFromObj e s = Ok (str ++ [NUL], Z.of_nat (length str)) s.
Proof.
  intros He. unfold Tcl_GetStringFromObj.
  rewrite (bind_Ok _ _ _ _ _ (deref_obj_Ok _ _ _ He)). reflexivity.
Qed.

Lemma Tcl_DecrRefCount_last (s : State) (e : Z) (v : Tcl_Obj) :
  objs s !! e = Some v -> refCount v <= 1 ->
  Tcl_DecrRefCount e s = Ok tt (with_objs (delete e) s).
Proof.
  intros He Hrc. unfold Tcl_DecrRefCount.
  rewrite (bind_Ok _ _ _ _ _ (deref_obj_Ok _ _ _ He)).
  destruct (Z.leb_spec (refCount v) 1); [reflexivity|lia].
Qed.

Lemma measure_loop (objPtr : Z) (o : Tcl_Obj) (r : AbstractList) f :
  indexProcAt H (indexProc r) = Some f ->
  forall (strs : list (list ascii)) (i acc : Z) (s : State),
    objs s !! objPtr = Some o ->
    reps s !! ptr1 o = Some r ->
    index_strings (f (abstractValue r)) (length strs) i = Some strs ->
    for_fold (length strs) i acc
      (fun i length_ =>
         r <- deref_rep (ptr1 o) ;;
         eleObj <- call_indexProc H (indexProc r) objPtr i ;;
         sl <- Tcl_GetStringFromObj eleObj ;;
         let slen := snd sl in
         Tcl_DecrRefCount eleObj ;;;
         ret (to_wide (length_ + to_int (slen + 1)))) s
    = Ok (measure_from acc strs) s.
Proof.
  intros Hf strs. induction strs as [|str strs IH]; intros i acc s Ho Hr Hidx.
  - reflexivity.
  - simpl in Hidx.
    destruct (f (abstractValue r) i) as [str0|] eqn:Ef; [|discriminate].
    destruct (index_strings _ _ (i + 1)) as [strs0|] eqn:Erest; [|discriminate].
    injection Hidx as -> ->.
    simpl length. simpl for_fold.
    destruct (fresh_addr_spec s) as (_ & Heo & _).
    set (e := fresh_addr s) in *.
    set (s1 := with_objs (insert e (elem_value str 0)) s).
    assert (He1 : objs s1 !! e = Some (elem_value str 0))
      by (simpl; apply lookup_insert_eq).
    assert (Ebody :
      (r <- deref_rep (ptr1 o) ;;
       eleObj <- call_indexProc H (indexProc r) objPtr i ;;
       sl <- Tcl_GetStringFromObj eleObj ;;
       let slen := snd sl in
       Tcl_DecrRefCount eleObj ;;;
       ret (to_wide (acc + to_int (slen + 1)))) s
      = Ok (to_wide (acc + to_int (Z.of_nat (length str) + 1))) s).
    { rewrite (bind_Ok _ _ _ _ _ (deref_rep_Ok _ _ _ Hr)).
      rewrite (bind_Ok _ _ _ _ _ (call_indexProc_Some _ _ _ _ _ _ _ _ Ho Hr Hf Ef)).
      fold e. fold s1.
      rewrite (bind_Ok _ _ _ _ _ (Tcl_GetStringFromObj_elem _ _ _ _ He1)).
      cbv zeta.
      rewrite (bind_Ok _ _ _ _ _ (Tcl_DecrRefCount_last _ _ _ He1 ltac:(simpl; lia))).
      unfold ret. simpl snd. f_equal.
      unfold s1, with_objs. simpl. rewrite delete_insert_id by exact Heo.
      apply state_eta. }
    rewrite (bind_Ok _ _ _ _ _ Ebody). apply IH; assumption.
Qed.

Lemma store_char_Ok (s : State) (p i : Z) (ob : Tcl_Obj)
  (pre post : list ascii) (x c : ascii) :
  objs s !! p = Some ob ->
  bytes ob = Some (pre ++ x :: post) ->
  i = Z.of_nat (length pre) ->
  store_char p i c s
    = Ok tt (with_objs (insert p (set_bytes (Some (pre ++ c :: post)) ob)) s).
Proof.
  intros Hp Hb ->. unfold store_char.
  rewrite (bind_Ok _ _ _ _ _ (deref_obj_Ok _ _ _ Hp)). rewrite Hb.
  assert (Hin : (0 <=? Z.of_nat (length pre))
                && (Z.of_nat (length pre)
                    <? Z.of_nat (length (pre ++ x :: post))) = true).
  { rewrite length_app. simpl length. apply andb_true_intro.
    split; [apply Z.leb_le|apply Z.ltb_lt]; lia. }
  rewrite Hin. rewrite Nat2Z.id.
  rewrite insert_app_r_alt by lia. rewrite Nat.sub_diag. reflexivity.
Qed.

Lemma clean_cons (c : ascii) (str : list ascii) :
  clean (c :: str) = true -> Ascii.eqb c NUL = false /\ clean str = true.
Proof.
  unfold clean. simpl. intros Hc. apply andb_prop in Hc as [Hc Hs].
  split; [|exact Hs]. destruct (Ascii.eqb c NUL); [discriminate|reflexivity].
Qed.

Lemma strcpy_at_Ok (obj : Z) (str : list ascii) :
  forall (pre junk post : list ascii) (s : State) (ob : Tcl_Obj) (off : Z),
    clean str = true ->
    objs s !! obj = Some ob ->
    bytes ob = Some (pre ++ junk ++ post) ->
    length junk = S (length str) ->
    off = Z.of_nat (length pre) ->
    strcpy_at obj off (str ++ [NUL]) s
      = Ok tt (with_objs
                 (insert obj (set_bytes (Some (pre ++ (str ++ [NUL]) ++ post)) ob))
                 s).
Proof.
  induction str as [|c str IH]; intros pre junk post s ob off Hc Ho Hb Hlen Hoff.
  - destruct junk as [|x [|? ?]]; try discriminate. simpl in *.
    rewrite (bind_Ok _ _ _ _ _ (store_char_Ok _ _ _ _ _ _ _ NUL Ho Hb Hoff)).
    reflexivity.
  - destruct junk as [|x junk]; [discriminate|]. simpl in Hlen.
    apply clean_cons in Hc as [Hc Hstr]. simpl app in *.
    simpl strcpy_at.
    rewrite (bind_Ok _ _ _ _ _ (store_char_Ok _ _ _ _ _ _ _ c Ho Hb Hoff)).
    rewrite Hc.
    erewrite (IH (pre ++ [c]) junk post); cycle 1.
    + exact Hstr.
    + simpl. apply lookup_insert_eq.
    + simpl. rewrite <- app_assoc. reflexivity.
    + lia.
    + rewrite length_app. simpl. lia.
    + f_equal. unfold with_objs. simpl. rewrite insert_insert_eq.
      rewrite <- app_assoc. reflexivity.
Qed.

Lemma clean_strs_cons (str : list ascii) (strs : list (list ascii)) :
  forallb clean (str :: strs) = true ->
  clean str = true /\ forallb clean strs = true.
Proof. simpl. intros Hc. apply andb_prop in Hc. exact Hc. Qed.

Lemma render_loop (objPtr : Z) (o : Tcl_Obj) (r : AbstractList) f :
  indexProcAt H (indexProc r) = Some f ->
  forall (strs : list (list ascii)) (i : Z) (s : State)
         (pre junk : list ascii),
    objs s !! objPtr = Some (set_bytes (Some (pre ++ junk)) o) ->
    reps s !! ptr1 o = Some r ->
    index_strings (f (abstractValue r)) (length strs) i = Some strs ->
    forallb clean strs = true ->
    length junk = length (render strs) ->
    for_fold (length strs) i (Some (Z.of_nat (length pre)))
      (fun i p =>
         r <- deref_rep (ptr1 o) ;;
         eleObj <- call_indexProc H (indexProc r) objPtr i ;;
         sl <- Tcl_GetStringFromObj eleObj ;;
         let str := fst sl in
         let slen := snd sl in
         strcpy objPtr p str ;;;
         match padd p slen with
         | Some off => store_char objPtr off SPACE
         | None => fault
         end ;;;
         Tcl_DecrRefCount eleObj ;;;
         ret (padd p (slen + 1))) s
    = Ok (Some (Z.of_nat (length (pre ++ render strs))))
        (with_objs
           (insert objPtr (set_bytes (Some (pre ++ render strs)) o)) s).
Proof.
  intros Hf strs. induction strs as [|str strs IH];
    intros i s pre junk Ho Hr Hidx Hclean Hlen.
  - destruct junk; [|discriminate]. simpl. unfold ret.
    rewrite app_nil_r in *. f_equal.
    unfold with_objs. rewrite insert_id by exact Ho. symmetry. apply state_eta.
  - simpl in Hidx.
    destruct (f (abstractValue r) i) as [str0|] eqn:Ef; [|discriminate].
    destruct (index_strings _ _ (i + 1)) as [strs0|] eqn:Erest; [|discriminate].
    injection Hidx as -> ->.
    apply clean_strs_cons in Hclean as [Hstr Hclean].
    simpl render in *. rewrite length_app in Hlen. simpl length in Hlen.
    set (jA := take (S (length str)) junk).
    set (jB := drop (S (length str)) junk).
    assert (HjA : length jA = S (length str))
      by (unfold jA; rewrite length_take; lia).
    assert (HjB : length jB = length (render strs))
      by (unfold jB; rewrite length_drop; lia).
    assert (Hjunk : junk = jA ++ jB) by (symmetry; apply take_drop).
    destruct (fresh_addr_spec s) as (_ & Heo & _).
    set (e := fresh_addr s) in *.
    assert (Hne : e <> objPtr) by (intros E; rewrite E in Heo; congruence).
    set (ob := set_bytes (Some (pre ++ junk)) o) in *.
    set (s1 := with_objs (insert e (elem_value str 0)) s).
    assert (He1 : objs s1 !! e = Some (elem_value str 0))
      by (simpl; apply lookup_insert_eq).
    assert (Ho1 : objs s1 !! objPtr = Some ob)
      by (simpl; rewrite lookup_insert_ne by exact Hne; exact Ho).
    set (s2 := with_objs
                 (insert objPtr
                    (set_bytes (Some (pre ++ (str ++ [NUL]) ++ jB)) ob)) s1).
    set (s3 := with_objs
                 (insert objPtr
                    (set_bytes (Some ((pre ++ str) ++ SPACE :: jB)) ob)) s2).
    assert (Ebody :
      (r <- deref_rep (ptr1 o) ;;
       eleObj <- call_indexProc H (indexProc r) objPtr i ;;
       sl <- Tcl_GetStringFromObj eleObj ;;
       let str := fst sl in
       let slen := snd sl in
       strcpy objPtr (Some (Z.of_nat (length pre))) str ;;;
       match padd (Some (Z.of_nat (length pre))) slen with
       | Some off => store_char objPtr off SPACE
       | None => fault
       end ;;;
       Tcl_DecrRefCount eleObj ;;;
       ret (padd (Some (Z.of_nat (length pre))) (slen + 1))) s
      = Ok (Some (Z.of_nat (length (pre ++ str ++ [SPACE]))))
          (with_objs
             (insert objPtr
                (set_bytes (Some ((pre ++ str ++ [SPACE]) ++ jB)) o)) s)).
    { rewrite (bind_Ok _ _ _ _ _ (deref_rep_Ok _ _ _ Hr)).
      rewrite (bind_Ok _ _ _ _ _
                 (call_indexProc_Some _ _ _ _ _ _ _ _ Ho Hr Hf Ef)).
      fold e. fold s1.
      rewrite (bind_Ok _ _ _ _ _ (Tcl_GetStringFromObj_elem _ _ _ _ He1)).
      cbv zeta. simpl fst. simpl snd. simpl strcpy.
      rewrite (bind_Ok _ _ _ _ _
                 (strcpy_at_Ok objPtr str pre jA jB s1 ob _ Hstr Ho1
                    ltac:(unfold ob; simpl; rewrite Hjunk; reflexivity)
                    HjA eq_refl)).
      fold s2. simpl padd.
      rewrite (bind_Ok _ _ _ _ _
                 (store_char_Ok s2 objPtr
                    (Z.of_nat (length pre) + Z.of_nat (length str))
                    (set_bytes (Some (pre ++ (str ++ [NUL]) ++ jB)) ob)
                    (pre ++ str) jB NUL SPACE
                    ltac:(simpl; apply lookup_insert_eq)
                    ltac:(simpl; rewrite <- !app_assoc; reflexivity)
                    ltac:(rewrite length_app; lia))).
      simpl set_bytes. fold s3.
      rewrite (bind_Ok _ _ _ _ _
                 (Tcl_DecrRefCount_last s3 e (elem_value str 0)
                    ltac:(simpl; rewrite !lookup_insert_ne by
                            (intros E; apply Hne; symmetry; exact E);
                          apply lookup_insert_eq)
                    ltac:(simpl; lia))).
      unfold ret. f_equal.
      - f_equal. rewrite !length_app. simpl. lia.
      - unfold s3, s2, s1, with_objs. simpl.
        rewrite insert_insert_eq.
        rewrite delete_insert_ne by exact Hne.
        rewrite delete_insert_id by exact Heo.
        rewrite <- !app_assoc. reflexivity. }
    simpl length. simpl for_fold.
    rewrite (bind_Ok _ _ _ _ _ Ebody).
    erewrite (IH (i + 1) _ (pre ++ str ++ [SPACE]) jB); cycle 1.
    + simpl. apply lookup_insert_eq.
    + exact Hr.
    + exact Erest.
    + exact Hclean.
    + exact HjB.
    + f_equal.
      * rewrite <- !app_assoc. reflexivity.
      * unfold with_objs. simpl. rewrite insert_insert_eq.
        rewrite <- !app_assoc. reflexivity.
Qed.

Lemma store_char_at (s : State) (p i : Z) (ob : Tcl_Obj) (b : list ascii)
  (c : ascii) :
  objs s !! p = Some ob ->
  bytes ob = Some b ->
  0 <= i < Z.of_nat (length b) ->
  store_char p i c s
    = Ok tt (with_objs
               (insert p (set_bytes (Some (<[Z.to_nat i := c]> b)) ob)) s).
Proof.
  intros Hp Hb Hi. unfold store_char.
  rewrite (bind_Ok _ _ _ _ _ (deref_obj_Ok _ _ _ Hp)). rewrite Hb.
  assert (Hin : (0 <=? i) && (i <? Z.of_nat (length b)) = true).
  { apply andb_true_intro. split; [apply Z.leb_le|apply Z.ltb_lt]; lia. }
  rewrite Hin. reflexivity.
Qed.

Lemma render_length_pos (strs : list (list ascii)) :
  strs <> [] -> 0 < Z.of_nat (length (render strs)).
Proof.
  destruct strs as [|str strs]; [congruence|]. intros _. simpl.
  rewrite length_app. simpl. lia.
Qed.

(** The whole projector on a list of at least one element. *)
Lemma UpdateString_renders (s : State) (objPtr : Z) (o : Tcl_Obj)
  (r : AbstractList) (n : Z) f (strs : list (list ascii)) :
  objs s !! objPtr = Some o ->
  reps s !! ptr1 o = Some r ->
  call_lengthProc H (lengthProc r) objPtr s = Ok n s ->
  0 < to_int n ->
  indexProcAt H (indexProc r) = Some f ->
  index_strings (f (abstractValue r)) (Z.to_nat (to_int n)) 0 = Some strs ->
  forallb clean strs = true ->
  Z.of_nat (length (render strs)) <= INT_MAX ->
  Z.of_nat (length (render strs)) <= avail s ->
  measured strs = Z.of_nat (length (render strs))
  /\ UpdateStringOfAbstractList H objPtr s
     = Ok tt
         (with_objs
            (insert objPtr
               (set_objLength (measured strs - 1)
                  (set_bytes
                     (Some (<[Z.to_nat (measured strs - 1) := NUL]>
                              (render strs))) o)))
            (with_avail (avail s - measured strs) s)).
Proof.
  intros Ho Hr Hlen Hpos Hf Hidx Hclean Hmax Hav.
  pose proof (index_strings_length _ _ _ _ Hidx) as Hn.
  assert (Hne : strs <> []).
  { intros ->. simpl in Hn. lia. }
  pose proof (render_length_pos strs Hne) as Htot.
  assert (Hm : measured strs = Z.of_nat (length (render strs))).
  { unfold measured. rewrite measure_from_exact by lia. lia. }
  split; [exact Hm|].
  unfold UpdateStringOfAbstractList.
  rewrite (bind_Ok _ _ _ _ _ (deref_obj_Ok _ _ _ Ho)).
  rewrite (bind_Ok _ _ _ _ _ (deref_rep_Ok _ _ _ Hr)).
  rewrite (bind_Ok _ _ _ _ _ Hlen).
  destruct (Z.leb_spec (to_int n) 0); [lia|].
  rewrite <- Hn.
  rewrite (bind_Ok _ _ _ _ _
             (measure_loop objPtr o r f Hf strs 0 0 s Ho Hr
                ltac:(rewrite Hn; exact Hidx))).
  fold (measured strs).
  set (total := measured strs) in *.
  set (junk := replicate (Z.to_nat total) (uninit_char H)).
  set (s1 := with_avail (avail s - total) s).
  set (s2 := with_objs (insert objPtr (set_bytes (Some junk) o)) s1).
  assert (Einit : Tcl_InitStringRep H objPtr total s = Ok (Some 0) s2).
  { unfold Tcl_InitStringRep.
    destruct (Z.eqb_spec total 0); [lia|].
    assert (Ealloc : ckalloc total s = Ok (fresh_addr s) s1).
    { unfold ckalloc. destruct (Z.leb_spec total (avail s)); [reflexivity|lia]. }
    rewrite (bind_Ok _ _ _ _ _ Ealloc).
    destruct (fresh_addr_spec s) as (Hb0 & _).
    apply Z.eqb_neq in Hb0. rewrite Hb0.
    rewrite (bind_Ok _ _ _ _ _ (update_obj_Ok s1 objPtr o _ Ho)).
    reflexivity. }
  rewrite (bind_Ok _ _ _ _ _ Einit).
  rewrite (bind_Ok _ _ _ _ _
             (render_loop objPtr o r f Hf strs 0 s2 [] junk
                ltac:(simpl; apply lookup_insert_eq) Hr
                ltac:(rewrite Hn; exact Hidx) Hclean
                ltac:(unfold junk; rewrite length_replicate; lia))).
  simpl app.
  set (s3 := with_objs (insert objPtr (set_bytes (Some (render strs)) o)) s2).
  destruct (Z.ltb_spec 0 total); [|lia].
  rewrite (bind_Ok _ _ _ _ _
             (store_char_at s3 objPtr (total - 1)
                (set_bytes (Some (render strs)) o) (render strs) NUL
                ltac:(simpl; apply lookup_insert_eq) eq_refl ltac:(lia))).
  erewrite update_obj_Ok by (simpl; apply lookup_insert_eq).
  f_equal. rewrite to_int_id by (unfold INT_MIN, INT_MAX in *; lia).
  unfold s2, s1, with_objs, with_avail. simpl.
  rewrite !insert_insert_eq. reflexivity.
Qed.

Lemma UpdateString_empty (s : State) (objPtr : Z) (o : Tcl_Obj)
  (r : AbstractList) (n : Z) :
  objs s !! objPtr = Some o ->
  reps s !! ptr1 o = Some r ->
  call_lengthProc H (lengthProc r) objPtr s = Ok n s ->
  to_int n <= 0 ->
  UpdateStringOfAbstractList H objPtr s
  = Ok tt
      (with_objs
         (insert objPtr (set_objLength 0 (set_bytes (Some tclEmptyString) o)))
         s).
Proof.
  intros Ho Hr Hlen Hn. unfold UpdateStringOfAbstractList.
  rewrite (bind_Ok _ _ _ _ _ (deref_obj_Ok _ _ _ Ho)).
  rewrite (bind_Ok _ _ _ _ _ (deref_rep_Ok _ _ _ Hr)).
  rewrite (bind_Ok _ _ _ _ _ Hlen).
  destruct (Z.leb_spec (to_int n) 0); [|lia].
  unfold Tcl_InitStringRep. simpl (0 =? 0). cbv iota.
  erewrite bind_Ok; cycle 1.
  { erewrite bind_Ok; [reflexivity|]. apply update_obj_Ok. exact Ho. }
  reflexivity.
Qed.

Lemma overwrite_last (strs : list (list ascii)) :
  strs <> [] ->
  render strs !! Z.to_nat (sum_lengths strs - 1) = Some SPACE
  /\ <[Z.to_nat (sum_lengths strs - 1) := NUL]> (render strs)
     = joined strs ++ [NUL].
Proof.
  intros Hne. rewrite <- render_length. rewrite render_joined by exact Hne.
  rewrite length_app. simpl length.
  replace (Z.to_nat (Z.of_nat (length (joined strs) + 1) - 1))
    with (length (joined strs) + 0)%nat by lia.
  split.
  - rewrite lookup_app_r by lia.
    replace (length (joined strs) + 0 - length (joined strs))%nat with O by lia.
    reflexivity.
  - rewrite insert_app_r. reflexivity.
Qed.

(** C4, amended.  For an abstract list whose length N fits an [int]
    (INT_MIN <= N <= INT_MAX, so that the projector reads N itself), with
    NUL-free element strings, a total of at most INT_MAX and a buffer the
    allocator supplies: the string projection is the strings of all
    max(N, 0) elements joined by single spaces, terminated, and the
    recorded length is its number of bytes.  It is the empty string exactly
    when N <= 0 or the list is one element whose string is empty; for
    N <= 0 the buffer is the empty string and the recorded length is 0; for
    N >= 1 the recorded length is total - 1, where total, the sum over the
    elements of (string length + 1), is what the measuring pass
    accumulates. *)
Theorem UpdateString_empty_iff_no_text
  (s : State) (objPtr : Z) (o : Tcl_Obj) (r : AbstractList) (n : Z)
  f (strs : list (list ascii)) :
  objs s !! objPtr = Some o ->
  reps s !! ptr1 o = Some r ->
  call_lengthProc H (lengthProc r) objPtr s = Ok n s ->
  INT_MIN <= n <= INT_MAX ->
  indexProcAt H (indexProc r) = Some f ->
  index_strings (f (abstractValue r)) (Z.to_nat n) 0 = Some strs ->
  forallb clean strs = true ->
  sum_lengths strs <= INT_MAX ->
  sum_lengths strs <= avail s ->
  exists s' o',
    UpdateStringOfAbstractList H objPtr s = Ok tt s'
    /\ objs s' !! objPtr = Some o'
    /\ Z.of_nat (length strs) = Z.max n 0
    /\ bytes o' = Some (joined strs ++ [NUL])
    /\ objLength o' = Z.of_nat (length (joined strs))
    /\ string_of o' = Some (joined strs)
    /\ (string_of o' = Some [] <-> n <= 0 \/ strs = [[]])
    /\ (n <= 0 -> bytes o' = Some tclEmptyString /\ objLength o' = 0)
    /\ (1 <= n ->
        measured strs = sum_lengths strs
        /\ objLength o' = sum_lengths strs - 1).
Proof.
  intros Ho Hr Hlen Hint Hf Hidx Hclean Hmax Hav.
  assert (Eint : to_int n = n) by (apply to_int_id; exact Hint).
  pose proof (index_strings_length _ _ _ _ Hidx) as Hn.
  destruct (Z.le_gt_cases n 0) as [Hle|Hpos].
  - assert (strs = []) as -> by (destruct strs; [reflexivity|simpl in Hn; lia]).
    eexists. eexists.
    split; [eapply UpdateString_empty; try eassumption; lia|].
    split; [simpl; apply lookup_insert_eq|].
    split; [simpl; lia|].
    split; [reflexivity|]. split; [reflexivity|]. split; [reflexivity|].
    split; [|split].
    + split; [intros _; left; exact Hle|reflexivity].
    + intros _. split; reflexivity.
    + lia.
  - assert (Hne : strs <> []) by (intros ->; simpl in Hn; lia).
    rewrite <- render_length in Hmax, Hav.
    destruct (UpdateString_renders s objPtr o r n f strs Ho Hr Hlen
                ltac:(lia) Hf ltac:(rewrite Eint; exact Hidx) Hclean Hmax Hav)
      as [Hm Hrun].
    rewrite render_length in Hm.
    destruct (overwrite_last strs Hne) as [_ Hlast].
    rewrite Hm, Hlast in Hrun.
    assert (Hbytes : sum_lengths strs - 1 = Z.of_nat (length (joined strs))).
    { rewrite <- render_length, render_joined by exact Hne.
      rewrite length_app. simpl length. lia. }
    eexists. eexists. split; [exact Hrun|].
    split; [simpl; apply lookup_insert_eq|].
    split; [lia|].
    split; [reflexivity|].
    split; [exact Hbytes|].
    assert (Htext : string_of
                      (set_objLength (sum_lengths strs - 1)
                         (set_bytes (Some (joined strs ++ [NUL])) o))
                    = Some (joined strs)).
    { unfold string_of. simpl. f_equal. rewrite Hbytes, Nat2Z.id.
      apply take_app_length. }
    split; [exact Htext|]. split; [|split].
    + rewrite Htext. split.
      * intros [= E]. right. apply joined_nil; assumption.
      * intros [Hc | ->]; [lia|reflexivity].
    + lia.
    + intros _. split; [exact Hm|reflexivity].
Qed.

(** C5, amended.  For an abstract list of 1 <= N <= INT_MAX elements with
    NUL-free strings whose total (sum of string length + 1) is at most
    INT_MAX and obtainable from the allocator: the rendering pass writes
    the bytes of each element followed by one space, total bytes in all,
    the last of them the final separator; that byte is overwritten with
    the terminator and the recorded length is total - 1. *)
Theorem UpdateString_renders_elements_with_separators
  (s : State) (objPtr : Z) (o : Tcl_Obj) (r : AbstractList) (n : Z)
  f (strs : list (list ascii)) :
  objs s !! objPtr = Some o ->
  reps s !! ptr1 o = Some r ->
  call_lengthProc H (lengthProc r) objPtr s = Ok n s ->
  1 <= n <= INT_MAX ->
  indexProcAt H (indexProc r) = Some f ->
  index_strings (f (abstractValue r)) (Z.to_nat n) 0 = Some strs ->
  forallb clean strs = true ->
  sum_lengths strs <= INT_MAX ->
  sum_lengths strs <= avail s ->
  exists s' o',
    UpdateStringOfAbstractList H objPtr s = Ok tt s'
    /\ objs s' !! objPtr = Some o'
    /\ measured strs = sum_lengths strs
    /\ Z.of_nat (length (render strs)) = measured strs
    /\ render strs !! Z.to_nat (measured strs - 1) = Some SPACE
    /\ bytes o' = Some (<[Z.to_nat (measured strs - 1) := NUL]> (render strs))
    /\ objLength o' = measured strs - 1.
Proof.
  intros Ho Hr Hlen Hn Hf Hidx Hclean Hmax Hav.
  assert (Eint : to_int n = n) by (apply to_int_id; unfold INT_MIN; lia).
  assert (Hne : strs <> []).
  { intros ->. apply index_strings_length in Hidx. simpl in Hidx. lia. }
  rewrite <- render_length in Hmax, Hav.
  destruct (UpdateString_renders s objPtr o r n f strs Ho Hr Hlen
              ltac:(lia) Hf ltac:(rewrite Eint; exact Hidx) Hclean Hmax Hav)
    as [Hm Hrun].
  destruct (overwrite_last strs Hne) as [Hsp _].
  eexists. eexists. split; [exact Hrun|].
  split; [simpl; apply lookup_insert_eq|].
  split; [rewrite Hm; apply render_length|].
  split; [symmetry; exact Hm|].
  split; [rewrite Hm, render_length; exact Hsp|].
  split; reflexivity.
Qed.

(** ** Duplication *)

Lemma update_obj_inv (p : Z) f (s s' : State) :
  update_obj p f s = Ok tt s' ->
  exists o, objs s !! p = Some o /\ s' = with_objs (insert p (f o)) s.
Proof.
  unfold update_obj. intros Hb.
  apply bind_inv in Hb as (o & s1 & Hd & Hm).
  apply deref_obj_inv in Hd as [-> Ho]. injection Hm as <-. eauto.
Qed.

Lemma update_rep_inv (p : Z) f (s s' : State) :
  update_rep p f s = Ok tt s' ->
  exists r, reps s !! p = Some r /\ s' = with_reps (insert p (f r)) s.
Proof.
  unfold update_rep. intros Hb.
  apply bind_inv in Hb as (r & s1 & Hd & Hm).
  apply deref_rep_inv in Hd as [-> Hr]. injection Hm as <-. eauto.
Qed.

Lemma call_dupRepProc_inv (fn srcPtr copyPtr : Z) (s s' : State) :
  call_dupRepProc H fn srcPtr copyPtr s = Ok tt s' ->
  exists copy r payload,
    objs s !! copyPtr = Some copy /\ reps s !! ptr1 copy = Some r
    /\ s' = with_reps (insert (ptr1 copy) (set_abstractValue payload r)) s.
Proof.
  unfold call_dupRepProc. destruct (dupRepProcAt H fn) as [f|]; [|discriminate].
  intros Hb.
  apply bind_inv in Hb as (src & s1 & Hd & Hb).
  apply deref_obj_inv in Hd as [-> _].
  apply bind_inv in Hb as (srcRep & s1 & Hd & Hb).
  apply deref_rep_inv in Hd as [-> _].
  apply bind_inv in Hb as (copy & s1 & Hd & Hb).
  apply deref_obj_inv in Hd as [-> Hc].
  apply update_rep_inv in Hb as (r & Hr & ->).
  exists copy, r. eexists. auto.
Qed.

(** Whenever duplication returns, the header of the copy is a block of its
    own whose cache slot holds the cache pointer of the source. *)
Lemma Dup_copies_the_cache_pointer (s s' : State) (srcPtr copyPtr : Z)
  (src : Tcl_Obj) (srcRep : AbstractList) :
  objs s !! srcPtr = Some src ->
  reps s !! ptr1 src = Some srcRep ->
  DupAbstractListInternalRep H srcPtr copyPtr s = Ok tt s' ->
  exists copy copyRep,
    objs s' !! copyPtr = Some copy
    /\ reps s' !! ptr1 copy = Some copyRep
    /\ ptr1 copy <> ptr1 src
    /\ elements copyRep = elements srcRep.
Proof.
  intros Ho Hr. unfold DupAbstractListInternalRep, Tcl_AbstractListRepPtr.
  rewrite (bind_Ok _ _ _ _ _ (deref_obj_Ok _ _ _ Ho)).
  rewrite (bind_Ok _ _ _ _ _ (deref_rep_Ok _ _ _ Hr)).
  intros Hb. apply bind_inv in Hb as (p & s1 & Halloc & Hb).
  apply bind_inv in Hb as ([] & s2 & Hstore & Hb).
  unfold struct_assign in Hstore.
  destruct (sizeof_AbstractList H <=? repSize srcRep); [|discriminate].
  unfold store_rep in Hstore.
  destruct (Z.eqb_spec p NULL) as [->|Hp]; [discriminate|].
  destruct (sizeof_AbstractList H <=? repSize srcRep); [|discriminate].
  injection Hstore as <-.
  assert (Hfresh : reps s !! p = None /\ reps s1 = reps s /\ objs s1 = objs s).
  { unfold ckalloc in Halloc.
    destruct (repSize srcRep <=? avail s); injection Halloc as <- <-.
    - destruct (fresh_addr_spec s) as (_ & _ & Hfr & _). auto.
    - contradiction. }
  destruct Hfresh as (Hfr & Hreps1 & Hobjs1).
  assert (Hne : p <> ptr1 src) by (intros ->; congruence).
  apply bind_inv in Hb as ([] & s3 & Hu1 & Hb).
  apply update_obj_inv in Hu1 as (c1 & Hc1 & ->).
  apply bind_inv in Hb as ([] & s4 & Hu2 & Hb).
  apply update_obj_inv in Hu2 as (c2 & Hc2 & ->).
  apply bind_inv in Hb as ([] & s5 & Hu3 & Hb).
  apply update_rep_inv in Hu3 as (r3 & Hr3 & ->).
  apply bind_inv in Hb as ([] & s6 & Hu4 & Hb).
  apply update_obj_inv in Hu4 as (c4 & Hc4 & ->).
  simpl in Hc2, Hr3, Hc4.
  rewrite lookup_insert_eq in Hc2. rewrite lookup_insert_eq in Hr3.
  rewrite lookup_insert_eq in Hc4.
  injection Hc2 as <-. injection Hr3 as <-. injection Hc4 as <-.
  destruct (dupRepProc srcRep =? NULL).
  - injection Hb as <-.
    eexists. eexists. simpl.
    split; [apply lookup_insert_eq|]. simpl.
    split; [apply lookup_insert_eq|]. split; [exact Hne|reflexivity].
  - apply call_dupRepProc_inv in Hb as (copy & r & payload & Hc & Hrr & ->).
    simpl in Hc, Hrr. rewrite lookup_insert_eq in Hc. injection Hc as <-.
    simpl in Hrr. rewrite lookup_insert_eq in Hrr. injection Hrr as <-.
    eexists. eexists. simpl.
    split; [apply lookup_insert_eq|]. simpl.
    split; [apply lookup_insert_eq|]. split; [exact Hne|reflexivity].
Qed.

End Proofs.

(** * The model on concrete heaps *)

(** C1 (the code departs from the claim).  The series x = 0 2 4 6 8 has its
    element cache populated; [TclAbstractListObjCopy] then yields a copy
    whose header holds the very same cache pointer, not an absent cache.
    Destroying the copy releases the five cached elements and frees the
    array that x still points to; destroying x afterwards frees it a
    second time. *)
Theorem Dup_shares_the_element_cache :
  exists a arr,
    elements (rep_at cachedState seriesObj) = a
    /\ a <> NULL
    /\ arrays cachedState !! a = Some arr
    /\ cache_holds cachedState a seriesStrings
    /\ TclAbstractListObjCopy seriesHost NULL seriesObj cachedState
       = Ok copyObj copiedState
    /\ copyObj <> seriesObj
    /\ ptr1 (obj_at copiedState copyObj) <> ptr1 (obj_at copiedState seriesObj)
    /\ elements (rep_at copiedState copyObj) = a
    /\ FreeAbstractListInternalRep seriesHost copyObj copiedState
       = Ok tt afterFreeState
    /\ elements (rep_at afterFreeState seriesObj) = a
    /\ arrays afterFreeState !! a = None
    /\ Forall (fun e => objs afterFreeState !! e = None) arr
    /\ FreeAbstractListInternalRep seriesHost seriesObj afterFreeState = Fault.
Proof.
  eexists. eexists.
  split; [vm_compute; reflexivity|].
  split; [vm_compute; discriminate|].
  split; [vm_compute; reflexivity|].
  split.
  { eexists. split; [vm_compute; reflexivity|].
    repeat constructor;
      (exists 1; split; [lia|vm_compute; reflexivity]). }
  split; [vm_compute; reflexivity|].
  split; [vm_compute; discriminate|].
  split; [vm_compute; discriminate|].
  split; [vm_compute; reflexivity|].
  split; [vm_compute; reflexivity|].
  split; [vm_compute; reflexivity|].
  split; [vm_compute; reflexivity|].
  split; [|vm_compute; reflexivity].
  repeat constructor.
Qed.

(** Evaluates a closed side condition on a concrete heap. *)
Ltac calc :=
  vm_compute;
  first [ reflexivity | discriminate | (intros ?; discriminate)
        | (split; intros ?; discriminate) ].

(** Evaluates the function pointer in a slot and looks up its code. *)
Ltac calc_proc fn :=
  match goal with
  | |- _ _ ?p = Some _ =>
      replace p with fn by (vm_compute; reflexivity); reflexivity
  end.

Lemma wrong_type_witness :
  Tcl_AbstractListObjIndex seriesHost plainObj 0 plainState
    = Panic "Tcl_AbstractListObjIndex called without and AbstractList Obj."
  /\ Tcl_AbstractListObjGetElements seriesHost NULL plainObj 7 8 plainState
     = Ok (TCL_ERROR, 7, 8) plainState
  /\ Tcl_AbstractListObjGetElements seriesHost 900 plainObj 7 8 plainState
     = Ok (TCL_ERROR, 7, 8)
         (with_interps
            (insert 900
               (mkInterp "value is not an abstract list"
                  ["TCL"; "VALUE"; "UNKNOWN"]%string)) plainState).
Proof.
  destruct (wrong_type_index_panics_getelements_errors seriesHost plainState
              plainObj (obj_at plainState plainObj) 0 900 7 8
              ltac:(calc) ltac:(calc)) as (Hpanic & _ & Herr).
  destruct (wrong_type_index_panics_getelements_errors seriesHost plainState
              plainObj (obj_at plainState plainObj) 0 NULL 7 8
              ltac:(calc) ltac:(calc)) as (_ & Hnull & _).
  split; [exact Hpanic|]. split; [exact (Hnull eq_refl)|].
  apply (Herr (mkInterp "" [])); calc.
Defined.

Lemma GetElements_series_witness :
  exists objv s' arr,
    Tcl_AbstractListObjGetElements seriesHost NULL seriesObj 0 0 seriesState
      = Ok (TCL_OK, 5, objv) s'
    /\ arrays s' !! objv = Some arr
    /\ Z.of_nat (length arr) = 5
    /\ forall i, 0 <= i < 5 ->
         exists e str rc,
           arr !! Z.to_nat i = Some e
           /\ series_index (abstractValue (rep_at seriesState seriesObj)) i
              = Some str
           /\ 0 < rc /\ objs s' !! e = Some (elem_value str rc).
Proof.
  destruct (GetElements_returns_every_element seriesHost seriesState seriesObj
              (obj_at seriesState seriesObj) (rep_at seriesState seriesObj) 5
              series_index seriesStrings NULL 0 0
              ltac:(calc) ltac:(calc) ltac:(calc) ltac:(calc) ltac:(calc)
              ltac:(calc_proc 4002) ltac:(calc)
              ltac:(intros Hc; exfalso; apply Hc; calc)
              ltac:(intros _ _; calc))
    as (objv & s' & Hrun & _ & Hpos).
  destruct (Hpos ltac:(lia)) as (arr & Harr & Hlen & Hall).
  exists objv, s', arr. repeat split; try assumption.
  intros i Hi. destruct (Hall i Hi) as (e & str & rc & H1 & H2 & H3 & H4 & _).
  exists e, str, rc. auto.
Defined.

Lemma UpdateString_series_witness :
  exists s' o',
    UpdateStringOfAbstractList seriesHost seriesObj seriesState = Ok tt s'
    /\ objs s' !! seriesObj = Some o'
    /\ string_of o' = Some (list_ascii_of_string "0 2 4 6 8")
    /\ objLength o' = 9.
Proof.
  destruct (UpdateString_empty_iff_no_text seriesHost seriesState seriesObj
              (obj_at seriesState seriesObj) (rep_at seriesState seriesObj) 5
              series_index seriesStrings
              ltac:(calc) ltac:(calc) ltac:(calc) ltac:(calc)
              ltac:(calc_proc 4002)
              ltac:(calc) ltac:(calc) ltac:(calc) ltac:(calc))
    as (s' & o' & Hrun & Ho' & _ & _ & _ & Htext & _ & _ & Hlen).
  destruct (Hlen ltac:(calc)) as [_ Hl].
  exists s', o'. repeat split; assumption.
Defined.

Lemma UpdateString_render_witness :
  exists s' o',
    UpdateStringOfAbstractList seriesHost seriesObj seriesState = Ok tt s'
    /\ objs s' !! seriesObj = Some o'
    /\ render seriesStrings = list_ascii_of_string "0 2 4 6 8 "
    /\ measured seriesStrings = 10
    /\ bytes o' = Some (list_ascii_of_string "0 2 4 6 8" ++ [NUL])
    /\ objLength o' = 9.
Proof.
  destruct (UpdateString_renders_elements_with_separators seriesHost
              seriesState seriesObj
              (obj_at seriesState seriesObj) (rep_at seriesState seriesObj) 5
              series_index seriesStrings
              ltac:(calc) ltac:(calc) ltac:(calc) ltac:(calc)
              ltac:(calc_proc 4002)
              ltac:(calc) ltac:(calc) ltac:(calc) ltac:(calc))
    as (s' & o' & Hrun & Ho' & _ & _ & _ & Hbytes & Hlen).
  exists s', o'. repeat split; try assumption; reflexivity.
Defined.

Lemma GetElements_twice_witness :
  Tcl_AbstractListObjGetElements seriesHost NULL seriesObj 0 0 seriesState
    = Ok (TCL_OK, 5, elements (rep_at cachedState seriesObj)) cachedState
  /\ Tcl_AbstractListObjGetElements seriesHost NULL seriesObj 3 4 cachedState
     = Ok (TCL_OK, 5, elements (rep_at cachedState seriesObj)) cachedState.
Proof.
  assert (Hfirst :
    Tcl_AbstractListObjGetElements seriesHost NULL seriesObj 0 0 seriesState
    = Ok (TCL_OK, 5, elements (rep_at cachedState seriesObj)) cachedState)
    by calc.
  split; [exact Hfirst|].
  destruct (GetElements_cache_is_populated_once seriesHost seriesState
              cachedState seriesObj
              (obj_at seriesState seriesObj) (rep_at seriesState seriesObj)
              NULL 0 0 5 (elements (rep_at cachedState seriesObj)) 3 4
              ltac:(calc) ltac:(calc) ltac:(calc) ltac:(calc))
    as [_ Hagain].
  exact (Hagain Hfirst).
Defined.

Lemma NewAbstractListObj_witness :
  exists objPtr repPtr s',
    Tcl_NewAbstractListObj seriesHost NULL "arithseries" 24 startState
      = Ok objPtr s'
    /\ refCount (obj_at s' objPtr) = 0
    /\ reps s' !! repPtr
       = Some (mkAbstractList TCL_ABSTRACTLIST_VERSION_1 112 "arithseries"
                 NULL NULL NULL NULL NULL NULL NULL
                 (fresh_payload seriesHost 112)).
Proof.
  destruct (NewAbstractListObj_creates_empty_header seriesHost startState NULL
              "arithseries" 24
              ltac:(calc) ltac:(calc) ltac:(calc) ltac:(calc))
    as (objPtr & repPtr & s' & Hrun & _ & _ & _ & _ & Hobjs & Hreps & _).
  exists objPtr, repPtr, s'. split; [exact Hrun|]. split.
  - unfold obj_at. rewrite Hobjs, lookup_insert_eq. reflexivity.
  - rewrite Hreps. apply lookup_insert_eq.
Defined.

Lemma SetProc_witness :
  Tcl_AbstractListSetProc seriesObj 9 4005 seriesState
    = Ok TCL_ERROR seriesState
  /\ exists r',
       Tcl_AbstractListSetProc seriesObj TCL_ABSL_SLICE 4005 seriesState
         = Ok TCL_OK
             (with_reps
                (insert
                   (AbstractListGetInternalRep (obj_at seriesState seriesObj))
                   r') seriesState)
       /\ sliceProc r' = 4005
       /\ lengthProc r' = 4001 /\ indexProc r' = 4002.
Proof.
  destruct (SetProc_installs_exactly_one_slot seriesState seriesObj
              (obj_at seriesState seriesObj) 9 4005 ltac:(calc))
    as [Herr _].
  destruct (SetProc_installs_exactly_one_slot seriesState seriesObj
              (obj_at seriesState seriesObj) TCL_ABSL_SLICE 4005 ltac:(calc))
    as [_ Hok].
  split.
  - apply Herr. right. unfold recognized. vm_compute.
    intros [E|[E|[E|[E|[E|E]]]]]; discriminate E.
  - destruct (Hok (rep_at seriesState seriesObj)
                ltac:(calc) ltac:(calc)
                ltac:(right; right; right; right; left; reflexivity))
      as (r' & Hrun & Hslot & Hothers & _).
    exists r'. split; [exact Hrun|]. split; [exact Hslot|]. split.
    + exact (Hothers TCL_ABSL_LENGTH ltac:(calc)).
    + exact (Hothers TCL_ABSL_INDEX ltac:(calc)).
Defined.

Lemma GetElements_negative_witness :
  Tcl_AbstractListObjGetElements seriesHost NULL negativeObj 7 8 negativeState
    = Ok (TCL_OK, -3, NULL) negativeState.
Proof.
  destruct (GetElements_nonpositive_length seriesHost negativeState negativeObj
              (obj_at negativeState negativeObj)
              (rep_at negativeState negativeObj) (-3) NULL 7 8
              ltac:(calc) ltac:(calc) ltac:(calc) ltac:(calc) ltac:(calc))
    as [Hrun _].
  exact Hrun.
Defined.

(** ** Inputs on which a claim, as stated, fails *)

(** C3 as stated fails: a series of 2^32 elements has a non-negative
    length, yet the bulk accessor reports a count of 0; with no memory left
    the accessor fails; and on the heap left by the copy-and-destroy of C1
    it hands out a cache that is no longer allocated. *)
Lemma GetElements_count_is_an_int :
  Tcl_AbstractListObjLength seriesHost hugeObj hugeState
    = Ok 4294967296 hugeState
  /\ Tcl_AbstractListObjGetElements seriesHost NULL hugeObj 0 0 hugeState
     = Ok (TCL_OK, 0, NULL) hugeState
  /\ ~ (exists objv s',
          Tcl_AbstractListObjGetElements seriesHost NULL hugeObj 0 0 hugeState
          = Ok (TCL_OK, 4294967296, objv) s')
  /\ Tcl_AbstractListObjGetElements seriesHost NULL seriesObj 0 0
       (with_avail 0 seriesState)
     = Ok (TCL_ERROR, 0, 0) (with_avail 0 seriesState)
  /\ (exists a,
        Tcl_AbstractListObjGetElements seriesHost NULL seriesObj 0 0
          afterFreeState
        = Ok (TCL_OK, 5, a) afterFreeState
        /\ arrays afterFreeState !! a = None).
Proof.
  assert (Hrun :
    Tcl_AbstractListObjGetElements seriesHost NULL hugeObj 0 0 hugeState
    = Ok (TCL_OK, 0, NULL) hugeState) by calc.
  split; [calc|]. split; [exact Hrun|]. split.
  { intros (objv & s' & E). rewrite Hrun in E. discriminate E. }
  split; [calc|].
  eexists. split; calc.
Qed.

(** C4 as stated fails: a list holding one empty string has length 1 and
    an empty string projection, and a series of length -3 has an empty
    projection although its length is not 0. *)
Lemma UpdateString_empty_text_of_nonempty_list :
  Tcl_AbstractListObjLength seriesHost blankObj blankState = Ok 1 blankState
  /\ (exists e s',
        Tcl_AbstractListObjIndex seriesHost blankObj 0 blankState = Ok e s'
        /\ string_of (obj_at s' e) = Some [])
  /\ (exists s',
        UpdateStringOfAbstractList seriesHost blankObj blankState = Ok tt s'
        /\ string_of (obj_at s' blankObj) = Some []
        /\ bytes (obj_at s' blankObj) = Some [NUL]
        /\ objLength (obj_at s' blankObj) = 0)
  /\ Tcl_AbstractListObjLength seriesHost negativeObj negativeState
     = Ok (-3) negativeState
  /\ (exists s',
        UpdateStringOfAbstractList seriesHost negativeObj negativeState
        = Ok tt s'
        /\ string_of (obj_at s' negativeObj) = Some []).
Proof.
  split; [calc|].
  split; [eexists; eexists; split; calc|].
  split; [eexists; repeat split; calc|].
  split; [calc|].
  eexists; split; calc.
Qed.

(** C5 as stated fails: the series 7, 8, 9, ... of 2^32 elements has a
    length of at least 1 and its first element is the string 7, yet the
    projector writes no element at all: it leaves the empty string with a
    recorded length of 0.  And when the buffer cannot be obtained the
    projector of the series 0 2 4 6 8 writes through a NULL pointer. *)
Lemma UpdateString_renders_nothing_for_long_lists :
  Tcl_AbstractListObjLength seriesHost hugeObj hugeState
    = Ok 4294967296 hugeState
  /\ (exists e s',
        Tcl_AbstractListObjIndex seriesHost hugeObj 0 hugeState = Ok e s'
        /\ string_of (obj_at s' e) = Some (list_ascii_of_string "7"))
  /\ (exists s',
        UpdateStringOfAbstractList seriesHost hugeObj hugeState = Ok tt s'
        /\ bytes (obj_at s' hugeObj) = Some [NUL]
        /\ objLength (obj_at s' hugeObj) = 0)
  /\ UpdateStringOfAbstractList seriesHost seriesObj
       (with_avail 0 seriesState) = Fault.
Proof.
  split; [calc|].
  split; [eexists; eexists; split; calc|].
  split; [eexists; repeat split; calc|].
  calc.
Qed.

(** C10 as stated fails: the length operation returns 1 - 2^32, which is
    negative, yet the bulk accessor reports a count of 1, allocates an
    array of one element and installs it as the cache. *)
Lemma GetElements_wrapped_negative_length :
  Tcl_AbstractListObjLength seriesHost wrappedObj wrappedState
    = Ok (-4294967295) wrappedState
  /\ (exists objv s',
        Tcl_AbstractListObjGetElements seriesHost NULL wrappedObj 0 0
          wrappedState
        = Ok (TCL_OK, 1, objv) s'
        /\ objv <> NULL
        /\ elements (rep_at s' wrappedObj) = objv
        /\ avail s' = avail wrappedState - 8
        /\ exists e, arrays s' !! objv = Some [e])
  /\ Tcl_AbstractListObjGetElements seriesHost NULL wrappedObj 0 0
       wrappedState
     <> Ok (TCL_OK, -4294967295, NULL) wrappedState.
Proof.
  split; [calc|].
  split.
  - eexists. eexists. split; [calc|]. split; [calc|]. split; [calc|].
    split; [calc|]. eexists. calc.
  - calc.
Qed.

(** C7 as stated fails: the wrong-type path of the copy entry point is
    another error path, and on a plain value it ends in exactly the
    failure of the conversion, while the single-element accessor aborts
    on the same value with a message of its own. *)
Lemma Copy_of_a_plain_value_fails_like_the_conversion :
  typePtr (obj_at plainState plainObj) <> Some tclAbstractListType
  /\ TclAbstractListObjCopy seriesHost NULL plainObj plainState
     = Panic "SetAbstractListFromAny: should never be called"
  /\ TclAbstractListObjCopy seriesHost NULL plainObj plainState
     = SetAbstractListFromAny NULL plainObj plainState
  /\ Tcl_AbstractListObjIndex seriesHost plainObj 0 plainState
     = Panic "Tcl_AbstractListObjIndex called without and AbstractList Obj.".
Proof.
  split; [calc|]. split; [calc|]. split; calc.
Qed.

(** C8 as stated fails: for the payload size SIZE_MAX the sum wraps, the
    block is one byte short of the header and the recorded size is 87, not
    the header size plus the payload size.  And when the block cannot be
    obtained, creation writes the header through a NULL pointer. *)
Lemma NewAbstractListObj_size_wraps :
  exists objPtr s',
    Tcl_NewAbstractListObj seriesHost NULL "arithseries" SIZE_MAX startState
      = Ok objPtr s'
    /\ repSize (rep_at s' objPtr) = 87
    /\ repSize (rep_at s' objPtr) <> sizeof_AbstractList seriesHost + SIZE_MAX
    /\ avail s' = avail startState - 87
    /\ Tcl_NewAbstractListObj seriesHost NULL "arithseries" 24
         (with_avail 0 startState) = Fault.
Proof.
  eexists. eexists. split; [calc|]. split; [calc|]. split; [calc|].
  split; calc.
Qed.

(** * Further properties of the code *)

(** ** Heaps with materialized elements *)

Lemma with_elems_lookup_notin (es : list Z) (strs : list (list ascii))
  (rc : Z) (m : gmap Z Tcl_Obj) (p : Z) :
  p ∉ es -> with_elems es strs rc m !! p = m !! p.
Proof.
  revert strs m. induction es as [|e es IH]; intros strs m Hp; [reflexivity|].
  destruct strs as [|str strs]; [reflexivity|]. simpl.
  apply not_elem_of_cons in Hp as [Hne Hp].
  rewrite IH by exact Hp. apply lookup_insert_ne. congruence.
Qed.

Lemma with_elems_lookup (es : list Z) (strs : list (list ascii)) (rc : Z)
  (m : gmap Z Tcl_Obj) (k : nat) (e : Z) (str : list ascii) :
  NoDup es -> es !! k = Some e -> strs !! k = Some str ->
  with_elems es strs rc m !! e = Some (elem_value str rc).
Proof.
  revert strs m k. induction es as [|e0 es IH]; intros strs m k Hnd He Hs;
    [discriminate|].
  destruct strs as [|str0 strs]; [discriminate|].
  apply NoDup_cons in Hnd as [Hnotin Hnd]. simpl.
  destruct k as [|k].
  - injection He as <-. injection Hs as <-.
    rewrite with_elems_lookup_notin by exact Hnotin. apply lookup_insert_eq.
  - simpl in He, Hs. eapply IH; eassumption.
Qed.

Lemma released_with_elems (es : list Z) (strs : list (list ascii))
  (m : gmap Z Tcl_Obj) :
  length es = length strs -> NoDup es ->
  Forall (fun e => e <> NULL /\ m !! e = None) es ->
  released es (with_elems es strs 1 m) = Some m.
Proof.
  revert strs m. induction es as [|e es IH]; intros strs m Hlen Hnd Hall;
    [reflexivity|].
  destruct strs as [|str strs]; [discriminate|].
  apply NoDup_cons in Hnd as [Hnotin Hnd].
  apply Forall_cons in Hall as [[Hnn Hfresh] Hall].
  simpl. apply Z.eqb_neq in Hnn. rewrite Hnn.
  rewrite with_elems_lookup_notin by exact Hnotin.
  rewrite lookup_insert_eq. simpl.
  assert (Hdel : delete e (with_elems es strs 1 (<[e:=elem_value str 1]> m))
                 = with_elems es strs 1 m).
  { clear IH Hall Hlen. revert strs m Hfresh.
    induction es as [|e' es IH]; intros strs m Hfresh.
    - simpl. destruct strs; apply delete_insert_id; exact Hfresh.
    - apply not_elem_of_cons in Hnotin as [Hne Hnotin].
      apply NoDup_cons in Hnd as [_ Hnd].
      destruct strs as [|str' strs]; simpl.
      + apply delete_insert_id; exact Hfresh.
      + rewrite insert_insert_ne by congruence.
        apply IH; try assumption.
        rewrite lookup_insert_ne by congruence. exact Hfresh. }
  rewrite Hdel. apply IH; [simpl in Hlen; lia|exact Hnd|exact Hall].
Qed.

Lemma released_lookup (es : list Z) (m : gmap Z Tcl_Obj) :
  NoDup es ->
  Forall (fun e => e <> NULL /\ is_Some (m !! e)) es ->
  exists m',
    released es m = Some m'
    /\ forall p,
         m' !! p = if decide (p ∈ es) then m !! p ≫= after_release
                   else m !! p.
Proof.
  revert m. induction es as [|e es IH]; intros m Hnd Hall.
  - exists m. split; [reflexivity|]. intros p.
    destruct (decide (p ∈ [])) as [Hin|_]; [inversion Hin|reflexivity].
  - apply NoDup_cons in Hnd as [Hnotin Hnd].
    apply Forall_cons in Hall as [[Hnn [o Ho]] Hall].
    simpl. apply Z.eqb_neq in Hnn. rewrite Hnn, Ho.
    set (m1 := if refCount o <=? 1 then delete e m
               else <[e := set_refCount (refCount o - 1) o]> m).
    assert (Hm1 : forall p, m1 !! p = if decide (p = e)
                                      then after_release o else m !! p).
    { intros p. unfold m1, after_release.
      destruct (decide (p = e)) as [->|Hne].
      - destruct (refCount o <=? 1);
          [apply lookup_delete_eq|apply lookup_insert_eq].
      - destruct (refCount o <=? 1);
          [apply lookup_delete_ne|apply lookup_insert_ne]; congruence. }
    destruct (IH m1 Hnd) as (m' & Hrel & Hlook).
    { rewrite Forall_forall in Hall |- *. intros e' Hin.
      destruct (Hall e' Hin) as [Hn' Hsome]. split; [exact Hn'|].
      rewrite Hm1. destruct (decide (e' = e)) as [->|_]; [contradiction|].
      exact Hsome. }
    exists m'. split; [exact Hrel|]. intros p. rewrite Hlook, Hm1.
    destruct (decide (p = e)) as [->|Hne].
    + rewrite decide_False by exact Hnotin.
      rewrite decide_True by (left; reflexivity). rewrite Ho. reflexivity.
    + destruct (decide (p ∈ es)) as [Hin|Hnin].
      * rewrite decide_True by (right; exact Hin). reflexivity.
      * rewrite decide_False; [reflexivity|].
        intros Hc. apply elem_of_cons in Hc as [Hc|Hc]; contradiction.
Qed.

Lemma slot_set_slot (k k' f : Z) (r : AbstractList) :
  recognized k ->
  slot k' (set_slot k f r) = if decide (k' = k) then f else slot k' r.
Proof.
  intros [-> | [-> | [-> | [-> | [-> | ->]]]]];
    (destruct (decide _) as [->|Hne]; [reflexivity|]);
    unfold slot, set_slot, TCL_ABSL_NEW, TCL_ABSL_DUPREP, TCL_ABSL_LENGTH,
      TCL_ABSL_INDEX, TCL_ABSL_SLICE, TCL_ABSL_REVERSE in *;
    simpl;
    repeat match goal with
    | |- context [k' =? ?c] => destruct (Z.eqb_spec k' c); try lia
    end; reflexivity.
Qed.

Lemma set_slot_commute (k1 k2 f1 f2 : Z) (r : AbstractList) :
  k1 <> k2 ->
  set_slot k2 f2 (set_slot k1 f1 r) = set_slot k1 f1 (set_slot k2 f2 r).
Proof.
  intros Hne. unfold set_slot.
  repeat match goal with
  | |- context [?k =? ?c] => destruct (Z.eqb_spec k c); subst; try lia
  end; reflexivity.
Qed.

Lemma set_slot_fields (k f : Z) (r : AbstractList) :
  version (set_slot k f r) = version r
  /\ repSize (set_slot k f r) = repSize r
  /\ typeName (set_slot k f r) = typeName r
  /\ elements (set_slot k f r) = elements r
  /\ abstractValue (set_slot k f r) = abstractValue r.
Proof.
  unfold set_slot.
  repeat match goal with
  | |- context [?k =? ?c] => destruct (Z.eqb_spec k c)
  end; repeat split.
Qed.

Lemma SetProc_run (s : State) (objPtr : Z) (o : Tcl_Obj) (r : AbstractList)
  (k f : Z) :
  objs s !! objPtr = Some o ->
  typePtr o = Some tclAbstractListType ->
  ptr1 o <> NULL ->
  reps s !! ptr1 o = Some r ->
  recognized k ->
  Tcl_AbstractListSetProc objPtr k f s
  = Ok TCL_OK (with_reps (insert (ptr1 o) (set_slot k f r)) s).
Proof.
  intros Ho Hty Hnn Hr Hk. unfold Tcl_AbstractListSetProc.
  rewrite (bind_Ok _ _ _ _ _ (deref_obj_Ok _ _ _ Ho)).
  unfold AbstractListGetInternalRep, TclHasInternalRep.
  rewrite bool_decide_true by assumption.
  apply Z.eqb_neq in Hnn. rewrite Hnn.
  destruct Hk as [-> | [-> | [-> | [-> | [-> | ->]]]]]; simpl;
    rewrite (bind_Ok _ _ _ _ _ (update_rep_Ok _ _ _ _ Hr)); reflexivity.
Qed.

Section Lifecycle.

Variable H : Host.

Lemma fill_loop_exact (objPtr objv : Z) (o : Tcl_Obj) (r : AbstractList) f :
  indexProcAt H (indexProc r) = Some f ->
  forall (strs : list (list ascii)) (i : Z) (s : State) (done rest : list Z),
    objs s !! objPtr = Some o ->
    reps s !! ptr1 o = Some r ->
    index_strings (f (abstractValue r)) (length strs) i = Some strs ->
    arrays s !! objv = Some (done ++ rest) ->
    i = Z.of_nat (length done) ->
    length rest = length strs ->
    exists new,
      for_loop (length strs) i
        (fun i =>
           r <- deref_rep (ptr1 o) ;;
           e <- call_indexProc H (indexProc r) objPtr i ;;
           store_slot objv i e ;;;
           Tcl_IncrRefCount e) s
      = Ok tt (mkState (with_elems new strs 1 (objs s)) (reps s)
                 (<[objv := done ++ new]> (arrays s)) (interps s) (avail s))
      /\ length new = length strs
      /\ NoDup new
      /\ Forall (fun e => e <> NULL /\ objs s !! e = None) new.
Proof.
  intros Hf strs. induction strs as [|str strs IH];
    intros i s done rest Ho Hr Hidx Harr Hi Hlen.
  - destruct rest; [|discriminate]. exists []. simpl.
    split; [|split; [reflexivity|split; constructor]].
    unfold ret. f_equal. rewrite insert_id by exact Harr.
    symmetry. apply state_eta.
  - destruct rest as [|x rest]; [discriminate|].
    simpl in Hidx.
    destruct (f (abstractValue r) i) as [str0|] eqn:Ef; [|discriminate].
    destruct (index_strings _ _ (i + 1)) as [strs0|] eqn:Erest; [|discriminate].
    injection Hidx as -> ->.
    simpl length. simpl for_loop.
    destruct (fresh_addr_spec s) as (He0 & Heo & _).
    set (e := fresh_addr s) in *.
    set (s3 := mkState (<[e := elem_value str 1]> (objs s)) (reps s)
                 (<[objv := done ++ e :: rest]> (arrays s)) (interps s)
                 (avail s)).
    assert (Ebody :
      (r <- deref_rep (ptr1 o) ;;
       e <- call_indexProc H (indexProc r) objPtr i ;;
       store_slot objv i e ;;; Tcl_IncrRefCount e) s = Ok tt s3).
    { rewrite (bind_Ok _ _ _ _ _ (deref_rep_Ok _ _ _ Hr)).
      rewrite (bind_Ok _ _ _ _ _ (call_indexProc_Some H _ _ _ _ _ _ _ _ Ho Hr Hf Ef)).
      fold e.
      rewrite (bind_Ok _ _ _ _ _
                 (store_slot_Ok (with_objs (insert e (elem_value str 0)) s)
                    objv i e done rest x Harr Hi)).
      erewrite Tcl_IncrRefCount_Ok by (simpl; apply lookup_insert_eq).
      f_equal. unfold s3, with_objs, with_arrays. simpl.
      rewrite insert_insert_eq. reflexivity. }
    rewrite (bind_Ok _ _ _ _ _ Ebody).
    assert (Hne : e <> objPtr) by (intros ->; congruence).
    destruct (IH (i + 1) s3 (done ++ [e]) rest) as (new & Hrun & Hl & Hnd & Hall).
    + simpl. rewrite lookup_insert_ne by exact Hne. exact Ho.
    + exact Hr.
    + exact Erest.
    + simpl. rewrite lookup_insert_eq. rewrite <- app_assoc. reflexivity.
    + rewrite length_app. simpl. lia.
    + simpl in Hlen. lia.
    + exists (e :: new). split; [|split; [simpl; lia|split]].
      * rewrite Hrun. f_equal. simpl. rewrite insert_insert_eq.
        rewrite <- app_assoc. reflexivity.
      * apply NoDup_cons. split; [|exact Hnd].
        intros Hin. rewrite Forall_forall in Hall.
        destruct (Hall e Hin) as [_ Hnone]. simpl in Hnone.
        rewrite lookup_insert_eq in Hnone. discriminate.
      * apply Forall_cons. split; [split; assumption|].
        eapply Forall_impl; [exact Hall|]. intros e' [Hn' Hnone].
        split; [exact Hn'|]. simpl in Hnone.
        apply lookup_insert_None in Hnone as [Hnone _]. exact Hnone.
Qed.

(** The state the first materialization of a list leaves. *)
Lemma GetElements_fresh_run (s : State) (objPtr : Z) (o : Tcl_Obj)
  (r : AbstractList) (n : Z) f (strs : list (list ascii))
  (interp objc0 objv0 : Z) :
  objs s !! objPtr = Some o ->
  typePtr o = Some tclAbstractListType ->
  reps s !! ptr1 o = Some r ->
  call_lengthProc H (lengthProc r) objPtr s = Ok n s ->
  0 < n <= INT_MAX ->
  indexProcAt H (indexProc r) = Some f ->
  index_strings (f (abstractValue r)) (Z.to_nat n) 0 = Some strs ->
  elements r = NULL ->
  to_size_t (sizeof_ptr H * n) <= avail s ->
  exists objv new,
    Tcl_AbstractListObjGetElements H interp objPtr objc0 objv0 s
    = Ok (TCL_OK, n, objv)
        (mkState (with_elems new strs 1 (objs s))
           (<[ptr1 o := set_elements objv r]> (reps s))
           (<[objv := new]> (arrays s)) (interps s)
           (avail s - to_size_t (sizeof_ptr H * n)))
    /\ objv <> NULL /\ arrays s !! objv = None
    /\ length new = Z.to_nat n
    /\ NoDup new
    /\ Forall (fun e => e <> NULL /\ objs s !! e = None) new.
Proof.
  intros Ho Hty Hr Hlen Hn Hf Hidx Enull Hmem.
  assert (Eint : to_int n = n) by (apply to_int_id; unfold INT_MIN; lia).
  pose proof (index_strings_length _ _ _ _ Hidx) as Hls.
  unfold Tcl_AbstractListObjGetElements.
  rewrite (bind_Ok _ _ _ _ _ (deref_obj_Ok _ _ _ Ho)).
  unfold AbstractListGetInternalRep, TclHasInternalRep.
  rewrite bool_decide_true by assumption.
  rewrite (bind_Ok _ _ _ _ _ (deref_rep_Ok _ _ _ Hr)).
  rewrite (bind_Ok _ _ _ _ _ Hlen). rewrite Eint.
  destruct (Z.ltb_spec 0 n) as [_|]; [|lia].
  rewrite Enull. simpl (negb _). cbv iota.
  destruct (fresh_addr_spec s) as (Hv0 & _ & _ & Hva & _).
  set (objv := fresh_addr s) in *.
  assert (Ealloc : ckalloc (to_size_t (sizeof_ptr H * n)) s
                   = Ok objv (with_avail (avail s - to_size_t (sizeof_ptr H * n)) s)).
  { unfold ckalloc.
    destruct (Z.leb_spec (to_size_t (sizeof_ptr H * n)) (avail s));
      [reflexivity|lia]. }
  rewrite (bind_Ok _ _ _ _ _ Ealloc).
  apply Z.eqb_neq in Hv0 as Hv0'. rewrite Hv0'.
  unfold as_array. rewrite Hv0'. unfold bind at 1, modify at 1.
  erewrite bind_Ok; cycle 1.
  { apply update_rep_Ok. simpl. exact Hr. }
  match goal with |- context [bind (for_loop _ _ _) _ ?st] => set (s3 := st) end.
  destruct (fill_loop_exact objPtr objv o (set_elements objv r) f Hf strs 0 s3
              [] (replicate (Z.to_nat n) (uninit_ptr H)))
    as (new & Hloop & Hl & Hnd & Hall).
  { exact Ho. }
  { simpl. apply lookup_insert_eq. }
  { rewrite Hls. exact Hidx. }
  { simpl. apply lookup_insert_eq. }
  { reflexivity. }
  { rewrite length_replicate. symmetry. exact Hls. }
  rewrite Hls in Hloop. rewrite (bind_Ok _ _ _ _ _ Hloop).
  exists objv, new. split.
  { unfold ret. f_equal. simpl. rewrite insert_insert_eq. reflexivity. }
  repeat split; try assumption. lia.
Qed.

(** The release loop of the destructor is the pure release of the cached
    entries, in order. *)
Lemma release_loop (a : Z) :
  forall (rest : list Z) (i : Z) (s : State) (done : list Z),
    arrays s !! a = Some (done ++ rest) ->
    i = Z.of_nat (length done) ->
    for_loop (length rest) i
      (fun i =>
         e <- load_slot a i ;;
         if e =? NULL then ret tt else Tcl_DecrRefCount e) s
    = match released rest (objs s) with
      | Some m => Ok tt (mkState m (reps s) (arrays s) (interps s) (avail s))
      | None => Fault
      end.
Proof.
  induction rest as [|e rest IH]; intros i s done Harr Hi.
  - simpl. unfold ret. f_equal. symmetry. apply state_eta.
  - simpl length. simpl for_loop.
    assert (Eload : load_slot a i s = Ok e s).
    { unfold load_slot. rewrite Harr. subst i. rewrite Nat2Z.id.
      rewrite lookup_app_r by lia. rewrite Nat.sub_diag. simpl.
      destruct (Z.leb_spec 0 (Z.of_nat (length done))); [reflexivity|lia]. }
    unfold bind at 1. unfold bind at 1. rewrite Eload. simpl released.
    assert (Hnext : forall s1,
      arrays s1 = arrays s -> reps s1 = reps s -> interps s1 = interps s ->
      avail s1 = avail s ->
      for_loop (length rest) (i + 1)
        (fun i => e <- load_slot a i ;;
                  if e =? NULL then ret tt else Tcl_DecrRefCount e) s1
      = match released rest (objs s1) with
        | Some m => Ok tt (mkState m (reps s) (arrays s) (interps s) (avail s))
        | None => Fault
        end).
    { intros s1 Ha Hr Hin Hav.
      rewrite (IH (i + 1) s1 (done ++ [e])).
      - rewrite Ha, Hr, Hin, Hav. reflexivity.
      - rewrite Ha, Harr, <- app_assoc. reflexivity.
      - rewrite length_app. simpl. lia. }
    destruct (e =? NULL).
    + apply Hnext; reflexivity.
    + unfold Tcl_DecrRefCount, bind, deref_obj.
      destruct (objs s !! e) as [v|]; [|reflexivity].
      destruct (refCount v <=? 1); apply Hnext; reflexivity.
Qed.

(** ** Teardown *)

Lemma ckfree_rep_Ok (s : State) (p : Z) (r : AbstractList) :
  reps s !! p = Some r -> ckfree_rep p s = Ok tt (with_reps (delete p) s).
Proof.
  intros Hr. unfold ckfree_rep.
  rewrite (bind_Ok _ _ _ _ _ (deref_rep_Ok _ _ _ Hr)). reflexivity.
Qed.

Lemma Free_run_uncached (s : State) (objPtr : Z) (o : Tcl_Obj)
  (r : AbstractList) :
  objs s !! objPtr = Some o ->
  reps s !! ptr1 o = Some r ->
  elements r = NULL ->
  FreeAbstractListInternalRep H objPtr s
  = Ok tt (mkState (<[objPtr := cleared o]> (objs s))
             (delete (ptr1 o) (reps s)) (arrays s) (interps s) (avail s)).
Proof.
  intros Ho Hr Enull. unfold FreeAbstractListInternalRep.
  rewrite (bind_Ok _ _ _ _ _ (deref_obj_Ok _ _ _ Ho)).
  rewrite (bind_Ok _ _ _ _ _ (deref_rep_Ok _ _ _ Hr)).
  rewrite Enull. simpl (NULL =? NULL). cbv iota.
  rewrite (bind_Ok _ _ _ _ _ (eq_refl : ret tt s = Ok tt s)).
  rewrite (bind_Ok _ _ _ _ _ (ckfree_rep_Ok _ _ _ Hr)).
  erewrite bind_Ok by (apply update_obj_Ok; simpl; exact Ho).
  erewrite update_obj_Ok by (simpl; apply lookup_insert_eq).
  f_equal. unfold with_objs, with_reps, cleared. simpl.
  rewrite insert_insert_eq. reflexivity.
Qed.

Lemma Free_run_cached (s : State) (objPtr : Z) (o o' : Tcl_Obj)
  (r : AbstractList) (arr : list Z) (n : Z) (m : gmap Z Tcl_Obj) :
  objs s !! objPtr = Some o ->
  reps s !! ptr1 o = Some r ->
  elements r <> NULL ->
  arrays s !! elements r = Some arr ->
  call_lengthProc H (lengthProc r) objPtr s = Ok n s ->
  Z.to_nat n = length arr ->
  released arr (objs s) = Some m ->
  m !! objPtr = Some o' ->
  FreeAbstractListInternalRep H objPtr s
  = Ok tt (mkState (<[objPtr := cleared o']> m)
             (delete (ptr1 o) (reps s)) (delete (elements r) (arrays s))
             (interps s) (avail s)).
Proof.
  intros Ho Hr Hnn Harr Hlen Hn Hrel Ho'. unfold FreeAbstractListInternalRep.
  rewrite (bind_Ok _ _ _ _ _ (deref_obj_Ok _ _ _ Ho)).
  rewrite (bind_Ok _ _ _ _ _ (deref_rep_Ok _ _ _ Hr)).
  apply Z.eqb_neq in Hnn. rewrite Hnn.
  set (s1 := mkState m (reps s) (arrays s) (interps s) (avail s)).
  assert (Eloop :
    (llen <- call_lengthProc H (lengthProc r) objPtr ;;
     for_loop (Z.to_nat llen) 0
       (fun i => e <- load_slot (elements r) i ;;
                 if e =? NULL then ret tt else Tcl_DecrRefCount e) ;;;
     ckfree_array (elements r)) s
    = Ok tt (with_arrays (delete (elements r)) s1)).
  { rewrite (bind_Ok _ _ _ _ _ Hlen). rewrite Hn.
    assert (Erel :
      for_loop (length arr) 0
        (fun i => e <- load_slot (elements r) i ;;
                  if e =? NULL then ret tt else Tcl_DecrRefCount e) s
      = Ok tt s1).
    { rewrite (release_loop (elements r) arr 0 s [] Harr eq_refl).
      rewrite Hrel. reflexivity. }
    rewrite (bind_Ok _ _ _ _ _ Erel).
    unfold ckfree_array. simpl. rewrite Harr. reflexivity. }
  rewrite (bind_Ok _ _ _ _ _ Eloop).
  rewrite (bind_Ok _ _ _ _ _
             (ckfree_rep_Ok (with_arrays (delete (elements r)) s1) _ _ Hr)).
  erewrite bind_Ok by (apply update_obj_Ok; simpl; exact Ho').
  erewrite update_obj_Ok by (simpl; apply lookup_insert_eq).
  f_equal. unfold with_objs, with_reps, cleared. simpl.
  rewrite insert_insert_eq. reflexivity.
Qed.

(** X1.  The destructor of a list whose element cache was never
    materialized calls no operation of the subtype: it frees the header
    block and sets both representation pointers of the value to NULL;
    every other value, every element array and every interpreter is left
    as it was. *)
Theorem Free_without_cache_frees_the_header_only
  (s : State) (objPtr : Z) (o : Tcl_Obj) (r : AbstractList) :
  objs s !! objPtr = Some o ->
  reps s !! ptr1 o = Some r ->
  elements r = NULL ->
  exists s',
    FreeAbstractListInternalRep H objPtr s = Ok tt s'
    /\ objs s' = <[objPtr := set_ptr2 NULL (set_ptr1 NULL o)]> (objs s)
    /\ reps s' = delete (ptr1 o) (reps s)
    /\ arrays s' = arrays s /\ interps s' = interps s.
Proof.
  intros Ho Hr Enull. eexists. split.
  - exact (Free_run_uncached s objPtr o r Ho Hr Enull).
  - repeat split.
Qed.

(** X2.  The destructor of a list with a materialized cache of distinct,
    live, non-NULL entries, as many as the length operation reports,
    releases exactly one reference of each entry (an entry held once more
    is destroyed), frees the array and the header, clears the two
    pointers of the value and touches no other value. *)
Theorem Free_releases_each_cached_element
  (s : State) (objPtr : Z) (o : Tcl_Obj) (r : AbstractList)
  (arr : list Z) :
  objs s !! objPtr = Some o ->
  reps s !! ptr1 o = Some r ->
  elements r <> NULL ->
  arrays s !! elements r = Some arr ->
  call_lengthProc H (lengthProc r) objPtr s = Ok (Z.of_nat (length arr)) s ->
  NoDup arr ->
  Forall (fun e => e <> NULL /\ is_Some (objs s !! e)) arr ->
  objPtr ∉ arr ->
  exists s',
    FreeAbstractListInternalRep H objPtr s = Ok tt s'
    /\ (forall e v, e ∈ arr -> objs s !! e = Some v ->
          objs s' !! e = after_release v)
    /\ (forall p, p ∉ arr -> p <> objPtr -> objs s' !! p = objs s !! p)
    /\ objs s' !! objPtr = Some (set_ptr2 NULL (set_ptr1 NULL o))
    /\ reps s' = delete (ptr1 o) (reps s)
    /\ arrays s' = delete (elements r) (arrays s).
Proof.
  intros Ho Hr Hnn Harr Hlen Hnd Hall Hnotin.
  destruct (released_lookup arr (objs s) Hnd Hall) as (m & Hrel & Hlook).
  assert (Hm : m !! objPtr = Some o).
  { rewrite Hlook, decide_False by exact Hnotin. exact Ho. }
  eexists. split.
  - eapply Free_run_cached; try eassumption. apply Nat2Z.id.
  - simpl. split; [|split; [|split; [|split; reflexivity]]].
    + intros e v Hin Hv.
      rewrite lookup_insert_ne by (intros ->; contradiction).
      rewrite Hlook, decide_True by exact Hin. rewrite Hv. reflexivity.
    + intros p Hp Hne. rewrite lookup_insert_ne by congruence.
      rewrite Hlook, decide_False by exact Hp. reflexivity.
    + apply lookup_insert_eq.
Qed.

(** X3.  Materializing the elements of a list of 1 to INT_MAX elements
    and then destroying its representation returns the heap of values to
    what it was before the two calls, but for the cleared pointers of the
    list itself: no element and no array outlives the header. *)
Theorem materialize_then_free_leaks_nothing
  (s : State) (objPtr : Z) (o : Tcl_Obj) (r : AbstractList) (n : Z)
  f (strs : list (list ascii)) (interp objc0 objv0 : Z) :
  objs s !! objPtr = Some o ->
  typePtr o = Some tclAbstractListType ->
  reps s !! ptr1 o = Some r ->
  call_lengthProc H (lengthProc r) objPtr s = Ok n s ->
  0 < n <= INT_MAX ->
  indexProcAt H (indexProc r) = Some f ->
  index_strings (f (abstractValue r)) (Z.to_nat n) 0 = Some strs ->
  elements r = NULL ->
  to_size_t (sizeof_ptr H * n) <= avail s ->
  exists objv s1 s2,
    Tcl_AbstractListObjGetElements H interp objPtr objc0 objv0 s
      = Ok (TCL_OK, n, objv) s1
    /\ FreeAbstractListInternalRep H objPtr s1 = Ok tt s2
    /\ objs s2 = <[objPtr := set_ptr2 NULL (set_ptr1 NULL o)]> (objs s)
    /\ reps s2 = delete (ptr1 o) (reps s)
    /\ arrays s2 = arrays s.
Proof.
  intros Ho Hty Hr Hlen Hn Hf Hidx Enull Hmem.
  destruct (GetElements_fresh_run s objPtr o r n f strs interp objc0 objv0
              Ho Hty Hr Hlen Hn Hf Hidx Enull Hmem)
    as (objv & new & Hrun & Hv0 & Hva & Hl & Hnd & Hall).
  pose proof (index_strings_length _ _ _ _ Hidx) as Hls.
  destruct (call_lengthProc_inv H _ _ _ _ _ Hlen)
    as (_ & g & o0 & r0 & Hg & Ho0 & Hr0 & Hnval).
  assert (o0 = o) by congruence. subst o0.
  assert (r0 = r) by congruence. subst r0.
  assert (Hnotin : objPtr ∉ new).
  { intros Hin. rewrite Forall_forall in Hall.
    destruct (Hall _ Hin) as [_ Hnone]. congruence. }
  eexists. eexists. eexists. split; [exact Hrun|].
  split.
  - eapply (Free_run_cached _ objPtr o o (set_elements objv r) new n (objs s)).
    + simpl. rewrite with_elems_lookup_notin by exact Hnotin. exact Ho.
    + simpl. apply lookup_insert_eq.
    + exact Hv0.
    + simpl. apply lookup_insert_eq.
    + rewrite Hnval.
      apply (call_lengthProc_Ok H _ _ _ g o (set_elements objv r)).
      * exact Hg.
      * simpl. rewrite with_elems_lookup_notin by exact Hnotin. exact Ho.
      * simpl. apply lookup_insert_eq.
    + lia.
    + simpl. apply released_with_elems; [lia|exact Hnd|exact Hall].
    + exact Ho.
  - simpl. split; [reflexivity|]. split.
    + apply delete_insert_eq.
    + apply delete_insert_id. exact Hva.
Qed.

(** X4.  The first materialization of a list of 1 to INT_MAX elements
    allocates one new array of exactly that many entries, all distinct,
    each a value that did not exist before and is now held with exactly
    one reference; it records the array in the header, charges the
    allocator with the array alone and leaves every other value and the
    interpreters as they were. *)
Theorem first_materialization_creates_fresh_single_reference_elements
  (s : State) (objPtr : Z) (o : Tcl_Obj) (r : AbstractList) (n : Z)
  f (strs : list (list ascii)) (interp objc0 objv0 : Z) :
  objs s !! objPtr = Some o ->
  typePtr o = Some tclAbstractListType ->
  reps s !! ptr1 o = Some r ->
  call_lengthProc H (lengthProc r) objPtr s = Ok n s ->
  0 < n <= INT_MAX ->
  indexProcAt H (indexProc r) = Some f ->
  index_strings (f (abstractValue r)) (Z.to_nat n) 0 = Some strs ->
  elements r = NULL ->
  to_size_t (sizeof_ptr H * n) <= avail s ->
  exists objv arr s',
    Tcl_AbstractListObjGetElements H interp objPtr objc0 objv0 s
      = Ok (TCL_OK, n, objv) s'
    /\ objv <> NULL /\ arrays s !! objv = None
    /\ arrays s' = <[objv := arr]> (arrays s)
    /\ Z.of_nat (length arr) = n
    /\ NoDup arr
    /\ (forall e, e ∈ arr ->
          e <> NULL /\ objs s !! e = None
          /\ exists str, objs s' !! e = Some (elem_value str 1))
    /\ (forall p, p ∉ arr -> objs s' !! p = objs s !! p)
    /\ reps s' = <[ptr1 o := set_elements objv r]> (reps s)
    /\ interps s' = interps s
    /\ avail s' = avail s - to_size_t (sizeof_ptr H * n).
Proof.
  intros Ho Hty Hr Hlen Hn Hf Hidx Enull Hmem.
  destruct (GetElements_fresh_run s objPtr o r n f strs interp objc0 objv0
              Ho Hty Hr Hlen Hn Hf Hidx Enull Hmem)
    as (objv & new & Hrun & Hv0 & Hva & Hl & Hnd & Hall).
  pose proof (index_strings_length _ _ _ _ Hidx) as Hls.
  exists objv, new. eexists. split; [exact Hrun|]. simpl.
  split; [exact Hv0|]. split; [exact Hva|]. split; [reflexivity|].
  split; [lia|]. split; [exact Hnd|]. split; [|split; [|repeat split]].
  - intros e Hin. rewrite Forall_forall in Hall.
    destruct (Hall e Hin) as [Hnn Hnone]. split; [exact Hnn|].
    split; [exact Hnone|].
    apply list_elem_of_lookup in Hin as [k Hk].
    destruct (lookup_lt_is_Some_2 strs k) as [str Hstr].
    { apply lookup_lt_Some in Hk. lia. }
    exists str. eapply with_elems_lookup; eassumption.
  - intros p Hp. apply with_elems_lookup_notin. exact Hp.
Qed.

(** ** The error path of materialization *)

(** X5.  When the allocator refuses the element array, the bulk accessor
    returns TCL_ERROR, writes neither output parameter and installs no
    cache; with an interpreter it leaves the message
    "max length of a Tcl list exceeded" and the error code TCL MEMORY
    there, and without one it changes nothing at all. *)
Theorem GetElements_reports_allocation_failure
  (s : State) (objPtr : Z) (o : Tcl_Obj) (r : AbstractList)
  (n interp objc0 objv0 : Z) :
  objs s !! objPtr = Some o ->
  typePtr o = Some tclAbstractListType ->
  reps s !! ptr1 o = Some r ->
  call_lengthProc H (lengthProc r) objPtr s = Ok n s ->
  0 < to_int n ->
  elements r = NULL ->
  avail s < to_size_t (sizeof_ptr H * to_int n) ->
  (interp = NULL ->
   Tcl_AbstractListObjGetElements H interp objPtr objc0 objv0 s
   = Ok (TCL_ERROR, objc0, objv0) s)
  /\ (forall i, interp <> NULL -> interps s !! interp = Some i ->
      Tcl_AbstractListObjGetElements H interp objPtr objc0 objv0 s
      = Ok (TCL_ERROR, objc0, objv0)
          (with_interps
             (insert interp
                (mkInterp "max length of a Tcl list exceeded"
                   ["TCL"; "MEMORY"]%string)) s)).
Proof.
  intros Ho Hty Hr Hlen Hpos Enull Hmem.
  assert (Hrun :
    Tcl_AbstractListObjGetElements H interp objPtr objc0 objv0 s
    = ((if negb (interp =? NULL)
        then Tcl_SetObjResult interp "max length of a Tcl list exceeded" ;;;
             Tcl_SetErrorCode interp ["TCL"; "MEMORY"]%string
        else ret tt) ;;; ret (TCL_ERROR, objc0, objv0)) s).
  { unfold Tcl_AbstractListObjGetElements.
    rewrite (bind_Ok _ _ _ _ _ (deref_obj_Ok _ _ _ Ho)).
    unfold AbstractListGetInternalRep, TclHasInternalRep.
    rewrite bool_decide_true by assumption.
    rewrite (bind_Ok _ _ _ _ _ (deref_rep_Ok _ _ _ Hr)).
    rewrite (bind_Ok _ _ _ _ _ Hlen).
    destruct (Z.ltb_spec 0 (to_int n)); [|lia].
    rewrite Enull. simpl (negb (NULL =? NULL)). cbv iota.
    assert (Ealloc : ckalloc (to_size_t (sizeof_ptr H * to_int n)) s
                     = Ok NULL s).
    { unfold ckalloc.
      destruct (Z.leb_spec (to_size_t (sizeof_ptr H * to_int n)) (avail s));
        [lia|reflexivity]. }
    rewrite (bind_Ok _ _ _ _ _ Ealloc). reflexivity. }
  rewrite Hrun. split.
  - intros ->. reflexivity.
  - intros i Hi Hin. apply Z.eqb_neq in Hi. rewrite Hi. simpl negb. cbv iota.
    unfold bind, Tcl_SetObjResult, Tcl_SetErrorCode. rewrite Hin. simpl.
    rewrite lookup_insert_eq. simpl. unfold with_interps. simpl.
    rewrite insert_insert_eq. reflexivity.
Qed.

(** ** Copies *)

(** X6.  The copy entry point aborts the process exactly when the value
    has no abstract-list representation, always with the message of the
    conversion routine; the branch that would return NULL is never taken.
    Whenever it returns, the result is a new non-NULL handle. *)
Theorem Copy_panics_or_returns_a_new_handle
  (s : State) (interp objPtr : Z) (o : Tcl_Obj) :
  objs s !! objPtr = Some o ->
  (AbstractListGetInternalRep o = NULL ->
   TclAbstractListObjCopy H interp objPtr s
   = Panic "SetAbstractListFromAny: should never be called")
  /\ (forall msg,
        TclAbstractListObjCopy H interp objPtr s = Panic msg ->
        AbstractListGetInternalRep o = NULL)
  /\ (forall c s',
        TclAbstractListObjCopy H interp objPtr s = Ok c s' ->
        c <> NULL /\ objs s !! c = None
        /\ AbstractListGetInternalRep o <> NULL).
Proof.
  intros Ho. unfold TclAbstractListObjCopy.
  rewrite (bind_Ok _ _ _ _ _ (deref_obj_Ok _ _ _ Ho)).
  destruct (Z.eqb_spec (AbstractListGetInternalRep o) NULL) as [E|E].
  - split; [intros _; reflexivity|]. split; [intros _ _; exact E|].
    intros c s' Hc. discriminate Hc.
  - split; [intros E'; contradiction|].
    rewrite (bind_Ok _ _ _ _ _ (eq_refl : ret false s = Ok false s)).
    cbv iota. split.
    + intros msg Hp. exfalso. revert Hp.
      assert (Hq : quiet (copyPtr <- TclNewObj ;;
                          Tcl_InvalidateStringRep copyPtr ;;;
                          DupAbstractListInternalRep H objPtr copyPtr ;;;
                          ret copyPtr)).
      { apply quiet_bind; [apply quiet_TclNewObj|]. intros c.
        apply quiet_bind; [apply quiet_update_obj|]. intros _.
        apply quiet_bind; [apply quiet_DupAbstractListInternalRep|].
        intros _. apply quiet_ret. }
      apply Hq.
    + intros c s' Hb.
      apply bind_inv in Hb as (c0 & s0 & Hnew & Hb).
      injection Hnew as <- <-.
      apply bind_inv in Hb as ([] & s1 & _ & Hb).
      apply bind_inv in Hb as ([] & s2 & _ & Hb).
      injection Hb as <- <-.
      destruct (fresh_addr_spec s) as (H0 & Hfo & _). auto.
Qed.

Lemma set_typeName_same (r : AbstractList) (v : list (option Z)) :
  set_typeName (typeName r) (set_abstractValue v r) = set_abstractValue v r.
Proof. destruct r. reflexivity. Qed.

(** The state a successful duplication into a handle leaves. *)
Lemma Dup_run (s : State) (srcPtr copyPtr : Z) (src c : Tcl_Obj)
  (srcRep : AbstractList) (payload : list (option Z)) :
  objs s !! srcPtr = Some src ->
  reps s !! ptr1 src = Some srcRep ->
  objs s !! copyPtr = Some c ->
  copyPtr <> srcPtr ->
  sizeof_AbstractList H <= repSize srcRep ->
  repSize srcRep <= avail s ->
  (dupRepProc srcRep = NULL
   /\ payload = assigned_payload H srcRep (repSize srcRep))
  \/ (dupRepProc srcRep <> NULL
      /\ exists g,
           dupRepProcAt H (dupRepProc srcRep) = Some g
           /\ payload
              = g (abstractValue srcRep)
                  (assigned_payload H srcRep (repSize srcRep))) ->
  DupAbstractListInternalRep H srcPtr copyPtr s
  = Ok tt
      (mkState
         (<[copyPtr := set_typePtr (Some tclAbstractListType)
                         (set_ptr2 (fresh_addr s + offsetof_abstractValue H)
                            (set_ptr1 (fresh_addr s) c))]> (objs s))
         (<[fresh_addr s := set_abstractValue payload srcRep]> (reps s))
         (arrays s) (interps s) (avail s - repSize srcRep)).
Proof.
  intros Ho Hr Hc Hne Hsize Hav Hhook.
  destruct (fresh_addr_spec s) as (Hp0 & _ & Hpr & _).
  set (p := fresh_addr s) in *.
  assert (Hpne : p <> ptr1 src) by (intros E; rewrite E in Hpr; congruence).
  unfold DupAbstractListInternalRep, Tcl_AbstractListRepPtr.
  rewrite (bind_Ok _ _ _ _ _ (deref_obj_Ok _ _ _ Ho)).
  rewrite (bind_Ok _ _ _ _ _ (deref_rep_Ok _ _ _ Hr)).
  assert (Ealloc : ckalloc (repSize srcRep) s
                   = Ok p (with_avail (avail s - repSize srcRep) s)).
  { unfold ckalloc. destruct (Z.leb_spec (repSize srcRep) (avail s));
      [reflexivity|lia]. }
  rewrite (bind_Ok _ _ _ _ _ Ealloc).
  unfold struct_assign.
  destruct (Z.leb_spec (sizeof_AbstractList H) (repSize srcRep)); [|lia].
  unfold store_rep. apply Z.eqb_neq in Hp0 as Hp0'. rewrite Hp0'.
  destruct (Z.leb_spec (sizeof_AbstractList H) (repSize srcRep)); [|lia].
  unfold bind at 1, modify at 1.
  erewrite bind_Ok by (apply update_obj_Ok; simpl; exact Hc).
  erewrite bind_Ok by (apply update_obj_Ok; simpl; apply lookup_insert_eq).
  erewrite bind_Ok by (apply update_rep_Ok; simpl; apply lookup_insert_eq).
  erewrite bind_Ok by (apply update_obj_Ok; simpl; apply lookup_insert_eq).
  rewrite set_typeName_same.
  destruct Hhook as [[Enull ->] | [Hnn (g & Hg & ->)]].
  - rewrite Enull. simpl (NULL =? NULL). cbv iota. unfold ret. f_equal.
    unfold with_objs, with_reps, with_avail. simpl.
    rewrite !insert_insert_eq. reflexivity.
  - apply Z.eqb_neq in Hnn. rewrite Hnn.
    unfold call_dupRepProc. rewrite Hg.
    erewrite bind_Ok; cycle 1.
    { apply deref_obj_Ok. simpl. rewrite !insert_insert_eq.
      rewrite lookup_insert_ne by exact Hne. exact Ho. }
    erewrite bind_Ok; cycle 1.
    { apply deref_rep_Ok. simpl. rewrite insert_insert_eq.
      rewrite lookup_insert_ne by exact Hpne. exact Hr. }
    erewrite bind_Ok; cycle 1.
    { apply deref_obj_Ok. simpl. apply lookup_insert_eq. }
    erewrite update_rep_Ok by (simpl; apply lookup_insert_eq).
    f_equal. unfold with_objs, with_reps, with_avail. simpl.
    rewrite !insert_insert_eq. reflexivity.
Qed.

(** The state a successful copy leaves. *)
Lemma Copy_run (s : State) (interp objPtr : Z) (o : Tcl_Obj)
  (r : AbstractList) (payload : list (option Z)) :
  objs s !! objPtr = Some o ->
  typePtr o = Some tclAbstractListType ->
  ptr1 o <> NULL ->
  reps s !! ptr1 o = Some r ->
  sizeof_AbstractList H <= repSize r ->
  repSize r <= avail s ->
  (dupRepProc r = NULL
   /\ payload = assigned_payload H r (repSize r))
  \/ (dupRepProc r <> NULL
      /\ exists g,
           dupRepProcAt H (dupRepProc r) = Some g
           /\ payload
              = g (abstractValue r) (assigned_payload H r (repSize r))) ->
  exists c p,
    TclAbstractListObjCopy H interp objPtr s
    = Ok c
        (mkState
           (<[c := mkObj 0 None 0 (Some tclAbstractListType) p
                     (p + offsetof_abstractValue H)]> (objs s))
           (<[p := set_abstractValue payload r]> (reps s))
           (arrays s) (interps s) (avail s - repSize r))
    /\ c <> NULL /\ objs s !! c = None
    /\ p <> NULL /\ reps s !! p = None.
Proof.
  intros Ho Hty Hnn Hr Hsize Hav Hhook.
  destruct (fresh_addr_spec s) as (Hc0 & Hco & _).
  set (c := fresh_addr s) in *.
  set (c0 := mkObj 0 None 0 None NULL NULL).
  set (s0 := mkState (<[c := c0]> (objs s)) (reps s) (arrays s) (interps s)
               (avail s)).
  destruct (fresh_addr_spec s0) as (Hp0 & _ & Hpr & _).
  exists c, (fresh_addr s0).
  split; [|repeat split; assumption].
  unfold TclAbstractListObjCopy.
  rewrite (bind_Ok _ _ _ _ _ (deref_obj_Ok _ _ _ Ho)).
  unfold AbstractListGetInternalRep, TclHasInternalRep.
  rewrite bool_decide_true by assumption.
  apply Z.eqb_neq in Hnn. rewrite Hnn.
  rewrite (bind_Ok _ _ _ _ _ (eq_refl : ret false s = Ok false s)).
  cbv iota. unfold bind at 1, TclNewObj at 1. fold c.
  assert (Einv : Tcl_InvalidateStringRep c
                   (with_objs (insert c (mkObj 0 (Some tclEmptyString) 0 None
                                           NULL NULL)) s)
                 = Ok tt s0).
  { unfold Tcl_InvalidateStringRep.
    erewrite update_obj_Ok by (simpl; apply lookup_insert_eq).
    f_equal. unfold s0, with_objs. simpl. rewrite insert_insert_eq.
    reflexivity. }
  rewrite (bind_Ok _ _ _ _ _ Einv).
  assert (Hne : c <> objPtr) by (intros E; rewrite E in Hco; congruence).
  rewrite (bind_Ok _ _ _ _ _
             (Dup_run s0 objPtr c o c0 r payload
                ltac:(simpl; rewrite lookup_insert_ne by exact Hne; exact Ho)
                Hr ltac:(simpl; apply lookup_insert_eq) Hne Hsize Hav Hhook)).
  unfold ret. f_equal. simpl. rewrite insert_insert_eq. reflexivity.
Qed.

(** X7.  A copy of a list whose recorded size is at least the size of
    the header structure (and which the allocator supplies) is a new
    value with reference count zero and no string form, whose header is a
    new block of the size recorded in the source: version, size, type name, cache pointer and all six
    operation slots are those of the source; the source, the arrays and
    the interpreters are untouched.  When no duplicate hook is registered
    the payload is copied only as far as the header structure reaches, the
    rest of the new block stays as the allocator left it. *)
Theorem Copy_duplicates_the_header_into_a_new_block
  (s : State) (interp objPtr : Z) (o : Tcl_Obj) (r : AbstractList) :
  objs s !! objPtr = Some o ->
  typePtr o = Some tclAbstractListType ->
  ptr1 o <> NULL ->
  reps s !! ptr1 o = Some r ->
  sizeof_AbstractList H <= repSize r ->
  repSize r <= avail s ->
  (dupRepProc r <> NULL -> is_Some (dupRepProcAt H (dupRepProc r))) ->
  exists c p r' s',
    TclAbstractListObjCopy H interp objPtr s = Ok c s'
    /\ c <> NULL /\ objs s !! c = None
    /\ p <> NULL /\ reps s !! p = None
    /\ objs s' = <[c := mkObj 0 None 0 (Some tclAbstractListType) p
                          (p + offsetof_abstractValue H)]> (objs s)
    /\ reps s' = <[p := r']> (reps s)
    /\ version r' = version r /\ repSize r' = repSize r
    /\ typeName r' = typeName r /\ elements r' = elements r
    /\ (forall k, slot k r' = slot k r)
    /\ (dupRepProc r = NULL ->
        abstractValue r'
        = take (Z.to_nat (sizeof_AbstractList H - offsetof_abstractValue H))
            (abstractValue r)
          ++ replicate (Z.to_nat (repSize r - sizeof_AbstractList H)) None)
    /\ arrays s' = arrays s /\ interps s' = interps s
    /\ avail s' = avail s - repSize r.
Proof.
  intros Ho Hty Hnn Hr Hsize Hav Hhook.
  assert (Hpay : exists payload,
    (dupRepProc r = NULL
     /\ payload = assigned_payload H r (repSize r))
    \/ (dupRepProc r <> NULL
        /\ exists g,
             dupRepProcAt H (dupRepProc r) = Some g
             /\ payload
                = g (abstractValue r) (assigned_payload H r (repSize r)))).
  { destruct (Z.eq_dec (dupRepProc r) NULL) as [E|E].
    - eexists. left. split; [exact E|reflexivity].
    - destruct (Hhook E) as [g Hg]. eexists. right. split; [exact E|].
      exists g. split; [exact Hg|reflexivity]. }
  destruct Hpay as (payload & Hpay).
  destruct (Copy_run s interp objPtr o r payload Ho Hty Hnn Hr Hsize Hav Hpay)
    as (c & p & Hrun & Hc0 & Hco & Hp0 & Hpr).
  exists c, p, (set_abstractValue payload r). eexists.
  split; [exact Hrun|]. simpl.
  split; [exact Hc0|]. split; [exact Hco|]. split; [exact Hp0|].
  split; [exact Hpr|]. repeat (split; [reflexivity|]).
  split; [|repeat split].
  intros Enull. destruct Hpay as [[_ ->] | [Hnn' _]]; [reflexivity|].
  contradiction.
Qed.

(** X8.  For a list whose recorded size is at least the size of the
    header structure: when the duplicate hook of the subtype reproduces
    the payload, the copy is a different handle that reports the same length as the
    source, the source still reports its length, and the copy produces at
    every position the element the source produces there. *)
Theorem Copy_with_payload_hook_keeps_length_and_elements
  (s : State) (interp objPtr : Z) (o : Tcl_Obj) (r : AbstractList)
  (n : Z) g :
  objs s !! objPtr = Some o ->
  typePtr o = Some tclAbstractListType ->
  ptr1 o <> NULL ->
  reps s !! ptr1 o = Some r ->
  sizeof_AbstractList H <= repSize r ->
  repSize r <= avail s ->
  dupRepProc r <> NULL ->
  dupRepProcAt H (dupRepProc r) = Some g ->
  g (abstractValue r) (assigned_payload H r (repSize r)) = abstractValue r ->
  call_lengthProc H (lengthProc r) objPtr s = Ok n s ->
  exists c s',
    TclAbstractListObjCopy H interp objPtr s = Ok c s'
    /\ c <> objPtr
    /\ Tcl_AbstractListObjLength H c s' = Ok n s'
    /\ Tcl_AbstractListObjLength H objPtr s' = Ok n s'
    /\ forall f i str,
         indexProcAt H (indexProc r) = Some f ->
         f (abstractValue r) i = Some str ->
         exists e s'',
           Tcl_AbstractListObjIndex H c i s' = Ok e s''
           /\ objs s' !! e = None
           /\ objs s'' !! e = Some (elem_value str 0).
Proof.
  intros Ho Hty Hnn Hr Hsize Hav Hhn Hg Hpay Hlen.
  destruct (Copy_run s interp objPtr o r (abstractValue r) Ho Hty Hnn Hr
              Hsize Hav)
    as (c & p & Hrun & Hc0 & Hco & Hp0 & Hpr).
  { right. split; [exact Hhn|]. exists g. split; [exact Hg|].
    symmetry. exact Hpay. }
  replace (set_abstractValue (abstractValue r) r) with r in Hrun
    by (destruct r; reflexivity).
  destruct (call_lengthProc_inv H _ _ _ _ _ Hlen)
    as (_ & fl & o0 & r0 & Hfl & Ho0 & Hr0 & Hnval).
  assert (o0 = o) by congruence. subst o0.
  assert (r0 = r) by congruence. subst r0.
  assert (Hne : c <> objPtr) by (intros E; rewrite E in Hco; congruence).
  assert (Hpne : p <> ptr1 o) by (intros E; rewrite E in Hpr; congruence).
  eexists c, _. split; [exact Hrun|]. split; [exact Hne|].
  set (cobj := mkObj 0 None 0 (Some tclAbstractListType) p
                 (p + offsetof_abstractValue H)).
  match type of Hrun with _ = Ok _ ?st => set (s' := st) in * end.
  assert (Hc' : objs s' !! c = Some cobj) by (simpl; apply lookup_insert_eq).
  assert (Hcr : reps s' !! ptr1 cobj = Some r) by (simpl; apply lookup_insert_eq).
  assert (Ho' : objs s' !! objPtr = Some o).
  { simpl. rewrite lookup_insert_ne by exact Hne. exact Ho. }
  assert (Hr' : reps s' !! ptr1 o = Some r).
  { simpl. rewrite lookup_insert_ne by exact Hpne. exact Hr. }
  split; [|split].
  - unfold Tcl_AbstractListObjLength.
    rewrite (bind_Ok _ _ _ _ _ (deref_obj_Ok _ _ _ Hc')).
    unfold AbstractListGetInternalRep, TclHasInternalRep.
    rewrite bool_decide_true by reflexivity.
    rewrite (bind_Ok _ _ _ _ _ (deref_rep_Ok _ _ _ Hcr)).
    rewrite Hnval. apply (call_lengthProc_Ok H _ _ _ fl cobj r); assumption.
  - unfold Tcl_AbstractListObjLength.
    rewrite (bind_Ok _ _ _ _ _ (deref_obj_Ok _ _ _ Ho')).
    unfold AbstractListGetInternalRep, TclHasInternalRep.
    rewrite bool_decide_true by assumption.
    rewrite (bind_Ok _ _ _ _ _ (deref_rep_Ok _ _ _ Hr')).
    rewrite Hnval. apply (call_lengthProc_Ok H _ _ _ fl o r); assumption.
  - intros f i str Hf Hstr.
    apply (ObjIndex_value H s' c i cobj r f str); try assumption. reflexivity.
Qed.

(** ** Registration and dispatch *)

(** X9.  Registration followed by dispatch: after the length code is
    registered the length entry point returns what that code computes
    from the payload, and after the index code is registered the
    single-element accessor returns a new value holding the string that
    code yields. *)
Theorem SetProc_then_dispatch_calls_the_registered_code
  (s : State) (objPtr : Z) (o : Tcl_Obj) (r : AbstractList)
  (fnl fni : Z) fl fi :
  objs s !! objPtr = Some o ->
  typePtr o = Some tclAbstractListType ->
  ptr1 o <> NULL ->
  reps s !! ptr1 o = Some r ->
  lengthProcAt H fnl = Some fl ->
  indexProcAt H fni = Some fi ->
  (exists s1,
     Tcl_AbstractListSetProc objPtr TCL_ABSL_LENGTH fnl s = Ok TCL_OK s1
     /\ Tcl_AbstractListObjLength H objPtr s1
        = Ok (to_wide (fl (abstractValue r))) s1)
  /\ (exists s1,
        Tcl_AbstractListSetProc objPtr TCL_ABSL_INDEX fni s = Ok TCL_OK s1
        /\ forall i str,
             fi (abstractValue r) i = Some str ->
             exists e s2,
               Tcl_AbstractListObjIndex H objPtr i s1 = Ok e s2
               /\ objs s1 !! e = None
               /\ objs s2 !! e = Some (elem_value str 0)).
Proof.
  intros Ho Hty Hnn Hr Hfl Hfi. split.
  - eexists. split.
    + apply (SetProc_run s objPtr o r); try assumption.
      right; right; left; reflexivity.
    + unfold Tcl_AbstractListObjLength.
      rewrite (bind_Ok _ _ _ _ _ (deref_obj_Ok _ _ _ (Ho : objs (with_reps _ s) !! _ = _))).
      unfold AbstractListGetInternalRep, TclHasInternalRep.
      rewrite bool_decide_true by assumption.
      erewrite bind_Ok by (apply deref_rep_Ok; simpl; apply lookup_insert_eq).
      apply (call_lengthProc_Ok H _ _ _ fl o (set_slot TCL_ABSL_LENGTH fnl r)).
      * exact Hfl.
      * exact Ho.
      * simpl. apply lookup_insert_eq.
  - eexists. split.
    + apply (SetProc_run s objPtr o r); try assumption.
      right; right; right; left; reflexivity.
    + intros i str Hstr.
      apply (ObjIndex_value H _ objPtr i o (set_slot TCL_ABSL_INDEX fni r)
               fi str); try assumption.
      * simpl. apply lookup_insert_eq.
Qed.

(** X10.  No entry point checks that an operation is registered: on a
    list whose length and index slots are still NULL, the length entry
    point, the single-element accessor, the bulk accessor and the string
    projector all call through the NULL pointer. *)
Theorem unregistered_operations_are_called_through_NULL
  (s : State) (objPtr : Z) (o : Tcl_Obj) (r : AbstractList)
  (index interp objc0 objv0 : Z) :
  objs s !! objPtr = Some o ->
  typePtr o = Some tclAbstractListType ->
  reps s !! ptr1 o = Some r ->
  lengthProc r = NULL ->
  indexProc r = NULL ->
  lengthProcAt H NULL = None ->
  indexProcAt H NULL = None ->
  Tcl_AbstractListObjLength H objPtr s = Fault
  /\ Tcl_AbstractListObjIndex H objPtr index s = Fault
  /\ Tcl_AbstractListObjGetElements H interp objPtr objc0 objv0 s = Fault
  /\ UpdateStringOfAbstractList H objPtr s = Fault.
Proof.
  intros Ho Hty Hr Hl Hi Hnl Hni.
  assert (Elen : call_lengthProc H (lengthProc r) objPtr s = Fault).
  { unfold call_lengthProc. rewrite Hl, Hnl. reflexivity. }
  split; [|split; [|split]].
  - unfold Tcl_AbstractListObjLength.
    rewrite (bind_Ok _ _ _ _ _ (deref_obj_Ok _ _ _ Ho)).
    unfold AbstractListGetInternalRep, TclHasInternalRep.
    rewrite bool_decide_true by assumption.
    rewrite (bind_Ok _ _ _ _ _ (deref_rep_Ok _ _ _ Hr)). exact Elen.
  - unfold Tcl_AbstractListObjIndex.
    rewrite (bind_Ok _ _ _ _ _ (deref_obj_Ok _ _ _ Ho)).
    rewrite bool_decide_false by (intros Hn; exact (Hn Hty)).
    rewrite (bind_Ok _ _ _ _ _ (eq_refl : ret tt s = Ok tt s)).
    rewrite (bind_Ok _ _ _ _ _ (deref_rep_Ok _ _ _ Hr)).
    apply bind_Fault. unfold call_indexProc. rewrite Hi, Hni. reflexivity.
  - unfold Tcl_AbstractListObjGetElements.
    rewrite (bind_Ok _ _ _ _ _ (deref_obj_Ok _ _ _ Ho)).
    unfold AbstractListGetInternalRep, TclHasInternalRep.
    rewrite bool_decide_true by assumption.
    rewrite (bind_Ok _ _ _ _ _ (deref_rep_Ok _ _ _ Hr)).
    apply bind_Fault. exact Elen.
  - unfold UpdateStringOfAbstractList.
    rewrite (bind_Ok _ _ _ _ _ (deref_obj_Ok _ _ _ Ho)).
    rewrite (bind_Ok _ _ _ _ _ (deref_rep_Ok _ _ _ Hr)).
    apply bind_Fault. exact Elen.
Qed.

(** X11.  Two registrations on the same list both succeed; the slot
    registered last holds its function, the other requested slot holds
    its own when the two identifiers differ, every remaining slot, the
    cache pointer and the payload are unchanged, no value and no array is
    touched, and registrations of different slots commute. *)
Theorem SetProc_registrations_compose
  (s : State) (objPtr : Z) (o : Tcl_Obj) (r : AbstractList)
  (k1 k2 f1 f2 : Z) :
  objs s !! objPtr = Some o ->
  typePtr o = Some tclAbstractListType ->
  ptr1 o <> NULL ->
  reps s !! ptr1 o = Some r ->
  recognized k1 ->
  recognized k2 ->
  exists s1 s2 r2,
    Tcl_AbstractListSetProc objPtr k1 f1 s = Ok TCL_OK s1
    /\ Tcl_AbstractListSetProc objPtr k2 f2 s1 = Ok TCL_OK s2
    /\ reps s2 = <[ptr1 o := r2]> (reps s)
    /\ objs s2 = objs s /\ arrays s2 = arrays s
    /\ slot k2 r2 = f2
    /\ (k1 <> k2 -> slot k1 r2 = f1)
    /\ (forall k, k <> k1 -> k <> k2 -> slot k r2 = slot k r)
    /\ elements r2 = elements r /\ abstractValue r2 = abstractValue r
    /\ (k1 <> k2 ->
        exists s1',
          Tcl_AbstractListSetProc objPtr k2 f2 s = Ok TCL_OK s1'
          /\ Tcl_AbstractListSetProc objPtr k1 f1 s1' = Ok TCL_OK s2).
Proof.
  intros Ho Hty Hnn Hr Hk1 Hk2.
  pose proof (SetProc_run s objPtr o r k1 f1 Ho Hty Hnn Hr Hk1) as Hrun1.
  set (s1 := with_reps (insert (ptr1 o) (set_slot k1 f1 r)) s) in *.
  pose proof (SetProc_run s1 objPtr o (set_slot k1 f1 r) k2 f2 Ho Hty Hnn
                ltac:(simpl; apply lookup_insert_eq) Hk2) as Hrun2.
  exists s1. eexists. exists (set_slot k2 f2 (set_slot k1 f1 r)).
  split; [exact Hrun1|]. split; [exact Hrun2|]. simpl.
  split; [apply insert_insert_eq|]. split; [reflexivity|].
  split; [reflexivity|].
  split; [rewrite slot_set_slot, decide_True by auto; reflexivity|].
  split.
  { intros Hne. rewrite slot_set_slot, decide_False by auto.
    rewrite slot_set_slot, decide_True by auto. reflexivity. }
  split.
  { intros k Hn1 Hn2. rewrite slot_set_slot, decide_False by auto.
    rewrite slot_set_slot, decide_False by auto. reflexivity. }
  destruct (set_slot_fields k2 f2 (set_slot k1 f1 r)) as (_ & _ & _ & He2 & Ha2).
  destruct (set_slot_fields k1 f1 r) as (_ & _ & _ & He1 & Ha1).
  split; [congruence|]. split; [congruence|].
  intros Hne.
  pose proof (SetProc_run s objPtr o r k2 f2 Ho Hty Hnn Hr Hk2) as Hrun1'.
  eexists. split; [exact Hrun1'|].
  rewrite (SetProc_run (with_reps (insert (ptr1 o) (set_slot k2 f2 r)) s)
             objPtr o (set_slot k2 f2 r) k1 f1 Ho Hty Hnn
             ltac:(simpl; apply lookup_insert_eq) Hk1).
  f_equal. unfold s1, with_reps. simpl. rewrite !insert_insert_eq.
  rewrite (set_slot_commute k1 k2 f1 f2 r Hne). reflexivity.
Qed.

(** ** What the release loop can and cannot do *)

Lemma load_slot_inv (a i e : Z) (s s' : State) :
  load_slot a i s = Ok e s' ->
  s' = s
  /\ exists l, arrays s !! a = Some l /\ 0 <= i < Z.of_nat (length l).
Proof.
  unfold load_slot. destruct (arrays s !! a) as [l|]; [|discriminate].
  destruct (l !! Z.to_nat i) eqn:El; [|discriminate].
  destruct (Z.leb_spec 0 i); [|discriminate].
  intros [= <- <-]. split; [reflexivity|]. exists l. split; [reflexivity|].
  apply lookup_lt_Some in El. lia.
Qed.

Lemma Tcl_DecrRefCount_inv (e : Z) (s s' : State) :
  Tcl_DecrRefCount e s = Ok tt s' ->
  exists v, objs s !! e = Some v
    /\ (s' = with_objs (delete e) s
        \/ s' = with_objs (insert e (set_refCount (refCount v - 1) v)) s).
Proof.
  unfold Tcl_DecrRefCount. intros Hb.
  apply bind_inv in Hb as (v & s1 & Hd & Hb).
  apply deref_obj_inv in Hd as [-> Hv]. exists v. split; [exact Hv|].
  destruct (refCount v <=? 1); injection Hb as <-; auto.
Qed.

(** A successful run of the release loop stays inside the array, leaves
    headers and arrays alone, and changes values only by removing them or
    by changing their reference count. *)
Lemma release_loop_inv (a : Z) :
  forall (k : nat) (i : Z) (s s' : State),
    for_loop k i
      (fun i =>
         e <- load_slot a i ;;
         if e =? NULL then ret tt else Tcl_DecrRefCount e) s = Ok tt s' ->
    reps s' = reps s /\ arrays s' = arrays s
    /\ (forall p v', objs s' !! p = Some v' ->
          exists v, objs s !! p = Some v /\ v' = set_refCount (refCount v') v)
    /\ (k <> O ->
        exists l, arrays s !! a = Some l
                  /\ i + Z.of_nat k <= Z.of_nat (length l)).
Proof.
  induction k as [|k IH]; intros i s s'; simpl.
  - intros [= <-]. repeat split; try congruence.
    intros p v' Hp. exists v'. split; [exact Hp|]. destruct v'; reflexivity.
  - intros Hb.
    apply bind_inv in Hb as ([] & s2 & Hbody & Hrest).
    apply bind_inv in Hbody as (e & s1 & Hload & Hbody).
    apply load_slot_inv in Hload as (-> & l & Hl & Hi).
    assert (Hstep : reps s2 = reps s /\ arrays s2 = arrays s
                    /\ forall p v', objs s2 !! p = Some v' ->
                         exists v, objs s !! p = Some v
                                   /\ v' = set_refCount (refCount v') v).
    { destruct (e =? NULL).
      - injection Hbody as <-. repeat split.
        intros p v' Hp. exists v'. split; [exact Hp|]. destruct v'; reflexivity.
      - apply Tcl_DecrRefCount_inv in Hbody as (v & Hv & [-> | ->]);
          simpl; repeat split; intros p v' Hp.
        + apply lookup_delete_Some in Hp as [_ Hp].
          exists v'. split; [exact Hp|]. destruct v'; reflexivity.
        + destruct (decide (p = e)) as [->|Hne].
          * rewrite lookup_insert_eq in Hp. injection Hp as <-.
            exists v. split; [exact Hv|]. destruct v; reflexivity.
          * rewrite lookup_insert_ne in Hp by congruence.
            exists v'. split; [exact Hp|]. destruct v'; reflexivity. }
    destruct Hstep as (Hr2 & Ha2 & Ho2).
    destruct (IH _ _ _ Hrest) as (Hr' & Ha' & Ho' & Hin').
    split; [congruence|]. split; [congruence|]. split.
    + intros p v' Hp. destruct (Ho' p v' Hp) as (v2 & Hv2 & E2).
      destruct (Ho2 p v2 Hv2) as (v & Hv & E).
      exists v. split; [exact Hv|]. rewrite E2, E. destruct v; reflexivity.
    + intros _. exists l. split; [exact Hl|].
      destruct k as [|k]; [lia|].
      destruct (Hin' ltac:(discriminate)) as (l' & Hl' & Hle).
      rewrite Ha2, Hl in Hl'. injection Hl' as <-. lia.
Qed.

(** X12.  The destructor walks the cache up to the length the subtype
    reports, not up to the size of the array: when the array holds fewer
    entries than that length the destructor reads behind its end. *)
Theorem Free_reads_past_a_cache_shorter_than_the_length
  (s : State) (objPtr : Z) (o : Tcl_Obj) (r : AbstractList)
  (arr : list Z) (n : Z) :
  objs s !! objPtr = Some o ->
  reps s !! ptr1 o = Some r ->
  elements r <> NULL ->
  arrays s !! elements r = Some arr ->
  call_lengthProc H (lengthProc r) objPtr s = Ok n s ->
  Z.of_nat (length arr) < n ->
  FreeAbstractListInternalRep H objPtr s = Fault.
Proof.
  intros Ho Hr Hnn Harr Hlen Hlong.
  destruct (FreeAbstractListInternalRep H objPtr s) as [[] s'|msg|] eqn:E;
    [|destruct (quiet_FreeAbstractListInternalRep _ _ _ _ E)|reflexivity].
  exfalso. unfold FreeAbstractListInternalRep in E.
  rewrite (bind_Ok _ _ _ _ _ (deref_obj_Ok _ _ _ Ho)) in E.
  rewrite (bind_Ok _ _ _ _ _ (deref_rep_Ok _ _ _ Hr)) in E.
  apply Z.eqb_neq in Hnn. rewrite Hnn in E.
  apply bind_inv in E as ([] & s1 & E & _).
  rewrite (bind_Ok _ _ _ _ _ Hlen) in E.
  apply bind_inv in E as ([] & s2 & Eloop & _).
  apply release_loop_inv in Eloop as (_ & _ & _ & Hin).
  destruct (Hin ltac:(lia)) as (l & Hl & Hle).
  rewrite Harr in Hl. injection Hl as <-. lia.
Qed.

(** X13.  Whenever the destructor completes, the value keeps its type
    tag and its string form but both representation pointers are NULL and
    the header block is gone; from then on every registration on the
    value returns TCL_ERROR and a copy of it aborts the process. *)
Theorem after_Free_the_value_has_no_representation
  (s s' : State) (objPtr : Z) (o : Tcl_Obj) :
  objs s !! objPtr = Some o ->
  FreeAbstractListInternalRep H objPtr s = Ok tt s' ->
  exists o',
    objs s' !! objPtr = Some o'
    /\ ptr1 o' = NULL /\ ptr2 o' = NULL
    /\ typePtr o' = typePtr o /\ bytes o' = bytes o
    /\ reps s' = delete (ptr1 o) (reps s)
    /\ (forall k f, Tcl_AbstractListSetProc objPtr k f s' = Ok TCL_ERROR s')
    /\ (forall interp,
          TclAbstractListObjCopy H interp objPtr s'
          = Panic "SetAbstractListFromAny: should never be called").
Proof.
  intros Ho E. unfold FreeAbstractListInternalRep in E.
  rewrite (bind_Ok _ _ _ _ _ (deref_obj_Ok _ _ _ Ho)) in E.
  apply bind_inv in E as (r & s0 & Hd & E).
  apply deref_rep_inv in Hd as [-> Hr].
  apply bind_inv in E as ([] & s1 & Ecache & E).
  assert (Hs1 : reps s1 = reps s
                /\ forall p v', objs s1 !! p = Some v' ->
                     exists v, objs s !! p = Some v
                               /\ v' = set_refCount (refCount v') v).
  { destruct (elements r =? NULL).
    - injection Ecache as <-. split; [reflexivity|].
      intros p v' Hp. exists v'. split; [exact Hp|]. destruct v'; reflexivity.
    - apply bind_inv in Ecache as (n & s2 & Hlen & Ecache).
      apply call_lengthProc_inv in Hlen as [-> _].
      apply bind_inv in Ecache as ([] & s3 & Eloop & Efree).
      apply release_loop_inv in Eloop as (Hr3 & _ & Ho3 & _).
      unfold ckfree_array in Efree.
      destruct (arrays s3 !! elements r); [|discriminate].
      injection Efree as <-. simpl. split; assumption. }
  destruct Hs1 as [Hr1 Ho1].
  apply bind_inv in E as ([] & s2 & Efree & E).
  unfold ckfree_rep in Efree.
  apply bind_inv in Efree as (r1 & s2' & Hd & Efree).
  apply deref_rep_inv in Hd as [-> _]. injection Efree as <-.
  apply bind_inv in E as ([] & s3 & Eu1 & Eu2).
  apply update_obj_inv in Eu1 as (v1 & Hv1 & ->).
  apply update_obj_inv in Eu2 as (v2 & Hv2 & ->).
  simpl in Hv1, Hv2. rewrite lookup_insert_eq in Hv2. injection Hv2 as <-.
  destruct (Ho1 _ _ Hv1) as (v & Hv & Ev).
  assert (v = o) by congruence. subst v.
  set (o' := set_ptr2 NULL (set_ptr1 NULL v1)).
  assert (Ho' : objs (with_objs (insert objPtr o')
                        (with_objs (insert objPtr (set_ptr1 NULL v1))
                           (with_reps (delete (ptr1 o)) s1))) !! objPtr
                = Some o') by (simpl; apply lookup_insert_eq).
  exists o'. split; [exact Ho'|].
  split; [reflexivity|]. split; [reflexivity|].
  split; [simpl; rewrite Ev; reflexivity|].
  split; [simpl; rewrite Ev; reflexivity|].
  split; [simpl; rewrite Hr1; reflexivity|].
  split.
  - intros k f. unfold Tcl_AbstractListSetProc.
    rewrite (bind_Ok _ _ _ _ _ (deref_obj_Ok _ _ _ Ho')).
    unfold AbstractListGetInternalRep. simpl.
    destruct (TclHasInternalRep _ _); reflexivity.
  - intros interp. unfold TclAbstractListObjCopy.
    rewrite (bind_Ok _ _ _ _ _ (deref_obj_Ok _ _ _ Ho')).
    unfold AbstractListGetInternalRep. simpl.
    destruct (TclHasInternalRep _ _); reflexivity.
Qed.

(** ** The string projection and the heap *)

(** X14.  Producing the string form changes nothing but the string of
    the list: every temporary element is released again, reference count,
    type tag and representation pointers of the list are kept, headers
    (and so the element cache, which is neither read nor created), arrays
    and interpreters are untouched, and the allocator is charged with the
    sum over the elements of string length + 1. *)
Theorem UpdateString_changes_only_the_text_of_the_list
  (s : State) (objPtr : Z) (o : Tcl_Obj) (r : AbstractList) (n : Z)
  f (strs : list (list ascii)) :
  objs s !! objPtr = Some o ->
  reps s !! ptr1 o = Some r ->
  call_lengthProc H (lengthProc r) objPtr s = Ok n s ->
  indexProcAt H (indexProc r) = Some f ->
  index_strings (f (abstractValue r)) (Z.to_nat (to_int n)) 0 = Some strs ->
  forallb clean strs = true ->
  sum_lengths strs <= INT_MAX ->
  sum_lengths strs <= avail s ->
  exists s' o',
    UpdateStringOfAbstractList H objPtr s = Ok tt s'
    /\ objs s' = <[objPtr := o']> (objs s)
    /\ refCount o' = refCount o /\ typePtr o' = typePtr o
    /\ ptr1 o' = ptr1 o /\ ptr2 o' = ptr2 o
    /\ reps s' = reps s /\ arrays s' = arrays s /\ interps s' = interps s
    /\ avail s' = avail s - sum_lengths strs.
Proof.
  intros Ho Hr Hlen Hf Hidx Hclean Hmax Hav.
  pose proof (index_strings_length _ _ _ _ Hidx) as Hn.
  destruct (Z.le_gt_cases (to_int n) 0) as [Hle|Hpos].
  - assert (strs = []) as -> by (destruct strs; [reflexivity|simpl in Hn; lia]).
    eexists. eexists.
    split; [exact (UpdateString_empty H s objPtr o r n Ho Hr Hlen Hle)|].
    simpl. repeat split. lia.
  - rewrite <- render_length in Hmax, Hav.
    destruct (UpdateString_renders H s objPtr o r n f strs Ho Hr Hlen
                ltac:(lia) Hf Hidx Hclean Hmax Hav) as [Hm Hrun].
    eexists. eexists. split; [exact Hrun|].
    simpl. repeat split. rewrite Hm, render_length. reflexivity.
Qed.

(** X15.  The string projector does not check the buffer it obtains:
    when the allocator refuses the bytes of a list of at least one
    element, the rendering pass copies the first element through the NULL
    pointer. *)
Theorem UpdateString_writes_through_NULL_when_the_buffer_is_refused
  (s : State) (objPtr : Z) (o : Tcl_Obj) (r : AbstractList) (n : Z)
  f (strs : list (list ascii)) :
  objs s !! objPtr = Some o ->
  reps s !! ptr1 o = Some r ->
  call_lengthProc H (lengthProc r) objPtr s = Ok n s ->
  0 < to_int n ->
  indexProcAt H (indexProc r) = Some f ->
  index_strings (f (abstractValue r)) (Z.to_nat (to_int n)) 0 = Some strs ->
  sum_lengths strs <= INT_MAX ->
  avail s < sum_lengths strs ->
  UpdateStringOfAbstractList H objPtr s = Fault.
Proof.
  intros Ho Hr Hlen Hpos Hf Hidx Hmax Hav.
  pose proof (index_strings_length _ _ _ _ Hidx) as Hn.
  rewrite <- render_length in Hmax, Hav.
  assert (Hm : measured strs = Z.of_nat (length (render strs))).
  { unfold measured. rewrite measure_from_exact by lia. lia. }
  destruct strs as [|str strs]; [simpl in Hn; lia|].
  unfold UpdateStringOfAbstractList.
  rewrite (bind_Ok _ _ _ _ _ (deref_obj_Ok _ _ _ Ho)).
  rewrite (bind_Ok _ _ _ _ _ (deref_rep_Ok _ _ _ Hr)).
  rewrite (bind_Ok _ _ _ _ _ Hlen).
  destruct (Z.leb_spec (to_int n) 0); [lia|].
  rewrite <- Hn.
  rewrite (bind_Ok _ _ _ _ _
             (measure_loop H objPtr o r f Hf (str :: strs) 0 0 s Ho Hr
                ltac:(rewrite Hn; exact Hidx))).
  fold (measured (str :: strs)).
  set (total := measured (str :: strs)) in *.
  assert (Einit : Tcl_InitStringRep H objPtr total s = Ok None s).
  { unfold Tcl_InitStringRep.
    assert (0 < total).
    { rewrite Hm. simpl. rewrite length_app. simpl. lia. }
    destruct (Z.eqb_spec total 0); [lia|].
    assert (Ealloc : ckalloc total s = Ok NULL s).
    { unfold ckalloc. destruct (Z.leb_spec total (avail s)); [lia|reflexivity]. }
    rewrite (bind_Ok _ _ _ _ _ Ealloc). reflexivity. }
  rewrite (bind_Ok _ _ _ _ _ Einit).
  apply bind_Fault. simpl length. simpl for_fold.
  apply bind_Fault.
  rewrite (bind_Ok _ _ _ _ _ (deref_rep_Ok _ _ _ Hr)).
  rewrite <- Hn in Hidx. simpl in Hidx.
  destruct (f (abstractValue r) 0) as [str0|] eqn:Ef; [|discriminate].
  rewrite (bind_Ok _ _ _ _ _
             (call_indexProc_Some H _ _ _ _ _ _ _ _ Ho Hr Hf Ef)).
  erewrite bind_Ok; cycle 1.
  { apply (Tcl_GetStringFromObj_elem _ _ str0 0). simpl. apply lookup_insert_eq. }
  reflexivity.
Qed.

(** ** Single elements *)

(** X16.  The single-element accessor compares the index with nothing:
    where the subtype yields no value it returns NULL and leaves the heap
    as it was; where the subtype yields a string it returns a new value
    with reference count zero, which is no entry of a cache of live
    values, and changes nothing else. *)
Theorem ObjIndex_hands_any_index_to_the_subtype
  (s : State) (objPtr i : Z) (o : Tcl_Obj) (r : AbstractList) f :
  objs s !! objPtr = Some o ->
  typePtr o = Some tclAbstractListType ->
  reps s !! ptr1 o = Some r ->
  indexProcAt H (indexProc r) = Some f ->
  (f (abstractValue r) i = None ->
   Tcl_AbstractListObjIndex H objPtr i s = Ok NULL s)
  /\ (forall str,
        f (abstractValue r) i = Some str ->
        exists e,
          e <> NULL /\ objs s !! e = None
          /\ (forall arr, arrays s !! elements r = Some arr ->
                Forall (fun x => is_Some (objs s !! x)) arr -> e ∉ arr)
          /\ Tcl_AbstractListObjIndex H objPtr i s
             = Ok e (with_objs (insert e (elem_value str 0)) s)).
Proof.
  intros Ho Hty Hr Hf.
  assert (Hrun : Tcl_AbstractListObjIndex H objPtr i s
                 = (e <- call_indexProc H (indexProc r) objPtr i ;; ret e) s).
  { unfold Tcl_AbstractListObjIndex.
    rewrite (bind_Ok _ _ _ _ _ (deref_obj_Ok _ _ _ Ho)).
    rewrite bool_decide_false by (intros Hn; exact (Hn Hty)).
    rewrite (bind_Ok _ _ _ _ _ (eq_refl : ret tt s = Ok tt s)).
    rewrite (bind_Ok _ _ _ _ _ (deref_rep_Ok _ _ _ Hr)). reflexivity. }
  rewrite Hrun. split.
  - intros Enone.
    assert (Ecall : call_indexProc H (indexProc r) objPtr i s = Ok NULL s).
    { unfold call_indexProc. rewrite Hf.
      rewrite (bind_Ok _ _ _ _ _ (deref_obj_Ok _ _ _ Ho)).
      rewrite (bind_Ok _ _ _ _ _ (deref_rep_Ok _ _ _ Hr)).
      rewrite Enone. reflexivity. }
    rewrite (bind_Ok _ _ _ _ _ Ecall). reflexivity.
  - intros str Estr.
    destruct (fresh_addr_spec s) as (H0 & Hfresh & _).
    exists (fresh_addr s). split; [exact H0|]. split; [exact Hfresh|]. split.
    + intros arr _ Hlive Hin. rewrite Forall_forall in Hlive.
      destruct (Hlive _ Hin) as [v Hv]. congruence.
    + rewrite (bind_Ok _ _ _ _ _
                 (call_indexProc_Some H _ _ _ _ _ _ _ _ Ho Hr Hf Estr)).
      reflexivity.
Qed.

(** ** The entry points that validate nothing *)

(** X17.  On a value of another type the length, range and reverse
    entry points neither abort with a diagnostic nor return an error:
    they read the header through the NULL pointer. *)
Theorem unchecked_entry_points_dereference_NULL_on_other_values
  (sliceProcAt : Z -> option (Z -> Z -> Z -> M Z))
  (reverseProcAt : Z -> option (Z -> M Z))
  (s : State) (objPtr : Z) (o : Tcl_Obj) (fromIdx toIdx : Z) :
  objs s !! objPtr = Some o ->
  typePtr o <> Some tclAbstractListType ->
  reps s !! NULL = None ->
  Tcl_AbstractListObjLength H objPtr s = Fault
  /\ Tcl_AbstractListObjRange sliceProcAt objPtr fromIdx toIdx s = Fault
  /\ Tcl_AbstractListObjReverse reverseProcAt objPtr s = Fault.
Proof.
  intros Ho Hty Hnull.
  assert (Erep : deref_rep (AbstractListGetInternalRep o) s = Fault).
  { unfold AbstractListGetInternalRep, TclHasInternalRep.
    rewrite bool_decide_false by exact Hty.
    unfold deref_rep. rewrite Hnull. reflexivity. }
  unfold Tcl_AbstractListObjLength, Tcl_AbstractListObjRange,
    Tcl_AbstractListObjReverse.
  rewrite !(bind_Ok _ _ _ _ _ (deref_obj_Ok _ _ _ Ho)).
  repeat split; apply bind_Fault; exact Erep.
Qed.

(** X18.  After slice code is registered the range entry point is that
    code, called with the list and both indices exactly as given; after
    reverse code is registered the reverse entry point is that code
    called with the list. *)
Theorem SetProc_then_Range_and_Reverse_call_the_registered_code
  (sliceProcAt : Z -> option (Z -> Z -> Z -> M Z))
  (reverseProcAt : Z -> option (Z -> M Z))
  (s : State) (objPtr : Z) (o : Tcl_Obj) (r : AbstractList)
  (fns fnr : Z) slice reverse :
  objs s !! objPtr = Some o ->
  typePtr o = Some tclAbstractListType ->
  ptr1 o <> NULL ->
  reps s !! ptr1 o = Some r ->
  sliceProcAt fns = Some slice ->
  reverseProcAt fnr = Some reverse ->
  (exists s1,
     Tcl_AbstractListSetProc objPtr TCL_ABSL_SLICE fns s = Ok TCL_OK s1
     /\ forall fromIdx toIdx,
          Tcl_AbstractListObjRange sliceProcAt objPtr fromIdx toIdx s1
          = slice objPtr fromIdx toIdx s1)
  /\ (exists s1,
        Tcl_AbstractListSetProc objPtr TCL_ABSL_REVERSE fnr s = Ok TCL_OK s1
        /\ Tcl_AbstractListObjReverse reverseProcAt objPtr s1
           = reverse objPtr s1).
Proof.
  intros Ho Hty Hnn Hr Hs Hv. split.
  - eexists. split.
    + apply (SetProc_run s objPtr o r); try assumption.
      right; right; right; right; left; reflexivity.
    + intros fromIdx toIdx. unfold Tcl_AbstractListObjRange.
      rewrite (bind_Ok _ _ _ _ _
                 (deref_obj_Ok _ _ _ (Ho : objs (with_reps _ s) !! _ = _))).
      unfold AbstractListGetInternalRep, TclHasInternalRep.
      rewrite bool_decide_true by assumption.
      erewrite bind_Ok by (apply deref_rep_Ok; simpl; apply lookup_insert_eq).
      simpl. rewrite Hs. reflexivity.
  - eexists. split.
    + apply (SetProc_run s objPtr o r); try assumption.
      right; right; right; right; right; reflexivity.
    + unfold Tcl_AbstractListObjReverse.
      rewrite (bind_Ok _ _ _ _ _
                 (deref_obj_Ok _ _ _ (Ho : objs (with_reps _ s) !! _ = _))).
      unfold AbstractListGetInternalRep, TclHasInternalRep.
      rewrite bool_decide_true by assumption.
      erewrite bind_Ok by (apply deref_rep_Ok; simpl; apply lookup_insert_eq).
      simpl. rewrite Hv. reflexivity.
Qed.

(** ** Creation followed by destruction *)

Lemma NewAbstractListObj_run (s : State) (interp : Z) (name : string)
  (size : Z) :
  offsetof_abstractValue H <= to_size_t (sizeof_AbstractList H + size) ->
  to_size_t (sizeof_AbstractList H + size) <= avail s ->
  exists objPtr repPtr,
    Tcl_NewAbstractListObj H interp name size s
    = Ok objPtr
        (mkState
           (<[objPtr := mkObj 0 None 0 (Some tclAbstractListType) repPtr
                          (repPtr + offsetof_abstractValue H)]> (objs s))
           (<[repPtr := mkAbstractList TCL_ABSTRACTLIST_VERSION_1
                          (to_size_t (sizeof_AbstractList H + size)) name
                          NULL NULL NULL NULL NULL NULL NULL
                          (fresh_payload H
                             (to_size_t (sizeof_AbstractList H + size)))]>
              (reps s))
           (arrays s) (interps s)
           (avail s - to_size_t (sizeof_AbstractList H + size)))
    /\ objPtr <> NULL /\ repPtr <> NULL
    /\ objs s !! objPtr = None /\ reps s !! repPtr = None.
Proof.
  intros Hfit Hav. unfold Tcl_NewAbstractListObj.
  set (total := to_size_t (sizeof_AbstractList H + size)) in *.
  unfold bind at 1. unfold TclNewObj at 1.
  set (p := fresh_addr s).
  set (s1 := with_objs _ s).
  destruct (fresh_addr_spec s) as (Hp0 & Hpo & _).
  destruct (fresh_addr_spec s1) as (Hq0 & _ & Hqr & _).
  set (q := fresh_addr s1) in *.
  assert (Ealloc : ckalloc total s1 = Ok q (with_avail (avail s1 - total) s1)).
  { unfold ckalloc. destruct (Z.leb_spec total (avail s1)) as [_|Hlt];
      [reflexivity|]. simpl in Hlt. lia. }
  rewrite (bind_Ok _ _ _ _ _ Ealloc).
  unfold store_rep. apply Z.eqb_neq in Hq0 as Hq0'. rewrite Hq0'.
  destruct (Z.leb_spec (offsetof_abstractValue H) total); [|lia].
  unfold bind at 1. unfold modify at 1.
  unfold Tcl_StoreInternalRep.
  erewrite bind_Ok; cycle 1.
  { apply update_obj_Ok. simpl. apply lookup_insert_eq. }
  unfold Tcl_InvalidateStringRep.
  erewrite bind_Ok; cycle 1.
  { apply update_obj_Ok. simpl. apply lookup_insert_eq. }
  exists p, q. split; [|repeat split; assumption].
  unfold ret. f_equal. unfold with_objs, with_reps, with_avail. simpl.
  rewrite !insert_insert_eq. reflexivity.
Qed.

(** Creation into a block that cannot hold the named fields of the
    header stores behind the end of the block, and so does duplication
    of a header whose recorded size is below the size of the structure. *)
Lemma New_overruns_a_block_below_the_header_fields (s : State) (interp : Z)
  (name : string) (size : Z) :
  to_size_t (sizeof_AbstractList H + size) < offsetof_abstractValue H ->
  Tcl_NewAbstractListObj H interp name size s = Fault.
Proof.
  intros Hsmall. unfold Tcl_NewAbstractListObj.
  unfold bind at 1. unfold TclNewObj at 1.
  unfold bind at 1. unfold ckalloc at 1.
  destruct (_ <=? _).
  - destruct (fresh_addr_spec
                (with_objs (insert (fresh_addr s)
                              (mkObj 0 (Some tclEmptyString) 0 None NULL NULL))
                   s)) as (Hq0 & _).
    apply Z.eqb_neq in Hq0.
    unfold bind at 1. unfold store_rep at 1. simpl. rewrite Hq0.
    destruct (Z.leb_spec (offsetof_abstractValue H)
                (to_size_t (sizeof_AbstractList H + size))); [lia|].
    reflexivity.
  - reflexivity.
Qed.

Lemma Dup_overruns_a_block_below_the_header (s : State) (srcPtr copyPtr : Z)
  (src : Tcl_Obj) (srcRep : AbstractList) :
  objs s !! srcPtr = Some src ->
  reps s !! ptr1 src = Some srcRep ->
  repSize srcRep < sizeof_AbstractList H ->
  DupAbstractListInternalRep H srcPtr copyPtr s = Fault.
Proof.
  intros Ho Hr Hsmall. unfold DupAbstractListInternalRep, Tcl_AbstractListRepPtr.
  rewrite (bind_Ok _ _ _ _ _ (deref_obj_Ok _ _ _ Ho)).
  rewrite (bind_Ok _ _ _ _ _ (deref_rep_Ok _ _ _ Hr)).
  unfold struct_assign.
  destruct (Z.leb_spec (sizeof_AbstractList H) (repSize srcRep)); [lia|].
  unfold bind at 1, ckalloc at 1. destruct (_ <=? _); reflexivity.
Qed.

(** X19.  A list created with a payload size S >= 0 such that header size
    + S does not exceed SIZE_MAX and is supplied by the allocator can be
    destroyed right after its creation, before any operation is
    registered: the destructor completes, the header block
    is returned, and what remains is one new value with reference count
    zero, the abstract-list tag, no string form and NULL pointers. *)
Theorem a_new_list_is_destroyed_without_calling_the_subtype
  (s : State) (interp : Z) (name : string) (size : Z) :
  0 <= size ->
  sizeof_AbstractList H + size <= SIZE_MAX ->
  sizeof_AbstractList H + size <= avail s ->
  exists objPtr s1 s2,
    Tcl_NewAbstractListObj H interp name size s = Ok objPtr s1
    /\ FreeAbstractListInternalRep H objPtr s1 = Ok tt s2
    /\ objs s !! objPtr = None
    /\ objs s2 = <[objPtr := mkObj 0 None 0 (Some tclAbstractListType)
                               NULL NULL]> (objs s)
    /\ reps s2 = reps s /\ arrays s2 = arrays s /\ interps s2 = interps s.
Proof.
  intros Hsize Hmax Hav.
  pose proof (header_layout H) as Hlay.
  assert (Eid : to_size_t (sizeof_AbstractList H + size)
                = sizeof_AbstractList H + size)
    by (apply to_size_t_id; lia).
  destruct (NewAbstractListObj_run s interp name size
              ltac:(rewrite Eid; lia) ltac:(rewrite Eid; lia))
    as (objPtr & repPtr & Hrun & Hp0 & Hq0 & Hpo & Hqr).
  eexists objPtr, _, _. split; [exact Hrun|]. split.
  - eapply Free_run_uncached.
    + simpl. apply lookup_insert_eq.
    + simpl. apply lookup_insert_eq.
    + reflexivity.
  - split; [exact Hpo|]. simpl. split; [|split; [|split; reflexivity]].
    + unfold cleared. simpl. apply insert_insert_eq.
    + apply delete_insert_id. exact Hqr.
Qed.

(** ** Elements the subtype does not produce *)

(** One round of the materialization loop at a position where the index
    operation yields no value dereferences NULL; at any other position it
    keeps the list, its header and the emptiness of address NULL. *)
Lemma fill_body_inv (objPtr objv : Z) (o : Tcl_Obj) (r : AbstractList) f
  (i : Z) (s s1 : State) :
  indexProcAt H (indexProc r) = Some f ->
  objs s !! objPtr = Some o ->
  reps s !! ptr1 o = Some r ->
  objs s !! NULL = None ->
  (r <- deref_rep (ptr1 o) ;;
   e <- call_indexProc H (indexProc r) objPtr i ;;
   store_slot objv i e ;;; Tcl_IncrRefCount e) s = Ok tt s1 ->
  f (abstractValue r) i <> None
  /\ objs s1 !! objPtr = Some o /\ reps s1 !! ptr1 o = Some r
  /\ objs s1 !! NULL = None.
Proof.
  intros Hf Ho Hr Hnull Hb.
  rewrite (bind_Ok _ _ _ _ _ (deref_rep_Ok _ _ _ Hr)) in Hb.
  destruct (f (abstractValue r) i) as [str|] eqn:Ef.
  - rewrite (bind_Ok _ _ _ _ _
               (call_indexProc_Some H _ _ _ _ _ _ _ _ Ho Hr Hf Ef)) in Hb.
    destruct (fresh_addr_spec s) as (He0 & Heo & _).
    set (e := fresh_addr s) in *.
    apply bind_inv in Hb as ([] & s2 & Hst & Hinc).
    apply store_slot_inv in Hst as (l & ->).
    apply Tcl_IncrRefCount_inv in Hinc as (v & v' & _ & ->).
    split; [discriminate|]. simpl.
    assert (e <> objPtr) by (intros ->; congruence).
    rewrite !lookup_insert_ne by congruence. auto.
  - exfalso.
    assert (Ecall : call_indexProc H (indexProc r) objPtr i s = Ok NULL s).
    { unfold call_indexProc. rewrite Hf.
      rewrite (bind_Ok _ _ _ _ _ (deref_obj_Ok _ _ _ Ho)).
      rewrite (bind_Ok _ _ _ _ _ (deref_rep_Ok _ _ _ Hr)).
      rewrite Ef. reflexivity. }
    rewrite (bind_Ok _ _ _ _ _ Ecall) in Hb.
    apply bind_inv in Hb as ([] & s2 & Hst & Hinc).
    apply store_slot_inv in Hst as (l & ->).
    apply Tcl_IncrRefCount_inv in Hinc as (v & v' & Hv & _).
    simpl in Hv. congruence.
Qed.

Lemma fill_loop_inv (objPtr objv : Z) (o : Tcl_Obj) (r : AbstractList) f :
  indexProcAt H (indexProc r) = Some f ->
  forall (k : nat) (i : Z) (s s' : State),
    objs s !! objPtr = Some o ->
    reps s !! ptr1 o = Some r ->
    objs s !! NULL = None ->
    for_loop k i
      (fun i =>
         r <- deref_rep (ptr1 o) ;;
         e <- call_indexProc H (indexProc r) objPtr i ;;
         store_slot objv i e ;;;
         Tcl_IncrRefCount e) s = Ok tt s' ->
    forall j, i <= j < i + Z.of_nat k -> f (abstractValue r) j <> None.
Proof.
  intros Hf. induction k as [|k IH]; intros i s s' Ho Hr Hnull Hb j Hj;
    [lia|].
  simpl in Hb. apply bind_inv in Hb as ([] & s1 & Hbody & Hrest).
  destruct (fill_body_inv objPtr objv o r f i s s1 Hf Ho Hr Hnull Hbody)
    as (Hi & Ho1 & Hr1 & Hnull1).
  destruct (Z.eq_dec j i) as [->|Hne]; [exact Hi|].
  apply (IH (i + 1) s1 s' Ho1 Hr1 Hnull1 Hrest). lia.
Qed.

(** One round of the measuring loop: it leaves the heap as it was, or
    dereferences NULL where the index operation yields no value. *)
Lemma measure_body_inv (objPtr : Z) (o : Tcl_Obj) (r : AbstractList) f
  (i acc v : Z) (s s1 : State) :
  indexProcAt H (indexProc r) = Some f ->
  objs s !! objPtr = Some o ->
  reps s !! ptr1 o = Some r ->
  objs s !! NULL = None ->
  (r <- deref_rep (ptr1 o) ;;
   eleObj <- call_indexProc H (indexProc r) objPtr i ;;
   sl <- Tcl_GetStringFromObj eleObj ;;
   let slen := snd sl in
   Tcl_DecrRefCount eleObj ;;;
   ret (to_wide (acc + to_int (slen + 1)))) s = Ok v s1 ->
  f (abstractValue r) i <> None /\ s1 = s.
Proof.
  intros Hf Ho Hr Hnull Hb.
  rewrite (bind_Ok _ _ _ _ _ (deref_rep_Ok _ _ _ Hr)) in Hb.
  destruct (f (abstractValue r) i) as [str|] eqn:Ef.
  - split; [discriminate|].
    rewrite (bind_Ok _ _ _ _ _
               (call_indexProc_Some H _ _ _ _ _ _ _ _ Ho Hr Hf Ef)) in Hb.
    destruct (fresh_addr_spec s) as (He0 & Heo & _).
    set (e := fresh_addr s) in *.
    set (s2 := with_objs (insert e (elem_value str 0)) s) in *.
    assert (He : objs s2 !! e = Some (elem_value str 0))
      by (simpl; apply lookup_insert_eq).
    rewrite (bind_Ok _ _ _ _ _ (Tcl_GetStringFromObj_elem _ _ _ _ He)) in Hb.
    simpl snd in Hb.
    rewrite (bind_Ok _ _ _ _ _
               (Tcl_DecrRefCount_last _ _ _ He ltac:(simpl; lia))) in Hb.
    injection Hb as _ <-. unfold s2, with_objs. simpl.
    rewrite delete_insert_id by exact Heo. apply state_eta.
  - exfalso.
    assert (Ecall : call_indexProc H (indexProc r) objPtr i s = Ok NULL s).
    { unfold call_indexProc. rewrite Hf.
      rewrite (bind_Ok _ _ _ _ _ (deref_obj_Ok _ _ _ Ho)).
      rewrite (bind_Ok _ _ _ _ _ (deref_rep_Ok _ _ _ Hr)).
      rewrite Ef. reflexivity. }
    rewrite (bind_Ok _ _ _ _ _ Ecall) in Hb.
    apply bind_inv in Hb as (sl & s2 & Hget & _).
    unfold Tcl_GetStringFromObj in Hget.
    apply bind_inv in Hget as (v0 & s3 & Hd & _).
    apply deref_obj_inv in Hd as [_ Hd]. congruence.
Qed.

Lemma measure_loop_inv (objPtr : Z) (o : Tcl_Obj) (r : AbstractList) f :
  indexProcAt H (indexProc r) = Some f ->
  forall (k : nat) (i acc v : Z) (s s' : State),
    objs s !! objPtr = Some o ->
    reps s !! ptr1 o = Some r ->
    objs s !! NULL = None ->
    for_fold k i acc
      (fun i length_ =>
         r <- deref_rep (ptr1 o) ;;
         eleObj <- call_indexProc H (indexProc r) objPtr i ;;
         sl <- Tcl_GetStringFromObj eleObj ;;
         let slen := snd sl in
         Tcl_DecrRefCount eleObj ;;;
         ret (to_wide (length_ + to_int (slen + 1)))) s = Ok v s' ->
    forall j, i <= j < i + Z.of_nat k -> f (abstractValue r) j <> None.
Proof.
  intros Hf. induction k as [|k IH]; intros i acc v s s' Ho Hr Hnull Hb j Hj;
    [lia|].
  simpl in Hb. apply bind_inv in Hb as (acc1 & s1 & Hbody & Hrest).
  destruct (measure_body_inv objPtr o r f i acc acc1 s s1 Hf Ho Hr Hnull Hbody)
    as (Hi & ->).
  destruct (Z.eq_dec j i) as [->|Hne]; [exact Hi|].
  apply (IH (i + 1) acc1 v s s' Ho Hr Hnull Hrest). lia.
Qed.

(** X20.  Neither the string projector nor the first materialization
    checks what the index operation returns: when the subtype yields no
    value at some position below the length, the projector asks NULL for
    its string and the bulk accessor increments the reference count of
    NULL. *)
Theorem a_missing_element_is_dereferenced_as_NULL
  (s : State) (objPtr : Z) (o : Tcl_Obj) (r : AbstractList) (n j : Z) f
  (interp objc0 objv0 : Z) :
  objs s !! objPtr = Some o ->
  reps s !! ptr1 o = Some r ->
  objs s !! NULL = None ->
  call_lengthProc H (lengthProc r) objPtr s = Ok n s ->
  indexProcAt H (indexProc r) = Some f ->
  0 <= j < to_int n ->
  f (abstractValue r) j = None ->
  UpdateStringOfAbstractList H objPtr s = Fault
  /\ (typePtr o = Some tclAbstractListType ->
      elements r = NULL ->
      to_size_t (sizeof_ptr H * to_int n) <= avail s ->
      Tcl_AbstractListObjGetElements H interp objPtr objc0 objv0 s = Fault).
Proof.
  intros Ho Hr Hnull Hlen Hf Hj Enone. split.
  - destruct (UpdateStringOfAbstractList H objPtr s) as [[] s'|msg|] eqn:E;
      [|destruct (quiet_UpdateStringOfAbstractList _ _ _ _ E)|reflexivity].
    exfalso. unfold UpdateStringOfAbstractList in E.
    rewrite (bind_Ok _ _ _ _ _ (deref_obj_Ok _ _ _ Ho)) in E.
    rewrite (bind_Ok _ _ _ _ _ (deref_rep_Ok _ _ _ Hr)) in E.
    rewrite (bind_Ok _ _ _ _ _ Hlen) in E.
    destruct (Z.leb_spec (to_int n) 0); [lia|].
    apply bind_inv in E as (total & s1 & Eloop & _).
    apply (measure_loop_inv objPtr o r f Hf _ _ _ _ _ _ Ho Hr Hnull Eloop j);
      [lia|exact Enone].
  - intros Hty Enull Hmem.
    destruct (Tcl_AbstractListObjGetElements H interp objPtr objc0 objv0 s)
      as [res s'|msg|] eqn:E;
      [|destruct (quiet_Tcl_AbstractListObjGetElements _ _ _ _ _ _ _ E)
       |reflexivity].
    exfalso. unfold Tcl_AbstractListObjGetElements in E.
    rewrite (bind_Ok _ _ _ _ _ (deref_obj_Ok _ _ _ Ho)) in E.
    unfold AbstractListGetInternalRep, TclHasInternalRep in E.
    rewrite bool_decide_true in E by assumption.
    rewrite (bind_Ok _ _ _ _ _ (deref_rep_Ok _ _ _ Hr)) in E.
    rewrite (bind_Ok _ _ _ _ _ Hlen) in E.
    destruct (Z.ltb_spec 0 (to_int n)); [|lia].
    rewrite Enull in E. simpl (negb _) in E. cbv iota in E.
    destruct (fresh_addr_spec s) as (Hv0 & _).
    assert (Ealloc : ckalloc (to_size_t (sizeof_ptr H * to_int n)) s
                     = Ok (fresh_addr s)
                         (with_avail
                            (avail s - to_size_t (sizeof_ptr H * to_int n)) s)).
    { unfold ckalloc.
      destruct (Z.leb_spec (to_size_t (sizeof_ptr H * to_int n)) (avail s));
        [reflexivity|lia]. }
    rewrite (bind_Ok _ _ _ _ _ Ealloc) in E.
    apply Z.eqb_neq in Hv0 as Hv0'. rewrite Hv0' in E.
    unfold as_array in E. rewrite Hv0' in E.
    unfold bind at 1, modify at 1 in E.
    erewrite bind_Ok in E by (apply update_rep_Ok; simpl; exact Hr).
    apply bind_inv in E as ([] & s1 & Eloop & _).
    match type of Eloop with
    | for_loop _ _ _ ?st = _ =>
        assert (Hr3 : reps st !! ptr1 o
                      = Some (set_elements (fresh_addr s) r))
          by (simpl; apply lookup_insert_eq);
        apply (fill_loop_inv objPtr (fresh_addr s) o
                 (set_elements (fresh_addr s) r) f Hf _ _ st s1 Ho Hr3 Hnull
                 Eloop j); [lia|exact Enone]
    end.
Qed.

End Lifecycle.

(** ** The further properties on concrete heaps *)

(** Decides a closed proposition about a concrete heap by evaluation. *)
Ltac decided := apply (bool_decide_unpack _); vm_compute; exact I.

Lemma Free_without_cache_witness :
  exists s',
    FreeAbstractListInternalRep seriesHost seriesObj seriesState = Ok tt s'
    /\ reps s' = ∅ /\ arrays s' = ∅.
Proof.
  destruct (Free_without_cache_frees_the_header_only seriesHost seriesState
              seriesObj (obj_at seriesState seriesObj)
              (rep_at seriesState seriesObj)
              ltac:(calc) ltac:(calc) ltac:(calc))
    as (s' & Hrun & _ & Hreps & Harr & _).
  exists s'. split; [exact Hrun|]. split.
  - rewrite Hreps. calc.
  - rewrite Harr. calc.
Defined.

Lemma Free_cached_witness :
  exists s',
    FreeAbstractListInternalRep seriesHost seriesObj cachedState = Ok tt s'
    /\ objs s' !! seriesObj = Some (cleared (obj_at cachedState seriesObj))
    /\ reps s' = ∅ /\ arrays s' = ∅.
Proof.
  assert (Hnd : NoDup (cache_at cachedState seriesObj)) by decided.
  assert (Hall : Forall (fun e => e <> NULL
                                  /\ is_Some (objs cachedState !! e))
                   (cache_at cachedState seriesObj)) by decided.
  assert (Hnotin : seriesObj ∉ cache_at cachedState seriesObj) by decided.
  destruct (Free_releases_each_cached_element seriesHost cachedState
              seriesObj (obj_at cachedState seriesObj)
              (rep_at cachedState seriesObj) (cache_at cachedState seriesObj)
              ltac:(calc) ltac:(calc) ltac:(calc) ltac:(calc) ltac:(calc)
              Hnd Hall Hnotin)
    as (s' & Hrun & _ & _ & Hobj & Hreps & Harr).
  exists s'. split; [exact Hrun|]. split; [exact Hobj|]. split.
  - rewrite Hreps. calc.
  - rewrite Harr. calc.
Defined.

Lemma materialize_then_free_witness :
  exists objv s1 s2,
    Tcl_AbstractListObjGetElements seriesHost NULL seriesObj 0 0 seriesState
      = Ok (TCL_OK, 5, objv) s1
    /\ FreeAbstractListInternalRep seriesHost seriesObj s1 = Ok tt s2
    /\ objs s2 = <[seriesObj := cleared (obj_at seriesState seriesObj)]>
                   (objs seriesState)
    /\ arrays s2 = arrays seriesState.
Proof.
  destruct (materialize_then_free_leaks_nothing seriesHost seriesState
              seriesObj (obj_at seriesState seriesObj)
              (rep_at seriesState seriesObj) 5 series_index seriesStrings
              NULL 0 0
              ltac:(calc) ltac:(calc) ltac:(calc) ltac:(calc)
              ltac:(unfold INT_MAX; lia)
              ltac:(calc_proc 4002) ltac:(calc) ltac:(calc) ltac:(calc))
    as (objv & s1 & s2 & Hget & Hfree & Hobjs & _ & Harr).
  exists objv, s1, s2. repeat split; assumption.
Defined.

Lemma first_materialization_witness :
  exists objv arr s1,
    Tcl_AbstractListObjGetElements seriesHost NULL seriesObj 0 0 seriesState
      = Ok (TCL_OK, 5, objv) s1
    /\ arrays s1 = <[objv := arr]> (arrays seriesState)
    /\ Z.of_nat (length arr) = 5
    /\ NoDup arr.
Proof.
  destruct (first_materialization_creates_fresh_single_reference_elements
              seriesHost seriesState
              seriesObj (obj_at seriesState seriesObj)
              (rep_at seriesState seriesObj) 5 series_index seriesStrings
              NULL 0 0
              ltac:(calc) ltac:(calc) ltac:(calc) ltac:(calc)
              ltac:(unfold INT_MAX; lia)
              ltac:(calc_proc 4002) ltac:(calc) ltac:(calc) ltac:(calc))
    as (objv & arr & s1 & Hget & _ & _ & Harr & Hlen & Hnd & _).
  exists objv, arr, s1. repeat split; assumption.
Defined.

Lemma GetElements_allocation_failure_witness :
  Tcl_AbstractListObjGetElements seriesHost NULL seriesObj 7 8 starvedState
    = Ok (TCL_ERROR, 7, 8) starvedState
  /\ Tcl_AbstractListObjGetElements seriesHost 900 seriesObj 7 8 starvedState
     = Ok (TCL_ERROR, 7, 8)
         (with_interps
            (insert 900
               (mkInterp "max length of a Tcl list exceeded"
                  ["TCL"; "MEMORY"]%string)) starvedState).
Proof.
  destruct (GetElements_reports_allocation_failure seriesHost starvedState
              seriesObj (obj_at starvedState seriesObj)
              (rep_at starvedState seriesObj) 5 NULL 7 8
              ltac:(calc) ltac:(calc) ltac:(calc) ltac:(calc) ltac:(calc)
              ltac:(calc) ltac:(calc)) as [Hnull _].
  destruct (GetElements_reports_allocation_failure seriesHost starvedState
              seriesObj (obj_at starvedState seriesObj)
              (rep_at starvedState seriesObj) 5 900 7 8
              ltac:(calc) ltac:(calc) ltac:(calc) ltac:(calc) ltac:(calc)
              ltac:(calc) ltac:(calc)) as [_ Herr].
  split; [exact (Hnull eq_refl)|].
  apply (Herr (mkInterp EmptyString [])); calc.
Defined.

Lemma Copy_panics_witness :
  TclAbstractListObjCopy seriesHost NULL plainObj plainState
    = Panic "SetAbstractListFromAny: should never be called"
  /\ forall c s1,
       TclAbstractListObjCopy seriesHost NULL seriesObj seriesState = Ok c s1 ->
       c <> NULL /\ objs seriesState !! c = None.
Proof.
  destruct (Copy_panics_or_returns_a_new_handle seriesHost plainState NULL
              plainObj (obj_at plainState plainObj) ltac:(calc))
    as (Hpanic & _ & _).
  destruct (Copy_panics_or_returns_a_new_handle seriesHost seriesState NULL
              seriesObj (obj_at seriesState seriesObj) ltac:(calc))
    as (_ & _ & Hok).
  split; [apply Hpanic; calc|].
  intros c s1 Hrun. destruct (Hok c s1 Hrun) as (H1 & H2 & _). auto.
Defined.

Lemma Copy_header_witness :
  exists c p r1 s1,
    TclAbstractListObjCopy seriesHost NULL seriesObj cachedState = Ok c s1
    /\ reps s1 = <[p := r1]> (reps cachedState)
    /\ reps cachedState !! p = None
    /\ elements r1 = elements (rep_at cachedState seriesObj)
    /\ lengthProc r1 = 4001.
Proof.
  destruct (Copy_duplicates_the_header_into_a_new_block seriesHost cachedState
              NULL seriesObj (obj_at cachedState seriesObj)
              (rep_at cachedState seriesObj)
              ltac:(calc) ltac:(calc) ltac:(calc) ltac:(calc) ltac:(calc)
              ltac:(calc))
    as (c & p & r1 & s1 & Hrun & _ & _ & _ & Hpr & _ & Hreps & _ & _ & _
        & Hel & Hslots & _).
  { intros _. exists series_dupRep. calc_proc 4003. }
  exists c, p, r1, s1. split; [exact Hrun|]. split; [exact Hreps|].
  split; [exact Hpr|]. split; [exact Hel|].
  rewrite (Hslots TCL_ABSL_LENGTH : lengthProc r1 = _). calc.
Defined.

Lemma Copy_payload_hook_witness :
  exists c s1,
    TclAbstractListObjCopy seriesHost NULL seriesObj seriesState = Ok c s1
    /\ c <> seriesObj
    /\ Tcl_AbstractListObjLength seriesHost c s1 = Ok 5 s1
    /\ exists e s2,
         Tcl_AbstractListObjIndex seriesHost c 3 s1 = Ok e s2
         /\ objs s2 !! e = Some (elem_value (decimal 6) 0).
Proof.
  destruct (Copy_with_payload_hook_keeps_length_and_elements seriesHost
              seriesState NULL seriesObj (obj_at seriesState seriesObj)
              (rep_at seriesState seriesObj) 5 series_dupRep
              ltac:(calc) ltac:(calc) ltac:(calc) ltac:(calc) ltac:(calc)
              ltac:(calc) ltac:(calc) ltac:(calc_proc 4003)
              ltac:(reflexivity) ltac:(calc))
    as (c & s1 & Hrun & Hne & Hlen & _ & Hidx).
  exists c, s1. split; [exact Hrun|]. split; [exact Hne|].
  split; [exact Hlen|].
  destruct (Hidx series_index 3 (decimal 6) ltac:(calc_proc 4002) ltac:(calc))
    as (e & s2 & Hi & _ & He).
  exists e, s2. split; assumption.
Defined.

Lemma SetProc_dispatch_witness :
  (exists s1,
     Tcl_AbstractListSetProc createdObj TCL_ABSL_LENGTH 4001 createdState
       = Ok TCL_OK s1
     /\ Tcl_AbstractListObjLength seriesHost createdObj s1 = Ok 0 s1)
  /\ exists s1,
       Tcl_AbstractListSetProc seriesObj TCL_ABSL_INDEX 4004 seriesState
         = Ok TCL_OK s1
       /\ exists e s2,
            Tcl_AbstractListObjIndex seriesHost seriesObj 77 s1 = Ok e s2
            /\ objs s2 !! e = Some (elem_value [] 0).
Proof.
  destruct (SetProc_then_dispatch_calls_the_registered_code seriesHost
              createdState createdObj (obj_at createdState createdObj)
              (rep_at createdState createdObj) 4001 4002
              series_length series_index
              ltac:(calc) ltac:(calc) ltac:(calc) ltac:(calc)
              ltac:(reflexivity) ltac:(reflexivity))
    as [(s1 & Hset & Hlen) _].
  destruct (SetProc_then_dispatch_calls_the_registered_code seriesHost
              seriesState seriesObj (obj_at seriesState seriesObj)
              (rep_at seriesState seriesObj) 4001 4004
              series_length blanks_index
              ltac:(calc) ltac:(calc) ltac:(calc) ltac:(calc)
              ltac:(reflexivity) ltac:(reflexivity))
    as [_ (s2 & Hset2 & Hidx)].
  split.
  - exists s1. split; [exact Hset|].
    replace 0 with (to_wide (series_length
                               (abstractValue (rep_at createdState createdObj))))
      by (vm_compute; reflexivity).
    exact Hlen.
  - exists s2. split; [exact Hset2|].
    destruct (Hidx 77 [] eq_refl) as (e & s3 & Hrun & _ & He).
    exists e, s3. split; assumption.
Defined.

Lemma unregistered_operations_witness :
  Tcl_AbstractListObjLength seriesHost createdObj createdState = Fault
  /\ Tcl_AbstractListObjIndex seriesHost createdObj 0 createdState = Fault
  /\ Tcl_AbstractListObjGetElements seriesHost 900 createdObj 0 0 createdState
     = Fault
  /\ UpdateStringOfAbstractList seriesHost createdObj createdState = Fault.
Proof.
  exact (unregistered_operations_are_called_through_NULL seriesHost
           createdState createdObj (obj_at createdState createdObj)
           (rep_at createdState createdObj) 0 900 0 0
           ltac:(calc) ltac:(calc) ltac:(calc) ltac:(calc) ltac:(calc)
           ltac:(reflexivity) ltac:(reflexivity)).
Defined.

Lemma SetProc_compose_witness :
  exists s1 s2 r2,
    Tcl_AbstractListSetProc seriesObj TCL_ABSL_SLICE 4005 seriesState
      = Ok TCL_OK s1
    /\ Tcl_AbstractListSetProc seriesObj TCL_ABSL_REVERSE 4006 s1 = Ok TCL_OK s2
    /\ reps s2 = <[ptr1 (obj_at seriesState seriesObj) := r2]> (reps seriesState)
    /\ sliceProc r2 = 4005 /\ reverseProc r2 = 4006 /\ lengthProc r2 = 4001.
Proof.
  destruct (SetProc_registrations_compose seriesState seriesObj
              (obj_at seriesState seriesObj) (rep_at seriesState seriesObj)
              TCL_ABSL_SLICE TCL_ABSL_REVERSE 4005 4006
              ltac:(calc) ltac:(calc) ltac:(calc) ltac:(calc)
              ltac:(right; right; right; right; left; reflexivity)
              ltac:(right; right; right; right; right; reflexivity))
    as (s1 & s2 & r2 & Hrun1 & Hrun2 & Hreps & _ & _ & Hk2 & Hk1 & Hother & _).
  exists s1, s2, r2. split; [exact Hrun1|]. split; [exact Hrun2|].
  split; [exact Hreps|]. split; [exact (Hk1 ltac:(calc))|].
  split; [exact Hk2|].
  rewrite (Hother TCL_ABSL_LENGTH ltac:(calc) ltac:(calc)
           : lengthProc r2 = _).
  calc.
Defined.

Lemma Free_overlong_witness :
  Tcl_AbstractListObjLength seriesHost overlongObj overlongState
    = Ok 4294967297 overlongState
  /\ length (cache_at overlongState overlongObj) = 1%nat
  /\ FreeAbstractListInternalRep seriesHost overlongObj overlongState = Fault.
Proof.
  split; [calc|]. split; [calc|].
  apply (Free_reads_past_a_cache_shorter_than_the_length seriesHost
           overlongState overlongObj (obj_at overlongState overlongObj)
           (rep_at overlongState overlongObj)
           (cache_at overlongState overlongObj) 4294967297);
    calc.
Defined.

Lemma after_Free_witness :
  exists o1,
    objs freedState !! seriesObj = Some o1
    /\ typePtr o1 = Some tclAbstractListType
    /\ ptr1 o1 = NULL
    /\ Tcl_AbstractListSetProc seriesObj TCL_ABSL_LENGTH 4001 freedState
       = Ok TCL_ERROR freedState
    /\ TclAbstractListObjCopy seriesHost NULL seriesObj freedState
       = Panic "SetAbstractListFromAny: should never be called".
Proof.
  destruct (after_Free_the_value_has_no_representation seriesHost cachedState
              freedState seriesObj (obj_at cachedState seriesObj)
              ltac:(calc) ltac:(calc))
    as (o1 & Ho1 & Hp1 & _ & Hty & _ & _ & Hset & Hcopy).
  exists o1. split; [exact Ho1|]. split; [rewrite Hty; calc|].
  split; [exact Hp1|]. split; [apply Hset|apply Hcopy].
Defined.

Lemma UpdateString_frame_witness :
  exists s1 o1,
    UpdateStringOfAbstractList seriesHost seriesObj cachedState = Ok tt s1
    /\ objs s1 = <[seriesObj := o1]> (objs cachedState)
    /\ reps s1 = reps cachedState /\ arrays s1 = arrays cachedState
    /\ avail s1 = avail cachedState - 10.
Proof.
  destruct (UpdateString_changes_only_the_text_of_the_list seriesHost
              cachedState seriesObj (obj_at cachedState seriesObj)
              (rep_at cachedState seriesObj) 5 series_index seriesStrings
              ltac:(calc) ltac:(calc) ltac:(calc) ltac:(calc_proc 4002)
              ltac:(calc) ltac:(calc) ltac:(calc) ltac:(calc))
    as (s1 & o1 & Hrun & Hobjs & _ & _ & _ & _ & Hreps & Harr & _ & Hav).
  exists s1, o1. repeat split; assumption.
Defined.

Lemma UpdateString_refused_witness :
  UpdateStringOfAbstractList seriesHost seriesObj starvedState = Fault.
Proof.
  apply (UpdateString_writes_through_NULL_when_the_buffer_is_refused
           seriesHost starvedState seriesObj (obj_at starvedState seriesObj)
           (rep_at starvedState seriesObj) 5 series_index seriesStrings);
    first [calc_proc 4002 | calc].
Defined.

Lemma ObjIndex_any_index_witness :
  Tcl_AbstractListObjIndex seriesHost seriesObj 5 seriesState
    = Ok NULL seriesState
  /\ Tcl_AbstractListObjIndex seriesHost seriesObj (-1) seriesState
     = Ok NULL seriesState
  /\ exists e,
       Tcl_AbstractListObjIndex seriesHost seriesObj 4 cachedState
       = Ok e (with_objs (insert e (elem_value (decimal 8) 0)) cachedState)
       /\ e ∉ cache_at cachedState seriesObj.
Proof.
  destruct (ObjIndex_hands_any_index_to_the_subtype seriesHost seriesState
              seriesObj 5 (obj_at seriesState seriesObj)
              (rep_at seriesState seriesObj) series_index
              ltac:(calc) ltac:(calc) ltac:(calc) ltac:(calc_proc 4002))
    as [Hafter _].
  destruct (ObjIndex_hands_any_index_to_the_subtype seriesHost seriesState
              seriesObj (-1) (obj_at seriesState seriesObj)
              (rep_at seriesState seriesObj) series_index
              ltac:(calc) ltac:(calc) ltac:(calc) ltac:(calc_proc 4002))
    as [Hbefore _].
  destruct (ObjIndex_hands_any_index_to_the_subtype seriesHost cachedState
              seriesObj 4 (obj_at cachedState seriesObj)
              (rep_at cachedState seriesObj) series_index
              ltac:(calc) ltac:(calc) ltac:(calc) ltac:(calc_proc 4002))
    as [_ Hin].
  split; [apply Hafter; calc|]. split; [apply Hbefore; calc|].
  destruct (Hin (decimal 8) ltac:(calc)) as (e & _ & _ & Hcache & Hrun).
  exists e. split; [exact Hrun|].
  apply (Hcache (cache_at cachedState seriesObj)); [calc|].
  apply (bool_decide_unpack _); vm_compute; exact I.
Defined.

Lemma unchecked_entry_points_witness :
  Tcl_AbstractListObjLength seriesHost plainObj plainState = Fault
  /\ Tcl_AbstractListObjRange sameSlice plainObj 0 1 plainState = Fault
  /\ Tcl_AbstractListObjReverse sameReverse plainObj plainState = Fault.
Proof.
  exact (unchecked_entry_points_dereference_NULL_on_other_values seriesHost
           sameSlice sameReverse plainState plainObj
           (obj_at plainState plainObj) 0 1
           ltac:(calc) ltac:(calc) ltac:(calc)).
Defined.

Lemma SetProc_Range_Reverse_witness :
  (exists s1,
     Tcl_AbstractListSetProc seriesObj TCL_ABSL_SLICE 4005 seriesState
       = Ok TCL_OK s1
     /\ Tcl_AbstractListObjRange sameSlice seriesObj (-3) 99 s1
        = Ok seriesObj s1)
  /\ exists s1,
       Tcl_AbstractListSetProc seriesObj TCL_ABSL_REVERSE 4006 seriesState
         = Ok TCL_OK s1
       /\ Tcl_AbstractListObjReverse sameReverse seriesObj s1
          = Ok seriesObj s1.
Proof.
  destruct (SetProc_then_Range_and_Reverse_call_the_registered_code
              sameSlice sameReverse seriesState seriesObj
              (obj_at seriesState seriesObj) (rep_at seriesState seriesObj)
              4005 4006 (fun objPtr _ _ => ret objPtr) (fun objPtr => ret objPtr)
              ltac:(calc) ltac:(calc) ltac:(calc) ltac:(calc)
              ltac:(reflexivity) ltac:(reflexivity))
    as [(s1 & Hset1 & Hrange) (s2 & Hset2 & Hrev)].
  split.
  - exists s1. split; [exact Hset1|]. rewrite Hrange. reflexivity.
  - exists s2. split; [exact Hset2|]. rewrite Hrev. reflexivity.
Defined.

Lemma new_list_destroyed_witness :
  exists objPtr s1 s2,
    Tcl_NewAbstractListObj seriesHost NULL "arithseries" 24 startState
      = Ok objPtr s1
    /\ FreeAbstractListInternalRep seriesHost objPtr s1 = Ok tt s2
    /\ reps s2 = ∅ /\ arrays s2 = ∅.
Proof.
  destruct (a_new_list_is_destroyed_without_calling_the_subtype seriesHost
              startState NULL "arithseries" 24
              ltac:(calc) ltac:(calc) ltac:(calc))
    as (objPtr & s1 & s2 & Hnew & Hfree & _ & _ & Hreps & Harr & _).
  exists objPtr, s1, s2. repeat split; assumption.
Defined.

Lemma missing_element_witness :
  Tcl_AbstractListObjLength seriesHost raggedObj raggedState
    = Ok 3 raggedState
  /\ UpdateStringOfAbstractList seriesHost raggedObj raggedState = Fault
  /\ Tcl_AbstractListObjGetElements seriesHost 900 raggedObj 0 0 raggedState
     = Fault.
Proof.
  split; [calc|].
  destruct (a_missing_element_is_dereferenced_as_NULL seriesHost raggedState
              raggedObj (obj_at raggedState raggedObj)
              (rep_at raggedState raggedObj) 3 1 series_index 900 0 0
              ltac:(calc) ltac:(calc) ltac:(calc) ltac:(calc)
              ltac:(calc_proc 4002) ltac:(vm_compute; split; [discriminate|reflexivity])
              ltac:(calc))
    as [Hstr Hget].
  split; [exact Hstr|]. apply Hget; calc.
Defined.
